(** * Iaido camp registration service

    A shallow embedding of the core of [src/server.js] (the pricing engine,
    the validation layer, the registration store with its schema migration
    and legacy import, the contention-retry wrapper, the admin session
    tokens and the CSV export), followed by the properties of that code.

    Part I holds the definitions, Part II the lemmas and theorems. *)

From Stdlib Require Import ZArith NArith Ascii String List DecimalString Lia.
From stdpp Require Import gmap strings list fin_maps.

Local Open Scope Z_scope.
Local Set Warnings "-register-all".

(* ===================================================================== *)
(** * Part I: the embedding                                               *)
(* ===================================================================== *)

(** ** JavaScript strings

    A JavaScript string is a sequence of UTF-16 code units.  Every
    character the program inspects (white space, the CSV delimiters, the
    dot of a session token, ASCII letters and digits) is a single code
    unit, so [trim], the regular expressions and [split] are exact on this
    representation. *)

Abbreviation jsstring := (list N).

(** The code units of an ASCII literal of the source. *)
Definition js (s : string) : jsstring :=
  List.map N_of_ascii (list_ascii_of_string s).

(** WhiteSpace and LineTerminator code units: what [String.prototype.trim]
    strips and what [\s] matches. *)
Definition is_js_whitespace (c : N) : bool :=
  ((9 <=? c) && (c <=? 13) || (c =? 32) || (c =? 160) || (c =? 5760)
   || (8192 <=? c) && (c <=? 8202) || (c =? 8232) || (c =? 8233)
   || (c =? 8239) || (c =? 8287) || (c =? 12288) || (c =? 65279))%N.

Fixpoint trimStart (s : jsstring) : jsstring :=
  match s with
  | c :: s' => if is_js_whitespace c then trimStart s' else s
  | [] => []
  end.

Definition trimEnd (s : jsstring) : jsstring := rev (trimStart (rev s)).

(** [s.trim()] *)
Definition trim (s : jsstring) : jsstring := trimEnd (trimStart s).

Definition ascii_lower (c : N) : N :=
  if ((65 <=? c) && (c <=? 90))%N then (c + 32)%N else c.

(** The canonical form of a code unit under the [i] flag of a regular
    expression: the upper case letter for an ASCII letter; a code unit
    outside ASCII never canonicalises to an ASCII one. *)
Definition ascii_upper (c : N) : N :=
  if ((97 <=? c) && (c <=? 122))%N then (c - 32)%N else c.

(** [parts.join(sep)] *)
Fixpoint join_with (sep : jsstring) (parts : list jsstring) : jsstring :=
  match parts with
  | [] => []
  | [p] => p
  | p :: rest => p ++ sep ++ join_with sep rest
  end.

(** ** Numbers

    A number of the embedding is an integer [z]: it stands for the double
    nearest to [z], which is [z] itself up to 2^53.  Numbers with a
    fraction are outside the embedding. *)

(** The digits of an integer, with its sign. *)
Definition digits (z : Z) : jsstring :=
  js (NilZero.string_of_int (Z.to_int z)).

(** The double nearest to a positive integer, as an integer: 53 significant
    bits are kept, the rest is rounded to nearest, a tie to the even
    neighbour. *)
Definition round_to_double (v : Z) : Z :=
  let bits := Z.log2 v + 1 in
  if bits <=? 53 then v
  else
    let shift := bits - 53 in
    let q := Z.shiftr v shift in
    let r := Z.land v (Z.ones shift) in
    let half := Z.shiftl 1 (shift - 1) in
    let q := if (half <? r) || ((r =? half) && Z.odd q) then q + 1 else q in
    Z.shiftl q shift.

(** The integer with the fewest significant digits that is read as the
    double [x]: the multiple of the greatest power of ten, at most
    [10 ^ p], that rounds to [x], and of two such multiples the nearer. *)
Fixpoint shortest_decimal (p : nat) (x : Z) : Z :=
  match p with
  | O => x
  | S p' =>
      let step := 10 ^ Z.of_nat p in
      let lo := (x / step) * step in
      let hi := lo + step in
      let lo_fits := (0 <? lo) && (round_to_double lo =? x) in
      let hi_fits := round_to_double hi =? x in
      if lo_fits && hi_fits then (if x - lo <=? hi - x then lo else hi)
      else if lo_fits then lo
      else if hi_fits then hi
      else shortest_decimal p' x
  end.

(** Drops the zeros a text starts with. *)
Fixpoint dropwhile_zeros (s : jsstring) : jsstring :=
  match s with
  | c :: s' => if (c =? 48)%N then dropwhile_zeros s' else s
  | [] => []
  end.

(** The digits of [v] in the notation [d.ddde+n]. *)
Definition exponent_notation (v : Z) : jsstring :=
  let text := digits v in
  let significant := rev (dropwhile_zeros (rev text)) in
  match significant with
  | [] => []
  | d :: rest =>
      (d :: match rest with [] => [] | _ => js "." ++ rest end)
        ++ js "e+" ++ digits (Z.of_nat (length text) - 1)
  end.

(** [String(n)] for a positive number: plain digits below 10^21, the
    exponent notation from there on, [Infinity] from 2^1024 on. *)
Definition positive_number_text (v : Z) : jsstring :=
  let x := round_to_double v in
  if 1024 <=? Z.log2 x then js "Infinity"
  else if Z.log2 x <? 53 then digits x
  else
    let shortest := shortest_decimal (length (digits x)) x in
    if (length (digits shortest) <=? 21)%nat then digits shortest
    else exponent_notation shortest.

(** [String(n)] for a number [n], as [Number.prototype.toString] prints
    it. *)
Definition decimal (z : Z) : jsstring :=
  if z =? 0 then js "0"
  else if z <? 0 then js "-" ++ positive_number_text (- z)
  else positive_number_text z.

(** ** JavaScript values

    The values a parsed JSON body is made of, plus [undefined] for an absent
    property.  An object lists its own properties; of two entries with one
    name the first is the property.  Such an object inherits from
    [Object.prototype], an array from [Array.prototype], and no property
    holds a function.  A number is one with an integer value, given by the
    integer; [decimal] prints the nearest double. *)

Inductive jsval : Type :=
| JUndefined
| JNull
| JBool (b : bool)
| JNum (z : Z)
| JStr (s : jsstring)
| JArr (xs : list jsval)
| JObj (props : list (jsstring * jsval)).

(** The text [String(v)] returns.  It returns on every value but those of
    [String_raises] below; what the code converts of a request goes
    through [String_of], which raises on them. *)
Fixpoint ToString (v : jsval) : jsstring :=
  match v with
  | JUndefined => js "undefined"
  | JNull => js "null"
  | JBool true => js "true"
  | JBool false => js "false"
  | JNum z => decimal z
  | JStr s => s
  | JArr xs =>
      join_with (js ",")
        (List.map (fun x => match x with
                            | JUndefined | JNull => []
                            | _ => ToString x
                            end) xs)
  | JObj _ => js "[object Object]"
  end.

(** [Boolean(v)], the truthiness of a value. *)
Definition ToBoolean (v : jsval) : bool :=
  match v with
  | JUndefined | JNull => false
  | JBool b => b
  | JNum z => negb (z =? 0)
  | JStr s => match s with [] => false | _ => true end
  | JArr _ | JObj _ => true
  end.

(** [a || b] *)
Definition js_or (a b : jsval) : jsval := if ToBoolean a then a else b.

(** [a ?? b] *)
Definition js_nullish (a b : jsval) : jsval :=
  match a with
  | JUndefined | JNull => b
  | _ => a
  end.

Fixpoint assoc {A} (k : jsstring) (l : list (jsstring * A)) : option A :=
  match l with
  | [] => None
  | (k', v) :: l' => if decide (k = k') then Some v else assoc k l'
  end.

(** [v === s] for a string [s]. *)
Definition strict_eq_string (v : jsval) (s : jsstring) : bool :=
  match v with
  | JStr t => bool_decide (t = s)
  | _ => false
  end.

(** [Object.prototype.hasOwnProperty.call(o, k)] on an object literal. *)
Definition hasOwnProperty {A} (o : list (jsstring * A)) (k : jsstring) : bool :=
  match assoc k o with Some _ => true | None => false end.

(** [v.name]: [None] is the TypeError of reading a property of [null] or
    [undefined]; a primitive or an array has none of the names the program
    reads. *)
Definition get_prop (v : jsval) (name : string) : option jsval :=
  match v with
  | JUndefined | JNull => None
  | JObj props => Some (default JUndefined (assoc (js name) props))
  | _ => Some JUndefined
  end.

(** [String(v)] raises a TypeError when it finds no text for [v].  For an
    object it calls the [toString] the object has: the one of
    [Object.prototype], unless the object has an own property of that name,
    which is no function; [valueOf] then returns the object itself or is
    no function either, and the conversion raises.  For an array it joins
    the texts of the elements, so it raises when the conversion of an
    element does ([null] converts to the empty text there). *)
Fixpoint String_raises (v : jsval) : bool :=
  match v with
  | JArr xs => existsb String_raises xs
  | JObj props => hasOwnProperty props (js "toString")
  | _ => false
  end.

(** [String(v)]; [None] is the TypeError. *)
Definition String_of (v : jsval) : option jsstring :=
  if String_raises v then None else Some (ToString v).

(** ** The runtime

    What the embedding takes from the runtime without spelling it out:
    [String.prototype.toLowerCase], the case mapping of Unicode, and
    [JSON.parse], whose [None] is the SyntaxError.  Of the case mapping two
    facts are used: its result holds no upper case letter of ASCII, and it
    maps a text with no white space at its ends to such a text (white
    space has no case, and no letter is mapped to it). *)
Class Runtime := {
  toLowerCase : jsstring → jsstring;
  JSON_parse : jsstring → option jsval;
  toLowerCase_no_upper : ∀ s c, c ∈ toLowerCase s → ¬ (65 ≤ c ≤ 90)%N;
  toLowerCase_trimmed : ∀ s, trim s = s → trim (toLowerCase s) = toLowerCase s
}.

(** ** Pricing engine *)

Record price_option := { label : jsstring; amountHuf : Z }.

Record price_options := {
  po_campType : list (jsstring * price_option);
  po_mealPlan : list (jsstring * price_option);
  po_accommodation : list (jsstring * price_option)
}.

Definition PRICE_OPTIONS : price_options := {|
  po_campType :=
    [ (js "iaido", {| label := js "Iaido seminar"; amountHuf := 149 |});
      (js "jodo", {| label := js "Jodo seminar"; amountHuf := 149 |});
      (js "both", {| label := js "Iaido + Jodo seminar"; amountHuf := 249 |}) ];
  po_mealPlan :=
    [ (js "none", {| label := js "No meal"; amountHuf := 0 |});
      (js "lunch", {| label := js "Lunch package"; amountHuf := 33 |});
      (js "full", {| label := js "Full meal package"; amountHuf := 60 |}) ];
  po_accommodation :=
    [ (js "none", {| label := js "No accommodation"; amountHuf := 0 |});
      (js "dojo", {| label := js "Dojo accommodation"; amountHuf := 73 |});
      (js "guesthouse", {| label := js "Guesthouse"; amountHuf := 135 |}) ]
|}.

(** [None] is the TypeError of [String(value || '')]. *)
Definition toEnumValue (value : jsval) (allowedValues : list (jsstring * price_option))
    (fallbackValue : jsstring) : option jsstring :=
  text ← String_of (js_or value (JStr []));
  let normalized := trim text in
  Some (if hasOwnProperty allowedValues normalized then normalized else fallbackValue).

(** The argument of [calculatePricing]. *)
Record selection_in := {
  in_campType : jsval;
  in_mealPlan : jsval;
  in_accommodation : jsval
}.

Record selection := {
  sel_campType : jsstring;
  sel_mealPlan : jsstring;
  sel_accommodation : jsstring
}.

(** A line item: [{ key, code, ...PRICE_OPTIONS.<key>[code] }].  The spread
    of a missing table entry adds no property, so [label] and [amountHuf]
    are optional in the object the expression builds. *)
Record line_item := {
  li_key : jsstring;
  li_code : jsstring;
  li_label : option jsstring;
  li_amountHuf : option Z
}.

Definition mk_line_item (key : string) (table : list (jsstring * price_option))
    (code : jsstring) : line_item :=
  {| li_key := js key;
     li_code := code;
     li_label := label <$> assoc code table;
     li_amountHuf := amountHuf <$> assoc code table |}.

(** [sum + item.amountHuf] on numbers; [None] is NaN, which an [undefined]
    operand produces. *)
Definition num_add (sum : option Z) (x : option Z) : option Z :=
  match sum, x with
  | Some a, Some b => Some (a + b)
  | _, _ => None
  end.

Record pricing := {
  pr_selection : selection;
  lineItems : list line_item;
  totalHuf : option Z;
  currency : jsstring
}.

(** [None] is the TypeError of one of the three [toEnumValue] calls. *)
Definition calculatePricing (sel : selection_in) : option pricing :=
  campType ← toEnumValue (in_campType sel) (po_campType PRICE_OPTIONS) (js "iaido");
  mealPlan ← toEnumValue (in_mealPlan sel) (po_mealPlan PRICE_OPTIONS) (js "none");
  accommodation ←
    toEnumValue (in_accommodation sel) (po_accommodation PRICE_OPTIONS) (js "none");
  let items :=
    [ mk_line_item "campType" (po_campType PRICE_OPTIONS) campType;
      mk_line_item "mealPlan" (po_mealPlan PRICE_OPTIONS) mealPlan;
      mk_line_item "accommodation" (po_accommodation PRICE_OPTIONS) accommodation ] in
  Some {| pr_selection := {| sel_campType := campType;
                             sel_mealPlan := mealPlan;
                             sel_accommodation := accommodation |};
          lineItems := items;
          totalHuf :=
            fold_left (fun sum item => num_add sum (li_amountHuf item)) items (Some 0);
          currency := js "EUR" |}.

(** ** Regular expressions

    The literals of the source use classes, concatenation and bounded or
    unbounded repetition only, so [re.test(s)] is membership of [s] in a
    regular language, decided here with derivatives. *)

Inductive regex : Type :=
| RNone
| REps
| RClass (p : N → bool)
| RCat (r1 r2 : regex)
| RAlt (r1 r2 : regex)
| RStar (r : regex).

Fixpoint nullable (r : regex) : bool :=
  match r with
  | RNone => false
  | REps => true
  | RClass _ => false
  | RCat r1 r2 => nullable r1 && nullable r2
  | RAlt r1 r2 => nullable r1 || nullable r2
  | RStar _ => true
  end.

Fixpoint deriv (c : N) (r : regex) : regex :=
  match r with
  | RNone | REps => RNone
  | RClass p => if p c then REps else RNone
  | RCat r1 r2 =>
      if nullable r1 then RAlt (RCat (deriv c r1) r2) (deriv c r2)
      else RCat (deriv c r1) r2
  | RAlt r1 r2 => RAlt (deriv c r1) (deriv c r2)
  | RStar r => RCat (deriv c r) (RStar r)
  end.

Fixpoint matches_all (r : regex) (s : jsstring) : bool :=
  match s with
  | [] => nullable r
  | c :: s' => matches_all (deriv c r) s'
  end.

(** [r+] *)
Definition RPlus (r : regex) : regex := RCat r (RStar r).

(** [r{n}] *)
Fixpoint RRepeat (n : nat) (r : regex) : regex :=
  match n with
  | O => REps
  | S n' => RCat r (RRepeat n' r)
  end.

(** [r{0,n}] *)
Fixpoint RUpTo (n : nat) (r : regex) : regex :=
  match n with
  | O => REps
  | S n' => RAlt REps (RCat r (RUpTo n' r))
  end.

(** [r{lo,hi}] *)
Definition RRange (lo hi : nat) (r : regex) : regex :=
  RCat (RRepeat lo r) (RUpTo (hi - lo) r).

(** A literal character. *)
Definition RChar (c : string) : regex :=
  RClass (fun x => bool_decide ([x] = js c)).

(** A literal text under the [i] flag. *)
Definition RLitI (text : string) : regex :=
  fold_right (fun c r => RCat (RClass (fun x => (ascii_upper x =? ascii_upper c)%N)) r)
    REps (js text).

Definition RAny : regex := RClass (fun _ => true).

(** [/^r$/.test(s)] *)
Definition test_anchored (r : regex) (s : jsstring) : bool := matches_all r s.

(** [/r/.test(s)]: some substring of [s] matches. *)
Definition test_search (r : regex) (s : jsstring) : bool :=
  matches_all (RCat (RStar RAny) (RCat r (RStar RAny))) s.

(** The language of a regular expression, the reference for the matcher. *)
Inductive lang : regex → jsstring → Prop :=
| lang_eps : lang REps []
| lang_class p c : p c = true → lang (RClass p) [c]
| lang_cat r1 r2 s1 s2 : lang r1 s1 → lang r2 s2 → lang (RCat r1 r2) (s1 ++ s2)
| lang_alt_l r1 r2 s : lang r1 s → lang (RAlt r1 r2) s
| lang_alt_r r1 r2 s : lang r2 s → lang (RAlt r1 r2) s
| lang_star_nil r : lang (RStar r) []
| lang_star_app r s1 s2 : lang r s1 → lang (RStar r) s2 → lang (RStar r) (s1 ++ s2).

(** [s] contains [text], letter case of ASCII letters apart. *)
Definition contains_ci (text : string) (s : jsstring) : Prop :=
  ∃ pre mid post,
    s = pre ++ mid ++ post ∧ List.map ascii_upper mid = List.map ascii_upper (js text).

(** ** Validation layer *)

(** The canonical shape [sanitizePayload] returns: strings and booleans. *)
Record registration_data := {
  d_fullName : jsstring;
  d_email : jsstring;
  d_phone : jsstring;
  d_dateOfBirth : jsstring;
  d_city : jsstring;
  d_currentGradeIaido : jsstring;
  d_currentGradeJodo : jsstring;
  d_campType : jsstring;
  d_mealPlan : jsstring;
  d_accommodation : jsstring;
  d_wantsExamIaido : bool;
  d_targetGradeIaido : jsstring;
  d_wantsExamJodo : bool;
  d_targetGradeJodo : jsstring;
  d_billingFullName : jsstring;
  d_billingZip : jsstring;
  d_billingCity : jsstring;
  d_billingAddress : jsstring;
  d_billingCountry : jsstring;
  d_foodNotes : jsstring;
  d_privacyConsent : bool;
  d_termsConsent : bool
}.

(** On a field of [registration_data] the [typeof value === 'string'] test
    of the three predicates below holds by typing. *)
Definition isNonEmptyString (value : jsstring) : bool :=
  (0 <? length (trim value))%nat.

(** [[^\s@]] *)
Definition not_space_or_at (c : N) : bool :=
  negb (is_js_whitespace c) && negb (bool_decide ([c] = js "@")).

(** [/^[^\s@]+@[^\s@]+\.[^\s@]+$/] *)
Definition email_regex : regex :=
  RCat (RPlus (RClass not_space_or_at))
    (RCat (RChar "@")
       (RCat (RPlus (RClass not_space_or_at))
          (RCat (RChar ".") (RPlus (RClass not_space_or_at))))).

Definition isValidEmail (value : jsstring) : bool := test_anchored email_regex value.

Definition is_digit (c : N) : bool := ((48 <=? c) && (c <=? 57))%N.

(** [[+()\-\s0-9]] *)
Definition phone_char (c : N) : bool :=
  bool_decide ([c] = js "+") || bool_decide ([c] = js "(") || bool_decide ([c] = js ")")
  || bool_decide ([c] = js "-") || is_js_whitespace c || is_digit c.

(** [/^[+()\-\s0-9]{7,20}$/] *)
Definition phone_regex : regex := RRange 7 20 (RClass phone_char).

Definition isValidPhone (value : jsstring) : bool := test_anchored phone_regex (trim value).

(** [/^\d{4}$/] *)
Definition zip_regex : regex := RRepeat 4 (RClass is_digit).

(** [None] is a TypeError: the payload is [null] or [undefined] and has no
    property to read, or [String] raises on a value it is given.  The two
    target grades are converted only with their exam flag. *)
Definition sanitizePayload `{Runtime} (payload : jsval) : option registration_data :=
  p_targetGradeIaido ← get_prop payload "targetGradeIaido";
  p_targetGrade ← get_prop payload "targetGrade";
  p_currentGradeIaido ← get_prop payload "currentGradeIaido";
  p_currentGrade ← get_prop payload "currentGrade";
  p_wantsExamIaido ← get_prop payload "wantsExamIaido";
  p_wantsExam ← get_prop payload "wantsExam";
  p_wantsExamJodo ← get_prop payload "wantsExamJodo";
  p_campType ← get_prop payload "campType";
  p_mealPlan ← get_prop payload "mealPlan";
  p_accommodation ← get_prop payload "accommodation";
  p_fullName ← get_prop payload "fullName";
  p_email ← get_prop payload "email";
  p_phone ← get_prop payload "phone";
  p_dateOfBirth ← get_prop payload "dateOfBirth";
  p_city ← get_prop payload "city";
  p_currentGradeJodo ← get_prop payload "currentGradeJodo";
  p_targetGradeJodo ← get_prop payload "targetGradeJodo";
  p_billingFullName ← get_prop payload "billingFullName";
  p_billingZip ← get_prop payload "billingZip";
  p_billingCity ← get_prop payload "billingCity";
  p_billingAddress ← get_prop payload "billingAddress";
  p_billingCountry ← get_prop payload "billingCountry";
  p_foodNotes ← get_prop payload "foodNotes";
  p_privacyConsent ← get_prop payload "privacyConsent";
  p_termsConsent ← get_prop payload "termsConsent";
  let fallbackTargetGradeIaido :=
    js_nullish p_targetGradeIaido (js_nullish p_targetGrade (JStr [])) in
  let fallbackCurrentGradeIaido :=
    js_nullish p_currentGradeIaido (js_nullish p_currentGrade (JStr [])) in
  let wantsExamIaido := ToBoolean (js_nullish p_wantsExamIaido p_wantsExam) in
  let wantsExamJodo := ToBoolean p_wantsExamJodo in
  campType ← toEnumValue p_campType (po_campType PRICE_OPTIONS) (js "iaido");
  mealPlan ← toEnumValue p_mealPlan (po_mealPlan PRICE_OPTIONS) (js "none");
  accommodation ←
    toEnumValue p_accommodation (po_accommodation PRICE_OPTIONS) (js "none");
  let str v := trim <$> String_of (js_or v (JStr [])) in
  fullName ← str p_fullName;
  email ← toLowerCase <$> str p_email;
  phone ← str p_phone;
  dateOfBirth ← str p_dateOfBirth;
  city ← str p_city;
  currentGradeIaido ← trim <$> String_of fallbackCurrentGradeIaido;
  currentGradeJodo ← str p_currentGradeJodo;
  targetGradeIaido ←
    (if wantsExamIaido then trim <$> String_of fallbackTargetGradeIaido else Some []);
  targetGradeJodo ← (if wantsExamJodo then str p_targetGradeJodo else Some []);
  billingFullName ← str p_billingFullName;
  billingZip ← str p_billingZip;
  billingCity ← str p_billingCity;
  billingAddress ← str p_billingAddress;
  billingCountry ← trim <$> String_of (js_or p_billingCountry (JStr (js "Hungary")));
  foodNotes ← str p_foodNotes;
  Some {|
    d_fullName := fullName;
    d_email := email;
    d_phone := phone;
    d_dateOfBirth := dateOfBirth;
    d_city := city;
    d_currentGradeIaido := currentGradeIaido;
    d_currentGradeJodo := currentGradeJodo;
    d_campType := campType;
    d_mealPlan := mealPlan;
    d_accommodation := accommodation;
    d_wantsExamIaido := wantsExamIaido;
    d_targetGradeIaido := targetGradeIaido;
    d_wantsExamJodo := wantsExamJodo;
    d_targetGradeJodo := targetGradeJodo;
    d_billingFullName := billingFullName;
    d_billingZip := billingZip;
    d_billingCity := billingCity;
    d_billingAddress := billingAddress;
    d_billingCountry := billingCountry;
    d_foodNotes := foodNotes;
    d_privacyConsent := ToBoolean p_privacyConsent;
    d_termsConsent := ToBoolean p_termsConsent
  |}.

(** The properties whose value the sanitizer hands to [String] whatever the
    others are, and those it hands over depending on others: the combined
    grades stand in for the Iaido grades that are absent, and a target
    grade is read only with its exam flag. *)
Definition ALWAYS_CONVERTED : list string :=
  [ "campType"; "mealPlan"; "accommodation"; "fullName"; "email"; "phone"; "dateOfBirth";
    "city"; "currentGradeIaido"; "currentGradeJodo"; "billingFullName"; "billingZip";
    "billingCity"; "billingAddress"; "billingCountry"; "foodNotes" ].

Definition SOMETIMES_CONVERTED : list string :=
  [ "currentGrade"; "targetGradeIaido"; "targetGrade"; "targetGradeJodo" ].

(** [if (cond) errors.push(message)].  The messages are literals of the
    source that the program never inspects. *)
Definition push_if (cond : bool) (message : string) (errors : list string) : list string :=
  if cond then errors ++ [message] else errors.

Definition validateRegistration (data : registration_data) : list string :=
  let errors := [] in
  let errors := push_if (negb (isNonEmptyString (d_fullName data)))
                  "Full name is required." errors in
  let errors := push_if (negb (isValidEmail (d_email data)))
                  "A valid email address is required." errors in
  let errors := push_if (negb (isValidPhone (d_phone data)))
                  "A valid phone number is required." errors in
  let errors := push_if (negb (isNonEmptyString (d_city data)))
                  "City is required." errors in
  let needsIaidoGrade :=
    bool_decide (d_campType data = js "iaido") || bool_decide (d_campType data = js "both")
    || d_wantsExamIaido data in
  let needsJodoGrade :=
    bool_decide (d_campType data = js "jodo") || bool_decide (d_campType data = js "both")
    || d_wantsExamJodo data in
  let errors := push_if (needsIaidoGrade && negb (isNonEmptyString (d_currentGradeIaido data)))
                  "Current Iaido grade is required for the selected option." errors in
  let errors := push_if (needsJodoGrade && negb (isNonEmptyString (d_currentGradeJodo data)))
                  "Current Jodo grade is required for the selected option." errors in
  let errors := push_if (negb (hasOwnProperty (po_campType PRICE_OPTIONS) (d_campType data)))
                  "Invalid seminar selection." errors in
  let errors := push_if (negb (hasOwnProperty (po_mealPlan PRICE_OPTIONS) (d_mealPlan data)))
                  "Invalid meal option." errors in
  let errors :=
    push_if (negb (hasOwnProperty (po_accommodation PRICE_OPTIONS) (d_accommodation data)))
      "Invalid accommodation option." errors in
  let errors :=
    push_if (d_wantsExamIaido data && negb (isNonEmptyString (d_targetGradeIaido data)))
      "Iaido target grade is required if Iaido exam is selected." errors in
  let errors :=
    push_if (d_wantsExamJodo data && negb (isNonEmptyString (d_targetGradeJodo data)))
      "Jodo target grade is required if Jodo exam is selected." errors in
  let errors :=
    push_if (d_wantsExamIaido data && bool_decide (d_campType data = js "jodo"))
      "Iaido exam can only be selected with Iaido or Iaido + Jodo participation." errors in
  let errors :=
    push_if (d_wantsExamJodo data && bool_decide (d_campType data = js "iaido"))
      "Jodo exam can only be selected with Jodo or Iaido + Jodo participation." errors in
  let errors := push_if (negb (isNonEmptyString (d_billingFullName data)))
                  "Billing full name is required." errors in
  let errors := push_if (negb (test_anchored zip_regex (d_billingZip data)))
                  "Billing ZIP code must be 4 digits." errors in
  let errors := push_if (negb (isNonEmptyString (d_billingCity data)))
                  "Billing city is required." errors in
  let errors := push_if (negb (isNonEmptyString (d_billingAddress data)))
                  "Billing address is required." errors in
  let errors := push_if (negb (isNonEmptyString (d_billingCountry data)))
                  "Billing country is required." errors in
  let errors := push_if (4000 <? length (d_foodNotes data))%nat
                  "Note cannot exceed 4000 characters." errors in
  let errors := push_if (negb (d_privacyConsent data))
                  "Privacy consent is required." errors in
  let errors := push_if (negb (d_termsConsent data))
                  "Accepting participation terms is required." errors in
  errors.

(** ** Contention-retry wrapper *)

(** What a [catch] clause receives, as far as [isSqliteBusyError] looks at
    it: the [code] and [message] properties, [undefined] when absent. *)
Record js_error := { err_code : jsval; err_message : jsval }.

(** [new Error(message)] *)
Definition Error (message : string) : js_error :=
  {| err_code := JUndefined; err_message := JStr (js message) |}.

Inductive outcome (A : Type) : Type :=
| Returned (a : A)
| Thrown (e : js_error).
Arguments Returned {A} a.
Arguments Thrown {A} e.

Definition SQLITE_RETRY_MAX_ATTEMPTS : nat := 5.
Definition SQLITE_RETRY_BASE_DELAY_MS : Z := 120.

Definition isSqliteBusyError (error : js_error) : bool :=
  let code := ToString (js_or (err_code error) (JStr [])) in
  let message := ToString (js_or (err_message error) (JStr [])) in
  bool_decide (code = js "SQLITE_BUSY")
  || bool_decide (code = js "SQLITE_LOCKED")
  || test_search (RLitI "database is locked") message
  || test_search (RLitI "database is busy") message.

(** What an observer of the wrapper sees: the invocations of the operation
    with their outcomes, and the delays. *)
Inductive retry_event (A : Type) : Type :=
| Invoked (attempt : nat) (result : outcome A)
| Slept (ms : Z).
Arguments Invoked {A} attempt result.
Arguments Slept {A} ms.

Section RetryWrapper.
Context {W A : Type}.

(** The wrapped store write, acting on the world [W] (the database and
    whatever else it touches). *)
Variable operation : W → outcome A * W.

(** [await sleep(ms)]: the world moves on while the wrapper waits, other
    requests being served in the meantime. *)
Variable sleep : Z → W → W.

(** The [for] loop.  [remaining] counts the iterations left before the
    condition [attempt <= SQLITE_RETRY_MAX_ATTEMPTS] fails, so the loop
    starts with [remaining = SQLITE_RETRY_MAX_ATTEMPTS] at [attempt = 1];
    at [remaining = 0] control leaves the loop and reaches the [throw]
    that follows it. *)
Fixpoint retry_loop (remaining attempt : nat) (w : W)
    : outcome A * W * list (retry_event A) :=
  match remaining with
  | O => (Thrown (Error "SQLite retry exhausted."), w, [])
  | S remaining' =>
      let '(result, w1) := operation w in
      match result with
      | Returned a => (Returned a, w1, [Invoked attempt result])
      | Thrown error =>
          let shouldRetry :=
            isSqliteBusyError error && (attempt <? SQLITE_RETRY_MAX_ATTEMPTS)%nat in
          if negb shouldRetry then (Thrown error, w1, [Invoked attempt result])
          else
            let delay := SQLITE_RETRY_BASE_DELAY_MS * Z.of_nat attempt in
            let '(final, w2, log) :=
              retry_loop remaining' (S attempt) (sleep delay w1) in
            (final, w2, Invoked attempt result :: Slept delay :: log)
      end
  end.

Definition runWithSqliteRetry (w : W) : outcome A * W * list (retry_event A) :=
  retry_loop SQLITE_RETRY_MAX_ATTEMPTS 1 w.
End RetryWrapper.

(** The observations of [failures] retried one after the other, the first
    of them being attempt number [attempt]. *)
Fixpoint retried {A} (attempt : nat) (failures : list js_error) : list (retry_event A) :=
  match failures with
  | [] => []
  | e :: rest =>
      Invoked attempt (Thrown e)
        :: Slept (SQLITE_RETRY_BASE_DELAY_MS * Z.of_nat attempt)
        :: retried (S attempt) rest
  end.

(** ** Registration store

    The store is the one table [registrations].  A row maps column names to
    SQL values; the schema is the list of the column names, which the
    migration extends.  Columns hold the storage class their declaration in
    [CREATE TABLE] gives them, so storing a value never converts it. *)

Inductive sqlval : Type :=
| SqlNull
| SqlInt (z : Z)
| SqlText (s : jsstring).

#[global] Instance sqlval_eq_dec : EqDecision sqlval.
Proof. solve_decision. Defined.

Record table := {
  columns : list string;
  rows : list (gmap string sqlval)
}.

(** The value of column [c] in row [r]. *)
Definition col (r : gmap string sqlval) (c : string) : sqlval := default SqlNull (r !! c).

(** [a = b] in SQL: NULL ([None]) when an operand is NULL; values of
    different storage classes are not equal. *)
Definition sql_eq (a b : sqlval) : option bool :=
  match a, b with
  | SqlNull, _ | _, SqlNull => None
  | SqlInt x, SqlInt y => Some (x =? y)
  | SqlText s, SqlText t => Some (bool_decide (s = t))
  | _, _ => Some false
  end.

(** [a AND b] in SQL's three-valued logic. *)
Definition sql_and (a b : option bool) : option bool :=
  match a, b with
  | Some false, _ | _, Some false => Some false
  | Some true, Some true => Some true
  | _, _ => None
  end.

(** A [WHERE] or [CASE WHEN] condition selects only when it is true. *)
Definition sql_true (t : option bool) : bool :=
  match t with Some true => true | _ => false end.

Definition COALESCE (a b : sqlval) : sqlval :=
  match a with SqlNull => b | _ => a end.

(** [UPDATE registrations SET ... WHERE ...]: the assignments, computed
    from the old row, on every row the condition selects. *)
Definition sql_update (where_ : gmap string sqlval → bool)
    (set : gmap string sqlval → gmap string sqlval) (db : table) : table :=
  {| columns := columns db;
     rows := (fun r => if where_ r then set r else r) <$> rows db |}.

(** [result.changes]: the number of rows the condition selects. *)
Definition sql_changes (where_ : gmap string sqlval → bool) (db : table) : Z :=
  Z.of_nat (length (filter (fun r => where_ r = true) (rows db))).

(** [WHERE id = ?] *)
Definition id_is (registrationId : jsstring) (r : gmap string sqlval) : bool :=
  sql_true (sql_eq (col r "id") (SqlText registrationId)).

Definition updateRegistrationStatus (db : table) (registrationId status : jsstring)
    : table * Z :=
  (sql_update (id_is registrationId) (fun r => <["status" := SqlText status]> r) db,
   sql_changes (id_is registrationId) db).

Definition anonymizeRegistration (db : table) (registrationId : jsstring) : table * Z :=
  let anonymizedEmail := js "anonymized-" ++ registrationId ++ js "@example.invalid" in
  (sql_update (id_is registrationId)
     (fun r =>
        <["status" := SqlText (js "ANONYMIZED")]>
        (<["full_name" := SqlText (js "ANONYMIZED")]>
        (<["email" := SqlText anonymizedEmail]>
        (<["phone" := SqlText []]>
        (<["date_of_birth" := SqlText []]>
        (<["city" := SqlText []]>
        (<["billing_full_name" := SqlText []]>
        (<["billing_zip" := SqlText []]>
        (<["billing_city" := SqlText []]>
        (<["billing_address" := SqlText []]>
        (<["billing_country" := SqlText []]>
        (<["food_notes" := SqlText []]> r))))))))))))
     db,
   sql_changes (id_is registrationId) db).

(** An error of the database engine, as [node:sqlite] raises it. *)
Definition sqlite_error (message : string) : js_error :=
  {| err_code := JStr (js "ERR_SQLITE_ERROR"); err_message := JStr (js message) |}.

(** The columns declared [NOT NULL] by [CREATE TABLE]. *)
Definition NOT_NULL_COLUMNS : list string :=
  [ "created_at"; "status"; "amount_huf"; "currency"; "full_name"; "email"; "phone";
    "city"; "current_grade"; "current_grade_iaido"; "current_grade_jodo"; "camp_type";
    "meal_plan"; "accommodation"; "wants_exam"; "wants_exam_iaido"; "wants_exam_jodo";
    "billing_full_name"; "billing_zip"; "billing_city"; "billing_address";
    "billing_country"; "price_breakdown"; "privacy_consent"; "terms_consent";
    "privacy_policy_version"; "terms_version"; "privacy_consent_at"; "terms_consent_at" ].

(** [insert.run(...)] of the prepared [INSERT INTO registrations]: the
    statement names columns the table must have, a [NOT NULL] column
    refuses NULL, and the primary key [id] refuses a value another row
    holds; otherwise the row is appended. *)
Definition insert_row (db : table) (values : list (string * sqlval)) : outcome table :=
  let r : gmap string sqlval := list_to_map values in
  if negb (forallb (fun c => bool_decide (c ∈ columns db)) values.*1) then
    Thrown (sqlite_error "table registrations has no such column")
  else if existsb (fun c => bool_decide (col r c = SqlNull)) NOT_NULL_COLUMNS then
    Thrown (sqlite_error "NOT NULL constraint failed")
  else if existsb (fun r' => sql_true (sql_eq (col r' "id") (col r "id"))) (rows db) then
    Thrown (sqlite_error "UNIQUE constraint failed: registrations.id")
  else
    Returned {| columns := columns db; rows := rows db ++ [r] |}.

(** [a || b] on strings. *)
Definition str_or (a b : jsstring) : jsstring :=
  match a with [] => b | _ => a end.

(** [flag ? 1 : 0] *)
Definition sql_flag (flag : bool) : sqlval := SqlInt (if flag then 1 else 0).

(** A number bound to a statement; NaN is bound as NULL. *)
Definition sql_number (n : option Z) : sqlval :=
  match n with Some z => SqlInt z | None => SqlNull end.

(** The double quote character. *)
Definition dquote : jsstring := [34%N].

Definition json_quote (s : jsstring) : jsstring := dquote ++ s ++ dquote.

(** A property of a JSON object: its quoted name, a colon and the value. *)
Definition json_prop (name : string) (value : jsstring) : jsstring :=
  json_quote (js name) ++ js ":" ++ value.

Definition json_number (n : option Z) : jsstring :=
  match n with Some z => decimal z | None => js "null" end.

Definition json_object (props : list jsstring) : jsstring :=
  js "{" ++ join_with (js ",") props ++ js "}".

Definition json_line_item (item : line_item) : jsstring :=
  json_object
    ([ json_prop "key" (json_quote (li_key item));
       json_prop "code" (json_quote (li_code item)) ]
     ++ match li_label item with
        | Some l => [ json_prop "label" (json_quote l) ]
        | None => []
        end
     ++ match li_amountHuf item with
        | Some n => [ json_prop "amountHuf" (decimal n) ]
        | None => []
        end).

(** [JSON.stringify(pricing)].  The strings of a pricing object are codes
    and labels of [PRICE_OPTIONS], which need no escape. *)
Definition JSON_stringify_pricing (p : pricing) : jsstring :=
  json_object
    [ json_prop "selection"
        (json_object
           [ json_prop "campType" (json_quote (sel_campType (pr_selection p)));
             json_prop "mealPlan" (json_quote (sel_mealPlan (pr_selection p)));
             json_prop "accommodation" (json_quote (sel_accommodation (pr_selection p))) ]);
      json_prop "lineItems"
        (js "[" ++ join_with (js ",") (json_line_item <$> lineItems p) ++ js "]");
      json_prop "totalHuf" (json_number (totalHuf p));
      json_prop "currency" (json_quote (currency p)) ].

(** The object the registration endpoint hands to [insertRegistration]:
    the sanitized body and the properties the endpoint adds.  [amountHuf]
    is the total of the pricing, a number or NaN ([None]). *)
Record registration := {
  r_id : jsstring;
  r_createdAt : jsstring;
  r_status : jsstring;
  r_amountHuf : option Z;
  r_currency : jsstring;
  r_priceBreakdown : pricing;
  r_privacyPolicyVersion : jsstring;
  r_termsVersion : jsstring;
  r_privacyConsentAt : jsstring;
  r_termsConsentAt : jsstring;
  r_body : registration_data
}.

(** The object has no [currentGrade] property, so the last alternative of
    [currentGradeLegacy] is the empty string. *)
Definition insertRegistration (db : table) (reg : registration) : outcome table :=
  let body := r_body reg in
  let currentGradeIaido := trim (d_currentGradeIaido body) in
  let currentGradeJodo := trim (d_currentGradeJodo body) in
  let currentGradeLegacy := str_or currentGradeIaido (str_or currentGradeJodo []) in
  let wantsExamCombined := d_wantsExamIaido body || d_wantsExamJodo body in
  let targetGradeCombined :=
    str_or (d_targetGradeIaido body) (str_or (d_targetGradeJodo body) []) in
  insert_row db
    [ ("id", SqlText (r_id reg));
      ("created_at", SqlText (r_createdAt reg));
      ("status", SqlText (r_status reg));
      ("amount_huf", sql_number (r_amountHuf reg));
      ("currency", SqlText (r_currency reg));
      ("full_name", SqlText (d_fullName body));
      ("email", SqlText (d_email body));
      ("phone", SqlText (d_phone body));
      ("date_of_birth", SqlText (d_dateOfBirth body));
      ("city", SqlText (d_city body));
      ("current_grade", SqlText currentGradeLegacy);
      ("current_grade_iaido", SqlText currentGradeIaido);
      ("current_grade_jodo", SqlText currentGradeJodo);
      ("camp_type", SqlText (d_campType body));
      ("meal_plan", SqlText (d_mealPlan body));
      ("accommodation", SqlText (d_accommodation body));
      ("wants_exam", sql_flag wantsExamCombined);
      ("target_grade", SqlText targetGradeCombined);
      ("wants_exam_iaido", sql_flag (d_wantsExamIaido body));
      ("target_grade_iaido", SqlText (d_targetGradeIaido body));
      ("wants_exam_jodo", sql_flag (d_wantsExamJodo body));
      ("target_grade_jodo", SqlText (d_targetGradeJodo body));
      ("billing_full_name", SqlText (d_billingFullName body));
      ("billing_zip", SqlText (d_billingZip body));
      ("billing_city", SqlText (d_billingCity body));
      ("billing_address", SqlText (d_billingAddress body));
      ("billing_country", SqlText (d_billingCountry body));
      ("food_notes", SqlText (d_foodNotes body));
      ("price_breakdown", SqlText (JSON_stringify_pricing (r_priceBreakdown reg)));
      ("privacy_consent", sql_flag (d_privacyConsent body));
      ("terms_consent", sql_flag (d_termsConsent body));
      ("privacy_policy_version", SqlText (str_or (r_privacyPolicyVersion reg) []));
      ("terms_version", SqlText (str_or (r_termsVersion reg) []));
      ("privacy_consent_at", SqlText (str_or (r_privacyConsentAt reg) []));
      ("terms_consent_at", SqlText (str_or (r_termsConsentAt reg) [])) ].

(** ** The requests that write to the store *)

Definition PRIVACY_POLICY_VERSION : jsstring := js "2026-02-26".
Definition TERMS_VERSION : jsstring := js "2026-02-26".

(** What the registration endpoint takes from its environment:
    [randomUUID()] and the three readings of the clock. *)
Record register_env := {
  env_uuid : jsstring;
  env_createdAt : jsstring;
  env_privacyConsentAt : jsstring;
  env_termsConsentAt : jsstring
}.

(** The body of a request as the server receives it: the texts that
    [data += chunk] appends, in order, and how the stream finishes, with
    [end] or with [error]. *)
Inductive request_body : Type :=
| Ended (chunks : list jsstring)
| Failed (chunks : list jsstring).

(** The [data] handler over the chunks: the text received, or [None] once
    it is longer than 1,000,000 code units and the promise is rejected. *)
Fixpoint receive (data : jsstring) (chunks : list jsstring) : option jsstring :=
  match chunks with
  | [] => Some data
  | chunk :: chunks =>
      let data := data ++ chunk in
      if 1000000 <? Z.of_nat (length data) then None else receive data chunks
  end.

(** [await parseJsonBody(req)]: the value the promise resolves with, [None]
    when it is rejected (the body is too large, is no JSON text, or the
    stream fails).  An empty body stands for [{}]. *)
Definition parseJsonBody `{Runtime} (body : request_body) : option jsval :=
  match body with
  | Failed _ => None
  | Ended chunks =>
      data ← receive [] chunks;
      match data with
      | [] => Some (JObj [])
      | _ => JSON_parse data
      end
  end.

Inductive request : Type :=
| PostRegister (env : register_env) (body : request_body)
| PostMarkDeleted (body : request_body)
| PostAnonymize (body : request_body).

(** [String(body.registrationId || '').trim()]; [None] when reading the
    property or [String] raises. *)
Definition registrationId_of (body : jsval) : option jsstring :=
  v ← get_prop body "registrationId";
  trim <$> String_of (js_or v (JStr [])).

(** The effect of a request of an authenticated administrator, or of a
    registrant, on the store.  A request that is answered with an error
    (a rejected body, an error raised on the way, a validation error, an
    insert the table refuses) leaves the store as it is. *)
Definition handle `{Runtime} (rq : request) (db : table) : table :=
  match rq with
  | PostRegister env body =>
      match body ← parseJsonBody body; sanitizePayload body with
      | None => db
      | Some cleanBody =>
          match validateRegistration cleanBody with
          | _ :: _ => db
          | [] =>
              match calculatePricing
                      {| in_campType := JStr (d_campType cleanBody);
                         in_mealPlan := JStr (d_mealPlan cleanBody);
                         in_accommodation := JStr (d_accommodation cleanBody) |} with
              | None => db
              | Some pricing =>
                  let newRegistration :=
                    {| r_id := js "reg_" ++ env_uuid env;
                       r_createdAt := env_createdAt env;
                       r_status := js "PENDING_PAYMENT";
                       r_amountHuf := totalHuf pricing;
                       r_currency := currency pricing;
                       r_priceBreakdown := pricing;
                       r_privacyPolicyVersion := PRIVACY_POLICY_VERSION;
                       r_termsVersion := TERMS_VERSION;
                       r_privacyConsentAt :=
                         if d_privacyConsent cleanBody then env_privacyConsentAt env else [];
                       r_termsConsentAt :=
                         if d_termsConsent cleanBody then env_termsConsentAt env else [];
                       r_body := cleanBody |} in
                  match insertRegistration db newRegistration with
                  | Returned db' => db'
                  | Thrown _ => db
                  end
              end
          end
      end
  | PostMarkDeleted body =>
      match body ← parseJsonBody body; registrationId_of body with
      | None | Some [] => db
      | Some registrationId =>
          (updateRegistrationStatus db registrationId (js "DELETED")).1
      end
  | PostAnonymize body =>
      match body ← parseJsonBody body; registrationId_of body with
      | None | Some [] => db
      | Some registrationId => (anonymizeRegistration db registrationId).1
      end
  end.

(** The store after a sequence of requests, served one after the other. *)
Definition serve `{Runtime} (requests : list request) (db : table) : table :=
  fold_left (fun db rq => handle rq db) requests db.

Definition status_of (r : gmap string sqlval) : sqlval := col r "status".

Definition is_terminal (s : sqlval) : Prop :=
  s = SqlText (js "DELETED") ∨ s = SqlText (js "ANONYMIZED").

(** The columns [anonymizeRegistration] assigns. *)
Definition ANONYMIZED_COLUMNS : list string :=
  [ "status"; "full_name"; "email"; "phone"; "date_of_birth"; "city";
    "billing_full_name"; "billing_zip"; "billing_city"; "billing_address";
    "billing_country"; "food_notes" ].

(** ** Schema migration *)

(** [ALTER TABLE registrations ADD COLUMN c ... DEFAULT d]: the new column
    holds the default in every row. *)
Definition add_column (c : string) (d : sqlval) (db : table) : table :=
  {| columns := columns db ++ [c];
     rows := (fun r => <[c := d]> r) <$> rows db |}.

(** The columns [ensureRegistrationColumns] adds, with their defaults. *)
Definition ADDED_COLUMNS : list (string * sqlval) :=
  [ ("camp_type", SqlText (js "iaido"));
    ("meal_plan", SqlText (js "none"));
    ("accommodation", SqlText (js "none"));
    ("price_breakdown", SqlText (js "{}"));
    ("current_grade_iaido", SqlText []);
    ("current_grade_jodo", SqlText []);
    ("wants_exam_iaido", SqlInt 0);
    ("target_grade_iaido", SqlNull);
    ("wants_exam_jodo", SqlInt 0);
    ("target_grade_jodo", SqlNull);
    ("privacy_policy_version", SqlText []);
    ("terms_version", SqlText []);
    ("privacy_consent_at", SqlText []);
    ("terms_consent_at", SqlText []) ].

(** [if (!columnNames.has(c)) db.exec("ALTER TABLE ... ADD COLUMN c ...")] *)
Definition add_column_if_missing (columnNames : list string) (db : table)
    (column : string * sqlval) : table :=
  if bool_decide (column.1 ∈ columnNames) then db else add_column column.1 column.2 db.

(** [db.exec] of an [UPDATE] that names the columns [used]: the statement
    is refused when the table lacks one of them. *)
Definition exec_update (used : list string) (where_ : gmap string sqlval → bool)
    (set : gmap string sqlval → gmap string sqlval) (db : table) : outcome table :=
  if forallb (fun c => bool_decide (c ∈ columns db)) used then
    Returned (sql_update where_ set db)
  else Thrown (sqlite_error "no such column").

(** [wants_exam = 1] *)
Definition wants_exam_is_1 (r : gmap string sqlval) : option bool :=
  sql_eq (col r "wants_exam") (SqlInt 1).

(** [COALESCE(c, '') = ''] *)
Definition is_blank (r : gmap string sqlval) (c : string) : option bool :=
  sql_eq (COALESCE (col r c) (SqlText [])) (SqlText []).

(** [WHERE wants_exam = 1 AND wants_exam_iaido = 0 AND wants_exam_jodo = 0] *)
Definition backfill_exam_where (r : gmap string sqlval) : bool :=
  sql_true (sql_and (sql_and (wants_exam_is_1 r)
                             (sql_eq (col r "wants_exam_iaido") (SqlInt 0)))
                    (sql_eq (col r "wants_exam_jodo") (SqlInt 0))).

Definition backfill_exam_set (r : gmap string sqlval) : gmap string sqlval :=
  <["wants_exam_iaido" :=
      if sql_true (wants_exam_is_1 r) then SqlInt 1 else col r "wants_exam_iaido"]>
  (<["target_grade_iaido" :=
      if sql_true (sql_and (wants_exam_is_1 r) (is_blank r "target_grade_iaido"))
      then COALESCE (col r "target_grade") (SqlText [])
      else col r "target_grade_iaido"]> r).

(** [WHERE COALESCE(current_grade_iaido, '') = ''] *)
Definition backfill_grade_where (r : gmap string sqlval) : bool :=
  sql_true (is_blank r "current_grade_iaido").

Definition backfill_grade_set (r : gmap string sqlval) : gmap string sqlval :=
  <["current_grade_iaido" :=
      if sql_true (is_blank r "current_grade_iaido")
      then COALESCE (col r "current_grade") (SqlText [])
      else col r "current_grade_iaido"]> r.

(** The store the function leaves, and the error it raises if any: the
    statements are not in a transaction, so what ran before a refused
    statement stays. *)
Definition ensureRegistrationColumns (db : table) : table * option js_error :=
  let columnNames := columns db in
  let db := fold_left (add_column_if_missing columnNames) ADDED_COLUMNS db in
  match exec_update
          [ "wants_exam_iaido"; "wants_exam"; "target_grade_iaido"; "target_grade";
            "wants_exam_jodo" ]
          backfill_exam_where backfill_exam_set db with
  | Thrown e => (db, Some e)
  | Returned db =>
      match exec_update [ "current_grade_iaido"; "current_grade" ]
              backfill_grade_where backfill_grade_set db with
      | Thrown e => (db, Some e)
      | Returned db => (db, None)
      end
  end.

(** What the migration may do to a row [r] of a table with the columns
    [cols], giving [r']: a column the table had keeps its value, except
    that the three backfilled columns may be filled where they were empty
    (exam flag 0, grade NULL or ''). *)
Definition backfill_respects (cols : list string) (r r' : gmap string sqlval) : Prop :=
  (∀ c, c ∈ cols →
        c ∉ ["wants_exam_iaido"; "target_grade_iaido"; "current_grade_iaido"] →
        col r' c = col r c)
  ∧ ("wants_exam_iaido" ∈ cols → col r "wants_exam_iaido" ≠ SqlInt 0 →
       col r' "wants_exam_iaido" = col r "wants_exam_iaido")
  ∧ ("target_grade_iaido" ∈ cols → is_blank r "target_grade_iaido" ≠ Some true →
       col r' "target_grade_iaido" = col r "target_grade_iaido")
  ∧ ("current_grade_iaido" ∈ cols → is_blank r "current_grade_iaido" ≠ Some true →
       col r' "current_grade_iaido" = col r "current_grade_iaido").

(** The yardstick for what the migration writes.  [blank v] is
    [COALESCE(v, '') = '']; [value_before cols r c] is the value the row
    [r] of a table with the columns [cols] has in column [c] before the
    backfill: the value it holds when the table has the column, the
    default of the column when the migration adds it. *)
Definition blank (v : sqlval) : bool :=
  match v with
  | SqlNull | SqlText [] => true
  | _ => false
  end.

Definition column_default (c : string) : sqlval :=
  default SqlNull ((list_to_map ADDED_COLUMNS : gmap string sqlval) !! c).

Definition value_before (cols : list string) (r : gmap string sqlval) (c : string) : sqlval :=
  if bool_decide (c ∈ cols) then col r c else column_default c.

(** ** Legacy import *)

(** The columns both [INSERT INTO registrations] statements name: the
    schema of [CREATE TABLE]. *)
Definition INSERT_COLUMNS : list string :=
  [ "id"; "created_at"; "status"; "amount_huf"; "currency"; "full_name"; "email"; "phone";
    "date_of_birth"; "city"; "current_grade"; "current_grade_iaido"; "current_grade_jodo";
    "camp_type"; "meal_plan"; "accommodation"; "wants_exam"; "target_grade";
    "wants_exam_iaido"; "target_grade_iaido"; "wants_exam_jodo"; "target_grade_jodo";
    "billing_full_name"; "billing_zip"; "billing_city"; "billing_address"; "billing_country";
    "food_notes"; "price_breakdown"; "privacy_consent"; "terms_consent";
    "privacy_policy_version"; "terms_version"; "privacy_consent_at"; "terms_consent_at" ].

(** An object of the legacy array.  A property holds a value of the type
    the registration form gave it; [None] is an absent or [null] property. *)
Record legacy_item := {
  l_id : option jsstring;
  l_createdAt : option jsstring;
  l_status : option jsstring;
  l_amountHuf : option Z;
  l_currency : option jsstring;
  l_fullName : option jsstring;
  l_email : option jsstring;
  l_phone : option jsstring;
  l_dateOfBirth : option jsstring;
  l_city : option jsstring;
  l_currentGrade : option jsstring;
  l_currentGradeIaido : option jsstring;
  l_currentGradeJodo : option jsstring;
  l_campType : option jsstring;
  l_mealPlan : option jsstring;
  l_accommodation : option jsstring;
  l_wantsExam : option bool;
  l_targetGrade : option jsstring;
  l_wantsExamIaido : option bool;
  l_targetGradeIaido : option jsstring;
  l_wantsExamJodo : option bool;
  l_targetGradeJodo : option jsstring;
  l_billingFullName : option jsstring;
  l_billingZip : option jsstring;
  l_billingCity : option jsstring;
  l_billingAddress : option jsstring;
  l_billingCountry : option jsstring;
  l_foodNotes : option jsstring;
  l_privacyConsent : option bool;
  l_termsConsent : option bool;
  l_privacyPolicyVersion : option jsstring;
  l_termsVersion : option jsstring;
  l_privacyConsentAt : option jsstring;
  l_termsConsentAt : option jsstring
}.

(** The legacy file as the import sees it.  An entry of the array is an
    object or [null] ([None]). *)
Inductive legacy_file : Type :=
| LegacyAbsent
| LegacyUnreadable
| LegacyNotArray
| LegacyArray (items : list (option legacy_item)).

(** [String(x || '')] on an optional string. *)
Definition opt_str (x : option jsstring) : jsstring := default [] x.

(** [Boolean(x)] on an optional boolean. *)
Definition opt_bool (x : option bool) : bool := default false x.

(** What the import takes from its environment for an entry:
    [randomUUID()] and [new Date().toISOString()]. *)
Record import_env := { gen_uuid : jsstring; gen_now : jsstring }.

(** The values [insert.run] binds for an entry; [None] when
    [calculatePricing] raises. *)
Definition legacy_values (env : import_env) (item : legacy_item)
    : option (list (string * sqlval)) :=
  pricing ←
    calculatePricing
      {| in_campType := JStr (str_or (opt_str (l_campType item)) (js "iaido"));
         in_mealPlan := JStr (str_or (opt_str (l_mealPlan item)) (js "none"));
         in_accommodation := JStr (str_or (opt_str (l_accommodation item)) (js "none")) |};
  let wantsExamIaido :=
    match l_wantsExamIaido item with
    | Some b => b
    | None => opt_bool (l_wantsExam item)
    end in
  let wantsExamJodo := opt_bool (l_wantsExamJodo item) in
  let currentGradeIaido :=
    str_or (opt_str (l_currentGradeIaido item)) (opt_str (l_currentGrade item)) in
  let currentGradeJodo := opt_str (l_currentGradeJodo item) in
  let currentGradeLegacy := str_or currentGradeIaido currentGradeJodo in
  let targetGradeIaido :=
    if wantsExamIaido
    then str_or (opt_str (l_targetGradeIaido item)) (opt_str (l_targetGrade item))
    else [] in
  let targetGradeJodo := if wantsExamJodo then opt_str (l_targetGradeJodo item) else [] in
  let wantsExamCombined := wantsExamIaido || wantsExamJodo in
  let targetGradeCombined := str_or targetGradeIaido targetGradeJodo in
  Some
  [ ("id", SqlText (str_or (opt_str (l_id item)) (js "reg_" ++ gen_uuid env)));
    ("created_at", SqlText (str_or (opt_str (l_createdAt item)) (gen_now env)));
    ("status", SqlText (str_or (opt_str (l_status item)) (js "PENDING_PAYMENT")));
    ("amount_huf",
     sql_number (match l_amountHuf item with
                 | Some z => if z =? 0 then totalHuf pricing else Some z
                 | None => totalHuf pricing
                 end));
    ("currency", SqlText (str_or (opt_str (l_currency item)) (currency pricing)));
    ("full_name", SqlText (opt_str (l_fullName item)));
    ("email", SqlText (opt_str (l_email item)));
    ("phone", SqlText (opt_str (l_phone item)));
    ("date_of_birth", SqlText (opt_str (l_dateOfBirth item)));
    ("city", SqlText (opt_str (l_city item)));
    ("current_grade", SqlText currentGradeLegacy);
    ("current_grade_iaido", SqlText currentGradeIaido);
    ("current_grade_jodo", SqlText currentGradeJodo);
    ("camp_type", SqlText (sel_campType (pr_selection pricing)));
    ("meal_plan", SqlText (sel_mealPlan (pr_selection pricing)));
    ("accommodation", SqlText (sel_accommodation (pr_selection pricing)));
    ("wants_exam", sql_flag wantsExamCombined);
    ("target_grade", SqlText targetGradeCombined);
    ("wants_exam_iaido", sql_flag wantsExamIaido);
    ("target_grade_iaido", SqlText targetGradeIaido);
    ("wants_exam_jodo", sql_flag wantsExamJodo);
    ("target_grade_jodo", SqlText targetGradeJodo);
    ("billing_full_name", SqlText (opt_str (l_billingFullName item)));
    ("billing_zip", SqlText (opt_str (l_billingZip item)));
    ("billing_city", SqlText (opt_str (l_billingCity item)));
    ("billing_address", SqlText (opt_str (l_billingAddress item)));
    ("billing_country", SqlText (str_or (opt_str (l_billingCountry item)) (js "Hungary")));
    ("food_notes", SqlText (opt_str (l_foodNotes item)));
    ("price_breakdown", SqlText (JSON_stringify_pricing pricing));
    ("privacy_consent", sql_flag (opt_bool (l_privacyConsent item)));
    ("terms_consent", sql_flag (opt_bool (l_termsConsent item)));
    ("privacy_policy_version", SqlText (opt_str (l_privacyPolicyVersion item)));
    ("terms_version", SqlText (opt_str (l_termsVersion item)));
    ("privacy_consent_at", SqlText (opt_str (l_privacyConsentAt item)));
    ("terms_consent_at", SqlText (opt_str (l_termsConsentAt item))) ].

(** The id an entry is stored under: its own, or a generated one. *)
Definition legacy_id (env : import_env) (item : legacy_item) : jsstring :=
  str_or (opt_str (l_id item)) (js "reg_" ++ gen_uuid env).

(** The body of the [for ... of legacy] loop from entry number [n] on;
    reading a property of a [null] entry raises a TypeError. *)
Fixpoint import_items (gen : nat → import_env) (n : nat)
    (legacy : list (option legacy_item)) (db : table) : outcome table :=
  match legacy with
  | [] => Returned db
  | None :: _ => Thrown (Error "Cannot read properties of null")
  | Some item :: rest =>
      match legacy_values (gen n) item with
      | None => Thrown (Error "Cannot convert object to primitive value")
      | Some values =>
          match insert_row db values with
          | Returned db' => import_items gen (S n) rest db'
          | Thrown e => Thrown e
          end
      end
  end.

(** The store the function leaves and the error it raises, if any.
    [db.prepare] of the [INSERT] is refused when the table lacks a column
    it names.  [BEGIN] takes the store as it is, [ROLLBACK] returns to it. *)
Definition migrateLegacyJsonIfNeeded (gen : nat → import_env) (file : legacy_file)
    (db : table) : table * option js_error :=
  match file with
  | LegacyAbsent => (db, None)
  | _ =>
      let totalInDb := length (rows db) in
      if (0 <? totalInDb)%nat then (db, None)
      else
        let legacy :=
          match file with
          | LegacyArray items => items
          | _ => []
          end in
        if (length legacy =? 0)%nat then (db, None)
        else if negb (forallb (fun c => bool_decide (c ∈ columns db)) INSERT_COLUMNS) then
          (db, Some (sqlite_error "table registrations has no such column"))
        else
          match import_items gen 0 legacy db with
          | Returned db' => (db', None)
          | Thrown _ => (db, Some (Error "Legacy JSON migration failed."))
          end
  end.

(** ** Admin session tokens *)

Definition ADMIN_SESSION_TTL_SECONDS : Z := 60 * 60 * 12.

Definition is_ascii (c : N) : Prop := (c < 128)%N.

(** [Buffer.from(s)]: the UTF-8 bytes of a string; a surrogate without
    its pair is encoded as U+FFFD. *)
Fixpoint utf8_encode (s : jsstring) : list N :=
  match s with
  | [] => []
  | c :: rest =>
      if (c <? 128)%N then c :: utf8_encode rest
      else if (c <? 2048)%N then
        (192 + c / 64)%N :: (128 + c mod 64)%N :: utf8_encode rest
      else if ((55296 <=? c) && (c <=? 56319))%N then
        match rest with
        | d :: rest' =>
            if ((56320 <=? d) && (d <=? 57343))%N then
              let cp := (65536 + (c - 55296) * 1024 + (d - 56320))%N in
              (240 + cp / 262144)%N :: (128 + (cp / 4096) mod 64)%N
                :: (128 + (cp / 64) mod 64)%N :: (128 + cp mod 64)%N
                :: utf8_encode rest'
            else 239%N :: 191%N :: 189%N :: utf8_encode rest
        | [] => [239; 191; 189]%N
        end
      else if ((56320 <=? c) && (c <=? 57343))%N then
        239%N :: 191%N :: 189%N :: utf8_encode rest
      else
        (224 + c / 4096)%N :: (128 + (c / 64) mod 64)%N :: (128 + c mod 64)%N
          :: utf8_encode rest
  end.

(** The length test, then [timingSafeEqual] on the two buffers. *)
Definition safeEqualStrings (left right : jsstring) : bool :=
  let leftBuffer := utf8_encode left in
  let rightBuffer := utf8_encode right in
  if negb (length leftBuffer =? length rightBuffer)%nat then false
  else bool_decide (leftBuffer = rightBuffer).

Definition BASE64URL_ALPHABET : jsstring :=
  js "ABCDEFGHIJKLMNOPQRSTUVWXYZabcdefghijklmnopqrstuvwxyz0123456789-_".

Definition base64url_digit (n : N) : N :=
  nth (N.to_nat (n mod 64)) BASE64URL_ALPHABET 65%N.

(** [buffer.toString('base64url')]: three bytes give four digits, without
    padding. *)
Fixpoint base64url (bytes : list N) : jsstring :=
  match bytes with
  | [] => []
  | [a] => [base64url_digit (a / 4); base64url_digit ((a mod 4) * 16)]%N
  | [a; b] =>
      [base64url_digit (a / 4); base64url_digit ((a mod 4) * 16 + b / 16);
       base64url_digit ((b mod 16) * 4)]%N
  | a :: b :: c :: rest =>
      (base64url_digit (a / 4) :: base64url_digit ((a mod 4) * 16 + b / 16)
       :: base64url_digit ((b mod 16) * 4 + c / 64) :: base64url_digit (c mod 64)
       :: base64url rest)%N
  end.

(** [s.split(sep)] for a separator of one character. *)
Fixpoint split_on (sep : N) (s : jsstring) : list jsstring :=
  match s with
  | [] => [[]]
  | c :: rest =>
      if (c =? sep)%N then [] :: split_on sep rest
      else match split_on sep rest with
           | segment :: segments => (c :: segment) :: segments
           | [] => [[c]]
           end
  end.

(** The code unit of the dot. *)
Definition DOT : N := 46%N.

Section AdminSession.
(** The digest bytes of [createHmac('sha256', secret).update(data)]. *)
Variable hmac_sha256 : jsstring → jsstring → list N.

(** [Buffer.from(JSON.stringify({ username, exp })).toString('base64url')] *)
Variable encode_payload : jsstring → Z → jsstring.

(** [JSON.parse(Buffer.from(encodedPayload, 'base64url').toString('utf8'))];
    [None] when [JSON.parse] raises. *)
Variable decode_payload : jsstring → option jsval.

(** The configuration of the server. *)
Variable ADMIN_USERNAME : jsstring.
Variable ADMIN_SESSION_SECRET : jsstring.

Definition signSessionPayload (encodedPayload : jsstring) : jsstring :=
  base64url (hmac_sha256 ADMIN_SESSION_SECRET encodedPayload).

(** [now] is [Date.now()], in milliseconds. *)
Definition buildAdminSessionToken (now : Z) : jsstring :=
  let exp := now / 1000 + ADMIN_SESSION_TTL_SECONDS in
  let encodedPayload := encode_payload ADMIN_USERNAME exp in
  let signature := signSessionPayload encodedPayload in
  encodedPayload ++ [DOT] ++ signature.

(** [token] is the value of the session cookie, [None] without one. *)
Definition verifyAdminSessionToken (now : Z) (token : option jsstring) : bool :=
  match token with
  | None => false
  | Some token =>
      if negb (existsb (N.eqb DOT) token) then false
      else
        match split_on DOT token with
        | encodedPayload :: signature :: rest =>
            if bool_decide (encodedPayload = []) || bool_decide (signature = [])
               || (0 <? length rest)%nat
            then false
            else
              let expected := signSessionPayload encodedPayload in
              if negb (safeEqualStrings signature expected) then false
              else
                match decode_payload encodedPayload with
                | None => false
                | Some payload =>
                    match get_prop payload "username", get_prop payload "exp" with
                    | Some username, Some exp =>
                        if negb (strict_eq_string username ADMIN_USERNAME) then false
                        else
                          match exp with
                          | JNum e => if e <? now / 1000 then false else true
                          | _ => false
                          end
                    | _, _ => false
                    end
                end
        | _ => false
        end
  end.
End AdminSession.

(** ** CSV export *)

(** The code units of the double quote, the comma, LF and CR. *)
Definition QUOTE : N := 34%N.
Definition COMMA : N := 44%N.
Definition LF : N := 10%N.
Definition CR : N := 13%N.

(** The class of the regular expression of [escapeCsvValue]: a double
    quote, a comma, a line feed or a carriage return. *)
Definition csv_special (c : N) : bool :=
  (c =? QUOTE)%N || (c =? COMMA)%N || (c =? LF)%N || (c =? CR)%N.

(** The global [replace] of [escapeCsvValue]: every double quote is
    written twice. *)
Definition double_quotes (s : jsstring) : jsstring :=
  flat_map (fun c => if (c =? QUOTE)%N then [QUOTE; QUOTE] else [c]) s.

Definition escapeCsvValue (value : jsval) : jsstring :=
  let stringValue := ToString (js_nullish value (JStr [])) in
  if test_search (RClass csv_special) stringValue
  then [QUOTE] ++ double_quotes stringValue ++ [QUOTE]
  else stringValue.

(** A registration as [mapRegistrationRow] returns it, as far as the export
    reads it.  The properties copied from a row hold what the row holds. *)
Record mapped_registration := {
  m_id : jsval;
  m_createdAt : jsval;
  m_status : jsval;
  m_fullName : jsval;
  m_email : jsval;
  m_phone : jsval;
  m_city : jsval;
  m_currentGradeIaido : jsval;
  m_currentGradeJodo : jsval;
  m_campType : jsval;
  m_mealPlan : jsval;
  m_accommodation : jsval;
  m_wantsExamIaido : bool;
  m_targetGradeIaido : jsval;
  m_wantsExamJodo : bool;
  m_targetGradeJodo : jsval;
  m_priceBreakdown : jsval;
  m_amountHuf : jsval;
  m_currency : jsval;
  m_billingFullName : jsval;
  m_billingZip : jsval;
  m_billingCity : jsval;
  m_billingAddress : jsval;
  m_billingCountry : jsval;
  m_foodNotes : jsval;
  m_privacyConsent : bool;
  m_termsConsent : bool;
  m_privacyPolicyVersion : jsval;
  m_termsVersion : jsval;
  m_privacyConsentAt : jsval;
  m_termsConsentAt : jsval
}.

Definition CSV_HEADERS : list string :=
  [ "id"; "created_at"; "status"; "full_name"; "email"; "phone"; "city";
    "current_grade_iaido"; "current_grade_jodo"; "camp_type"; "meal_plan"; "accommodation";
    "wants_exam_iaido"; "target_grade_iaido"; "wants_exam_jodo"; "target_grade_jodo";
    "camp_price_eur"; "meal_price_eur"; "accommodation_price_eur"; "amount_eur"; "currency";
    "billing_full_name"; "billing_zip"; "billing_city"; "billing_address"; "billing_country";
    "food_notes"; "privacy_consent"; "terms_consent"; "privacy_policy_version";
    "terms_version"; "privacy_consent_at"; "terms_consent_at" ].

(** [Array.isArray(priceBreakdown?.lineItems) ? priceBreakdown.lineItems : []] *)
Definition line_items_of (priceBreakdown : jsval) : list jsval :=
  match priceBreakdown with
  | JObj props =>
      match assoc (js "lineItems") props with
      | Some (JArr items) => items
      | _ => []
      end
  | _ => []
  end.

(** [lineItems.find((item) => item.key === key)?.amountHuf ?? ''].  The
    outer [None] is the TypeError of reading [key] of a [null] item that
    the search meets. *)
Fixpoint find_amount (key : string) (lineItems : list jsval) : option jsval :=
  match lineItems with
  | [] => Some (JStr [])
  | item :: rest =>
      k ← get_prop item "key";
      if strict_eq_string k (js key)
      then amount ← get_prop item "amountHuf"; Some (js_nullish amount (JStr []))
      else find_amount key rest
  end.

(** [flag ? 'true' : 'false'] *)
Definition bool_cell (flag : bool) : jsval := JStr (js (if flag then "true" else "false")).

(** The array [row] of a registration. *)
Definition csv_row (registration : mapped_registration) : option (list jsval) :=
  let lineItems := line_items_of (m_priceBreakdown registration) in
  campPrice ← find_amount "campType" lineItems;
  mealPrice ← find_amount "mealPlan" lineItems;
  accommodationPrice ← find_amount "accommodation" lineItems;
  Some [ m_id registration; m_createdAt registration; m_status registration;
         m_fullName registration; m_email registration; m_phone registration;
         m_city registration; m_currentGradeIaido registration;
         m_currentGradeJodo registration; m_campType registration;
         m_mealPlan registration; m_accommodation registration;
         bool_cell (m_wantsExamIaido registration); m_targetGradeIaido registration;
         bool_cell (m_wantsExamJodo registration); m_targetGradeJodo registration;
         campPrice; mealPrice; accommodationPrice;
         m_amountHuf registration; m_currency registration;
         m_billingFullName registration; m_billingZip registration;
         m_billingCity registration; m_billingAddress registration;
         m_billingCountry registration; m_foodNotes registration;
         bool_cell (m_privacyConsent registration); bool_cell (m_termsConsent registration);
         m_privacyPolicyVersion registration; m_termsVersion registration;
         m_privacyConsentAt registration; m_termsConsentAt registration ].

(** [row.map(escapeCsvValue).join(',')] *)
Definition csv_line (row : list jsval) : jsstring :=
  join_with [COMMA] (escapeCsvValue <$> row).

(** The byte-order mark U+FEFF. *)
Definition BOM : N := 65279%N.

(** The rows of the registrations, in order; [None] when building one of
    them raises. *)
Definition csv_rows (registrations : list mapped_registration) : option (list (list jsval)) :=
  mapM csv_row registrations.

Definition buildCsvExport (registrations : list mapped_registration) : option jsstring :=
  rows ← csv_rows registrations;
  let csvRows := csv_line ((fun h => JStr (js h)) <$> CSV_HEADERS) :: (csv_line <$> rows) in
  Some ([BOM] ++ join_with [LF] csvRows ++ [LF]).

(** *** The reader of RFC 4180, the reference for the round trip

    A field is plain or enclosed in double quotes; in an enclosed field
    two double quotes stand for one and commas and line breaks are data;
    a comma ends a field and a line break ends a record.  Outside an
    enclosed field a carriage return is part of the line break and is
    skipped. *)
Inductive csv_state : Type :=
| Plain
| Quoted
| AfterQuote.

(** [field] and [record] are the current field and record read so far,
    [records] the complete records. *)
Fixpoint csv_read (state : csv_state) (field : jsstring) (record : list jsstring)
    (records : list (list jsstring)) (input : jsstring) : option (list (list jsstring)) :=
  match input with
  | [] =>
      match state with
      | Quoted => None
      | Plain =>
          match field, record with
          | [], [] => Some records
          | _, _ => Some (records ++ [record ++ [field]])
          end
      | AfterQuote => Some (records ++ [record ++ [field]])
      end
  | c :: rest =>
      match state with
      | Quoted =>
          if (c =? QUOTE)%N then csv_read AfterQuote field record records rest
          else csv_read Quoted (field ++ [c]) record records rest
      | Plain | AfterQuote =>
          if (c =? COMMA)%N then csv_read Plain [] (record ++ [field]) records rest
          else if (c =? LF)%N then csv_read Plain [] [] (records ++ [record ++ [field]]) rest
          else if (c =? CR)%N then csv_read state field record records rest
          else if (c =? QUOTE)%N then
            match state, field with
            | Plain, [] => csv_read Quoted [] record records rest
            | AfterQuote, _ => csv_read Quoted (field ++ [QUOTE]) record records rest
            | _, _ => None
            end
          else
            match state with
            | Plain => csv_read Plain (field ++ [c]) record records rest
            | _ => None
            end
      end
  end.

Definition parse_csv (input : jsstring) : option (list (list jsstring)) :=
  csv_read Plain [] [] [] input.

(** The text of a cell: [String(value ?? '')]. *)
Definition csv_text (value : jsval) : jsstring := ToString (js_nullish value (JStr [])).

(** The texts of the cells of a row. *)
Definition csv_texts (row : list jsval) : list jsstring := csv_text <$> row.

(* ===================================================================== *)
(** * Part I, continued: invariants of the store, the reader, the
      statistics and the notification texts                               *)
(* ===================================================================== *)

(** ** Store invariants *)

(** No two rows hold the same id: what [id TEXT PRIMARY KEY] guarantees.
    Two ids are the same when [=] of SQL says so. *)
Definition unique_ids (db : table) : Prop :=
  ∀ i j r1 r2,
    rows db !! i = Some r1 → rows db !! j = Some r2 →
    sql_true (sql_eq (col r1 "id") (col r2 "id")) = true → i = j.


(** ** Reading the store *)

(** A value of a row object, as the driver hands a stored value over. *)
Definition to_js (v : sqlval) : jsval :=
  match v with
  | SqlNull => JNull
  | SqlInt z => JNum z
  | SqlText s => JStr s
  end.

(** The row object of a stored row, as the function that reads its
    properties: [row.c] is [undefined] for a column the table lacks. *)
Definition row_object (r : gmap string sqlval) : string → jsval :=
  fun c =>
    match r !! c with
    | Some v => to_js v
    | None => JUndefined
    end.

(** The row object of the row that an insert of [values] stores, read
    from the values. *)
Fixpoint inserted_object (values : list (string * sqlval)) (c : string) : jsval :=
  match values with
  | [] => JUndefined
  | (k, v) :: rest => if String.eqb k c then to_js v else inserted_object rest c
  end.

(** [v === n] for a number literal [n]. *)
Definition strict_eq_number (v : jsval) (n : Z) : bool :=
  match v with
  | JNum z => z =? n
  | _ => false
  end.

(** The object [mapRegistrationRow] returns: the properties the export
    reads, and the four it does not read. *)
Record registration_view := {
  exported : mapped_registration;
  m_dateOfBirth : jsval;
  m_currentGrade : jsval;
  m_wantsExam : bool;
  m_targetGrade : jsval
}.

Section Reader.

(** [JSON.parse] on the text of a value; [None] is the SyntaxError. *)
Variable JSON_parse : jsstring → option jsval.

Definition mapRegistrationRow (row : string → jsval) : registration_view :=
  let priceBreakdown :=
    match JSON_parse (ToString (js_or (row "price_breakdown") (JStr (js "{}")))) with
    | Some value => value
    | None => JNull
    end in
  let currentGradeIaido :=
    js_or (js_or (row "current_grade_iaido") (row "current_grade"))
      (JStr []) in
  let currentGradeJodo := js_or (row "current_grade_jodo") (JStr []) in
  let wantsExamIaido :=
    strict_eq_number (row "wants_exam_iaido") 1
    || (strict_eq_number (row "wants_exam") 1
        && negb (strict_eq_number (row "wants_exam_jodo") 1)) in
  let wantsExamJodo := strict_eq_number (row "wants_exam_jodo") 1 in
  let targetGradeIaido :=
    if wantsExamIaido
    then js_or (js_or (row "target_grade_iaido") (row "target_grade"))
           (JStr [])
    else js_or (row "target_grade_iaido") (JStr []) in
  let targetGradeJodo :=
    if wantsExamJodo
    then js_or (row "target_grade_jodo") (JStr [])
    else js_or (row "target_grade_jodo") (JStr []) in
  {| exported := {|
       m_id := row "id";
       m_createdAt := row "created_at";
       m_status := row "status";
       m_fullName := row "full_name";
       m_email := row "email";
       m_phone := row "phone";
       m_city := row "city";
       m_currentGradeIaido := currentGradeIaido;
       m_currentGradeJodo := currentGradeJodo;
       m_campType := js_or (row "camp_type") (JStr (js "iaido"));
       m_mealPlan := js_or (row "meal_plan") (JStr (js "none"));
       m_accommodation := js_or (row "accommodation") (JStr (js "none"));
       m_wantsExamIaido := wantsExamIaido;
       m_targetGradeIaido := targetGradeIaido;
       m_wantsExamJodo := wantsExamJodo;
       m_targetGradeJodo := targetGradeJodo;
       m_priceBreakdown := priceBreakdown;
       m_amountHuf := row "amount_huf";
       m_currency := row "currency";
       m_billingFullName := row "billing_full_name";
       m_billingZip := row "billing_zip";
       m_billingCity := row "billing_city";
       m_billingAddress := row "billing_address";
       m_billingCountry := row "billing_country";
       m_foodNotes := js_or (row "food_notes") (JStr []);
       m_privacyConsent := strict_eq_number (row "privacy_consent") 1;
       m_termsConsent := strict_eq_number (row "terms_consent") 1;
       m_privacyPolicyVersion := js_or (row "privacy_policy_version") (JStr []);
       m_termsVersion := js_or (row "terms_version") (JStr []);
       m_privacyConsentAt := js_or (row "privacy_consent_at") (JStr []);
       m_termsConsentAt := js_or (row "terms_consent_at") (JStr [])
     |};
     m_dateOfBirth := js_or (row "date_of_birth") (JStr []);
     m_currentGrade :=
       js_or (js_or (js_or currentGradeIaido currentGradeJodo) (row "current_grade"))
         (JStr []);
     m_wantsExam :=
       wantsExamIaido || wantsExamJodo || strict_eq_number (row "wants_exam") 1;
     m_targetGrade :=
       js_or (js_or (js_or targetGradeIaido targetGradeJodo) (row "target_grade"))
         (JStr [])
  |}.

(** The registrations of the table, in the order of the table.
    [readRegistrations] returns them sorted by the time of creation. *)
Definition mapped_rows (db : table) : list registration_view :=
  (fun r => mapRegistrationRow (row_object r)) <$> rows db.

End Reader.

(** A table whose rows hold values for columns of the table only. *)
Definition rows_within_columns (db : table) : Prop :=
  ∀ r c, r ∈ rows db → c ∉ columns db → r !! c = None.

(** ** Statistics *)

(** The names an object literal inherits from [Object.prototype]. *)
Definition OBJECT_PROTOTYPE_KEYS : list jsstring :=
  [ js "constructor"; js "__defineGetter__"; js "__defineSetter__"; js "hasOwnProperty";
    js "__lookupGetter__"; js "__lookupSetter__"; js "isPrototypeOf";
    js "propertyIsEnumerable"; js "toString"; js "valueOf"; js "__proto__";
    js "toLocaleString" ].

(** What reading a property of a counting accumulator gives: a number, a
    string, or a member of [Object.prototype]. *)
Inductive acc_value : Type :=
| Count (n : Z)
| Text (s : jsstring)
| Member (name : jsstring).

(** The fields of the object [getStats] returns.  A count is the length
    of an array; the revenue is a number or NaN ([None]). *)
Record stats := {
  s_total : Z;
  s_deletedCount : Z;
  s_anonymizedCount : Z;
  s_wantsExamIaido : Z;
  s_wantsExamJodo : Z;
  s_wantsExamTotal : Z;
  s_pendingPayment : Z;
  s_paid : Z;
  s_projectedRevenueHuf : option Z;
  s_byCampType : gmap jsstring acc_value;
  s_iaidoApplicants : acc_value;
  s_jodoApplicants : acc_value;
  s_byCurrentGrade : gmap jsstring acc_value;
  s_byCurrentGradeIaido : gmap jsstring acc_value;
  s_byCurrentGradeJodo : gmap jsstring acc_value;
  s_byTargetGradeIaido : gmap jsstring acc_value;
  s_byTargetGradeJodo : gmap jsstring acc_value;
  s_lastRegistrationAt : jsval
}.

(** [array.filter(f).length] *)
Definition count_if {A} (f : A → bool) (l : list A) : Z :=
  Z.of_nat (length (List.filter f l)).

Section Statistics.

(** [Number(s)] on a string; [None] is NaN. *)
Variable StringToNumber : jsstring → option Z.

(** [String(m)] for a member [m] of [Object.prototype], by its name. *)
Variable native_text : jsstring → jsstring.

(** [Number(v)] *)
Definition ToNumber (v : jsval) : option Z :=
  match v with
  | JUndefined => None
  | JNull => Some 0
  | JBool b => Some (if b then 1 else 0)
  | JNum z => Some z
  | JStr s => StringToNumber s
  | JArr _ | JObj _ => StringToNumber (ToString v)
  end.

Definition acc_truthy (v : acc_value) : bool :=
  match v with
  | Count n => negb (n =? 0)
  | Text s => match s with [] => false | _ => true end
  | Member _ => true
  end.

Definition acc_text (v : acc_value) : jsstring :=
  match v with
  | Count n => decimal n
  | Text s => s
  | Member name => native_text name
  end.

(** [acc[k]]: an own property, or a member of [Object.prototype], or
    [undefined]. *)
Definition acc_get (acc : gmap jsstring acc_value) (k : jsstring) : option acc_value :=
  match acc !! k with
  | Some v => Some v
  | None => if bool_decide (k ∈ OBJECT_PROTOTYPE_KEYS) then Some (Member k) else None
  end.

(** [v || 0] *)
Definition or_zero (v : option acc_value) : acc_value :=
  match v with
  | Some x => if acc_truthy x then x else Count 0
  | None => Count 0
  end.

(** [a + b]: the sum of two numbers, the concatenation otherwise. *)
Definition acc_plus (a b : acc_value) : acc_value :=
  match a, b with
  | Count x, Count y => Count (x + y)
  | _, _ => Text (acc_text a ++ acc_text b)
  end.

(** [acc[key] = (acc[key] || 0) + 1].  The assignment to [__proto__]
    reaches the setter of [Object.prototype], which ignores a value that
    is not an object. *)
Definition acc_bump (acc : gmap jsstring acc_value) (key : jsval) : gmap jsstring acc_value :=
  let k := ToString key in
  let value := acc_plus (or_zero (acc_get acc k)) (Count 1) in
  if bool_decide (k = js "__proto__") then acc else <[k := value]> acc.

(** [keys.reduce((acc, key) => { acc[key] = (acc[key] || 0) + 1; return acc; }, {})] *)
Definition histogram (keys : list jsval) : gmap jsstring acc_value :=
  fold_left acc_bump keys ∅.

Definition is_active (r : registration_view) : bool :=
  negb (strict_eq_string (m_status (exported r)) (js "DELETED"))
  && negb (strict_eq_string (m_status (exported r)) (js "ANONYMIZED")).

Definition getStats (registrations : list registration_view) : stats :=
  let activeRegistrations := List.filter is_active registrations in
  let deletedCount :=
    count_if (fun r => strict_eq_string (m_status (exported r)) (js "DELETED")) registrations in
  let anonymizedCount :=
    count_if (fun r => strict_eq_string (m_status (exported r)) (js "ANONYMIZED"))
      registrations in
  let total := Z.of_nat (length activeRegistrations) in
  let wantsExamIaido :=
    count_if (fun r => m_wantsExamIaido (exported r)) activeRegistrations in
  let wantsExamJodo :=
    count_if (fun r => m_wantsExamJodo (exported r)) activeRegistrations in
  let wantsExamTotal :=
    count_if (fun r => m_wantsExamIaido (exported r) || m_wantsExamJodo (exported r))
      activeRegistrations in
  let pendingPayment :=
    count_if (fun r => strict_eq_string (m_status (exported r)) (js "PENDING_PAYMENT"))
      activeRegistrations in
  let paid :=
    count_if (fun r => strict_eq_string (m_status (exported r)) (js "PAID"))
      activeRegistrations in
  let projectedRevenueHuf :=
    fold_left (fun sum current =>
                 num_add sum (ToNumber (js_or (m_amountHuf (exported current)) (JNum 0))))
      activeRegistrations (Some 0) in
  let byCampType :=
    histogram ((fun r => m_campType (exported r)) <$> activeRegistrations) in
  let iaidoApplicants :=
    acc_plus (or_zero (acc_get byCampType (js "iaido")))
      (or_zero (acc_get byCampType (js "both"))) in
  let jodoApplicants :=
    acc_plus (or_zero (acc_get byCampType (js "jodo")))
      (or_zero (acc_get byCampType (js "both"))) in
  let byCurrentGradeIaido :=
    histogram
      ((fun r => m_currentGradeIaido (exported r))
       <$> List.filter (fun r => ToBoolean (m_currentGradeIaido (exported r)))
             activeRegistrations) in
  let byCurrentGradeJodo :=
    histogram
      ((fun r => m_currentGradeJodo (exported r))
       <$> List.filter (fun r => ToBoolean (m_currentGradeJodo (exported r)))
             activeRegistrations) in
  let byCurrentGrade := byCurrentGradeIaido in
  let byTargetGradeIaido :=
    histogram
      ((fun r => m_targetGradeIaido (exported r))
       <$> List.filter (fun r => m_wantsExamIaido (exported r)
                                 && ToBoolean (m_targetGradeIaido (exported r)))
             activeRegistrations) in
  let byTargetGradeJodo :=
    histogram
      ((fun r => m_targetGradeJodo (exported r))
       <$> List.filter (fun r => m_wantsExamJodo (exported r)
                                 && ToBoolean (m_targetGradeJodo (exported r)))
             activeRegistrations) in
  let lastRegistrationAt :=
    match last activeRegistrations with
    | Some r => m_createdAt (exported r)
    | None => JNull
    end in
  {| s_total := total;
     s_deletedCount := deletedCount;
     s_anonymizedCount := anonymizedCount;
     s_wantsExamIaido := wantsExamIaido;
     s_wantsExamJodo := wantsExamJodo;
     s_wantsExamTotal := wantsExamTotal;
     s_pendingPayment := pendingPayment;
     s_paid := paid;
     s_projectedRevenueHuf := projectedRevenueHuf;
     s_byCampType := byCampType;
     s_iaidoApplicants := iaidoApplicants;
     s_jodoApplicants := jodoApplicants;
     s_byCurrentGrade := byCurrentGrade;
     s_byCurrentGradeIaido := byCurrentGradeIaido;
     s_byCurrentGradeJodo := byCurrentGradeJodo;
     s_byTargetGradeIaido := byTargetGradeIaido;
     s_byTargetGradeJodo := byTargetGradeJodo;
     s_lastRegistrationAt := lastRegistrationAt |}.

End Statistics.

(** ** Notification texts *)

(** [s.replace(/c/g, replacement)] for a pattern of one character [c]. *)
Definition replace_all (c : string) (replacement : string) (s : jsstring) : jsstring :=
  flat_map (fun x => if bool_decide ([x] = js c) then js replacement else [x]) s.

Definition escapeHtml (value : jsval) : jsstring :=
  replace_all "'" "&#39;"
    (replace_all (String (Ascii.ascii_of_nat 34) EmptyString) "&quot;"
       (replace_all ">" "&gt;"
          (replace_all "<" "&lt;"
             (replace_all "&" "&amp;" (ToString (js_nullish value (JStr []))))))).

(** The characters with a meaning in HTML text and attribute values. *)
Definition html_special (c : N) : bool :=
  bool_decide (c ∈ [38; 60; 62; 34; 39]%N).

(** The entity [escapeHtml] writes for a character, or the character. *)
Definition html_entity (c : N) : jsstring :=
  if bool_decide (c = 38%N) then js "&amp;"
  else if bool_decide (c = 60%N) then js "&lt;"
  else if bool_decide (c = 62%N) then js "&gt;"
  else if bool_decide (c = 34%N) then js "&quot;"
  else if bool_decide (c = 39%N) then js "&#39;"
  else [c].

(** ** What an observer of the retry wrapper can add up *)

(** The number of times the operation was invoked. *)
Definition invocations {A} (log : list (retry_event A)) : nat :=
  length (List.filter (fun ev => match ev with Invoked _ _ => true | Slept _ => false end) log).

(** The time spent in [sleep], in milliseconds. *)
Definition total_delay {A} (log : list (retry_event A)) : Z :=
  fold_right (fun ev rest => match ev with Slept ms => ms + rest | Invoked _ _ => rest end)
    0 log.

(** ** Session cookie and login *)

Definition ADMIN_SESSION_COOKIE : jsstring := js "admin_session".

(** The characters [encodeURIComponent] leaves as they are. *)
Definition uri_unreserved (c : N) : bool :=
  ((65 <=? c) && (c <=? 90))%N || ((97 <=? c) && (c <=? 122))%N
  || ((48 <=? c) && (c <=? 57))%N || bool_decide (c ∈ js "-_.!~*'()").

Definition hex_digit (n : N) : N :=
  nth (N.to_nat (n mod 16)) (js "0123456789ABCDEF") 48%N.

(** [%XX] for a byte. *)
Definition percent_byte (b : N) : jsstring := [37%N; hex_digit (b / 16); hex_digit b].

(** [encodeURIComponent(s)]: the UTF-8 bytes of every other character,
    each as [%XX]; [None] is the URIError for a surrogate without its
    pair. *)
Fixpoint encodeURIComponent (s : jsstring) : option jsstring :=
  match s with
  | [] => Some []
  | c :: rest =>
      if uri_unreserved c then cons c <$> encodeURIComponent rest
      else if ((55296 <=? c) && (c <=? 56319))%N then
        match rest with
        | d :: rest' =>
            if ((56320 <=? d) && (d <=? 57343))%N
            then app (flat_map percent_byte (utf8_encode [c; d])) <$> encodeURIComponent rest'
            else None
        | [] => None
        end
      else if ((56320 <=? c) && (c <=? 57343))%N then None
      else app (flat_map percent_byte (utf8_encode [c])) <$> encodeURIComponent rest
  end.

(** The value of the [Set-Cookie] header that [setAdminSessionCookie]
    adds.  [production] is [process.env.NODE_ENV === 'production']. *)
Definition setAdminSessionCookie (production : bool) (token : jsstring) (maxAgeSeconds : Z)
    : option jsstring :=
  encoded ← encodeURIComponent token;
  let parts :=
    [ ADMIN_SESSION_COOKIE ++ js "=" ++ encoded; js "Path=/"; js "HttpOnly";
      js "SameSite=Lax"; js "Max-Age=" ++ decimal maxAgeSeconds ] in
  let parts := if production then parts ++ [js "Secure"] else parts in
  Some (join_with (js "; ") parts).

Definition clearAdminSessionCookie (production : bool) : jsstring :=
  let parts :=
    [ ADMIN_SESSION_COOKIE ++ js "="; js "Path=/"; js "HttpOnly"; js "SameSite=Lax";
      js "Max-Age=0" ] in
  let parts := if production then parts ++ [js "Secure"] else parts in
  join_with (js "; ") parts.

Section SessionCookie.

Variable hmac_sha256 : jsstring → jsstring → list N.
Variable encode_payload : jsstring → Z → jsstring.
Variable decode_payload : jsstring → option jsval.

(** [decodeURIComponent(s)]; [None] is the URIError for a malformed
    escape sequence. *)
Variable decodeURIComponent : jsstring → option jsstring.

(** The configuration of the server. *)
Variable ADMIN_USERNAME : jsstring.
Variable ADMIN_PASSWORD : jsstring.
Variable ADMIN_SESSION_SECRET : jsstring.
Variable production : bool.

(** The callback of [reduce] in [parseCookies].  The accumulator holds
    the own properties of the object; an assignment to [__proto__] with a
    string creates none. *)
Definition parse_cookie_part (acc : gmap jsstring jsstring) (part : jsstring)
    : option (gmap jsstring jsstring) :=
  match split_on 61%N (trim part) with
  | [] => Some acc
  | rawKey :: valueParts =>
      if bool_decide (rawKey = []) then Some acc
      else
        value ← decodeURIComponent (str_or (join_with (js "=") valueParts) []);
        Some (if bool_decide (rawKey = js "__proto__") then acc
              else <[rawKey := value]> acc)
  end.

(** [header] is [req.headers.cookie], [None] without the header; the
    result is [None] when [decodeURIComponent] raises. *)
Definition parseCookies (header : option jsstring) : option (gmap jsstring jsstring) :=
  match header with
  | None | Some [] => Some ∅
  | Some header =>
      fold_left (fun acc part => acc ← acc; parse_cookie_part acc part)
        (split_on 59%N header) (Some ∅)
  end.

(** [cookies[ADMIN_SESSION_COOKIE]] is an own property of the parsed
    object or [undefined]: [Object.prototype] has no such name. *)
Definition isAdminAuthenticated (now : Z) (header : option jsstring) : option bool :=
  cookies ← parseCookies header;
  Some (verifyAdminSessionToken hmac_sha256 decode_payload ADMIN_USERNAME
          ADMIN_SESSION_SECRET now (cookies !! ADMIN_SESSION_COOKIE)).

(** The answer of [POST /api/admin/login]: the status and the
    [Set-Cookie] header, if any.  [body] is what [parseJsonBody] resolved
    to, [None] when it rejected; an error raised on the way (by reading a
    property, by [String], by [encodeURIComponent]) is answered with 400. *)
Definition login (now : Z) (body : option jsval) : Z * option jsstring :=
  match body with
  | None => (400, None)
  | Some body =>
      match u ← get_prop body "username"; String_of (js_or u (JStr [])),
            p ← get_prop body "password"; String_of (js_or p (JStr [])) with
      | Some username, Some password =>
          let username := trim username in
          if negb (safeEqualStrings username ADMIN_USERNAME)
             || negb (safeEqualStrings password ADMIN_PASSWORD)
          then (401, None)
          else
            let token :=
              buildAdminSessionToken hmac_sha256 encode_payload ADMIN_USERNAME
                ADMIN_SESSION_SECRET now in
            match setAdminSessionCookie production token ADMIN_SESSION_TTL_SECONDS with
            | Some cookie => (200, Some cookie)
            | None => (400, None)
            end
      | _, _ => (400, None)
      end
  end.

End SessionCookie.

(** ** Start of the server *)

(** [initDatabase]: [stored] is the table the database file holds,
    [None] when it holds none and [CREATE TABLE IF NOT EXISTS] creates it.
    The pragmas and the two indexes do not touch the rows.  The result is
    the table the function leaves and the error it raises, if any. *)
Definition initDatabase (gen : nat → import_env) (legacy : legacy_file)
    (stored : option table) : table * option js_error :=
  let db :=
    match stored with
    | Some db => db
    | None => {| columns := INSERT_COLUMNS; rows := [] |}
    end in
  match ensureRegistrationColumns db with
  | (db, Some e) => (db, Some e)
  | (db, None) => migrateLegacyJsonIfNeeded gen legacy db
  end.
(** ** Concrete inputs used by the examples *)

(** The second end-to-end scenario of the specification: camp type 'jodo'
    with the Iaido exam selected. *)
Definition jodo_with_iaido_exam : jsval :=
  JObj [ (js "fullName", JStr (js "Kovacs Anna"));
         (js "email", JStr (js "Anna@Example.org"));
         (js "phone", JStr (js "+36 30 123 4567"));
         (js "city", JStr (js "Budapest"));
         (js "campType", JStr (js "jodo"));
         (js "currentGradeJodo", JStr (js "1 dan"));
         (js "currentGradeIaido", JStr (js "2 dan"));
         (js "wantsExamIaido", JBool true);
         (js "targetGradeIaido", JStr (js "3 dan"));
         (js "billingFullName", JStr (js "Kovacs Anna"));
         (js "billingZip", JStr (js "1111"));
         (js "billingCity", JStr (js "Budapest"));
         (js "billingAddress", JStr (js "Fo utca 1."));
         (js "privacyConsent", JBool true);
         (js "termsConsent", JBool true) ].


(** The error of a locked database, as [node:sqlite] raises it. *)
Definition database_is_locked : js_error :=
  {| err_code := JStr (js "ERR_SQLITE_ERROR"); err_message := JStr (js "database is locked") |}.

Definition constraint_failed : js_error :=
  {| err_code := JStr (js "ERR_SQLITE_ERROR");
     err_message := JStr (js "UNIQUE constraint failed: registrations.id") |}.

(** A write that finds the database locked every time; the world counts
    the invocations. *)
Definition always_locked (w : nat) : outcome Z * nat := (Thrown database_is_locked, S w).

(** A write that finds the database locked twice and then changes one row. *)
Definition locked_twice (w : nat) : outcome Z * nat :=
  if (w <? 2)%nat then (Thrown database_is_locked, S w) else (Returned 1, S w).

Definition violates_constraint (w : nat) : outcome Z * nat := (Thrown constraint_failed, S w).

Definition no_interference (ms : Z) (w : nat) : nat := w.

(** A store of the current schema with one registration, marked deleted. *)
Definition deleted_row : gmap string sqlval :=
  list_to_map
    [ ("id", SqlText (js "reg_1")); ("created_at", SqlText (js "2026-03-01T10:00:00.000Z"));
      ("status", SqlText (js "DELETED")); ("amount_huf", SqlInt 149);
      ("currency", SqlText (js "EUR")); ("full_name", SqlText (js "Kovacs Anna"));
      ("email", SqlText (js "anna@example.org")); ("phone", SqlText (js "+36 30 123 4567"));
      ("date_of_birth", SqlText []); ("city", SqlText (js "Budapest"));
      ("current_grade", SqlText (js "2 dan")); ("current_grade_iaido", SqlText (js "2 dan"));
      ("current_grade_jodo", SqlText []); ("camp_type", SqlText (js "iaido"));
      ("meal_plan", SqlText (js "none")); ("accommodation", SqlText (js "none"));
      ("wants_exam", SqlInt 0); ("target_grade", SqlText []);
      ("wants_exam_iaido", SqlInt 0); ("target_grade_iaido", SqlText []);
      ("wants_exam_jodo", SqlInt 0); ("target_grade_jodo", SqlText []);
      ("billing_full_name", SqlText (js "Kovacs Anna")); ("billing_zip", SqlText (js "1111"));
      ("billing_city", SqlText (js "Budapest")); ("billing_address", SqlText (js "Fo utca 1."));
      ("billing_country", SqlText (js "Hungary")); ("food_notes", SqlText []);
      ("price_breakdown", SqlText (js "{}")); ("privacy_consent", SqlInt 1);
      ("terms_consent", SqlInt 1); ("privacy_policy_version", SqlText (js "2026-02-26"));
      ("terms_version", SqlText (js "2026-02-26"));
      ("privacy_consent_at", SqlText (js "2026-03-01T10:00:00.000Z"));
      ("terms_consent_at", SqlText (js "2026-03-01T10:00:00.000Z")) ].

Definition store_with_deleted : table :=
  {| columns := INSERT_COLUMNS; rows := [deleted_row] |}.

Definition request_for (registrationId : string) : jsval :=
  JObj [ (js "registrationId", JStr (js registrationId)) ].

Definition sample_env : register_env :=
  {| env_uuid := js "0b0e8a3e-5d0c-4a57-9d0a-7f1f4f1f2a10";
     env_createdAt := js "2026-03-02T09:00:00.000Z";
     env_privacyConsentAt := js "2026-03-02T09:00:00.001Z";
     env_termsConsentAt := js "2026-03-02T09:00:00.001Z" |}.

Definition valid_body : jsval :=
  JObj [ (js "fullName", JStr (js "Nagy Peter"));
         (js "email", JStr (js "peter@example.org"));
         (js "phone", JStr (js "+36 20 555 1234"));
         (js "city", JStr (js "Szeged"));
         (js "campType", JStr (js "both"));
         (js "currentGradeJodo", JStr (js "1 dan"));
         (js "currentGradeIaido", JStr (js "4 dan"));
         (js "wantsExamIaido", JBool true);
         (js "targetGradeIaido", JStr (js "5th dan"));
         (js "wantsExamJodo", JBool false);
         (js "billingFullName", JStr (js "Nagy Peter"));
         (js "billingZip", JStr (js "6720"));
         (js "billingCity", JStr (js "Szeged"));
         (js "billingAddress", JStr (js "Kossuth ter 2."));
         (js "privacyConsent", JBool true);
         (js "termsConsent", JBool true) ].

(** A store created by the first version of the schema, before the
    per-discipline columns existed: one registration with the combined
    exam fields set, one without exam. *)
Definition old_columns : list string :=
  [ "id"; "created_at"; "status"; "amount_huf"; "currency"; "full_name"; "email"; "phone";
    "date_of_birth"; "city"; "current_grade"; "camp_type"; "meal_plan"; "accommodation";
    "wants_exam"; "target_grade"; "billing_full_name"; "billing_zip"; "billing_city";
    "billing_address"; "billing_country"; "food_notes"; "price_breakdown";
    "privacy_consent"; "terms_consent" ].

Definition old_row (id grade target : string) (wants_exam : Z) : gmap string sqlval :=
  list_to_map
    [ ("id", SqlText (js id)); ("created_at", SqlText (js "2026-01-15T08:00:00.000Z"));
      ("status", SqlText (js "PENDING_PAYMENT")); ("amount_huf", SqlInt 149);
      ("currency", SqlText (js "EUR")); ("full_name", SqlText (js "Toth Eva"));
      ("email", SqlText (js "eva@example.org")); ("phone", SqlText (js "+36 70 111 2222"));
      ("date_of_birth", SqlNull); ("city", SqlText (js "Pecs"));
      ("current_grade", SqlText (js grade)); ("camp_type", SqlText (js "iaido"));
      ("meal_plan", SqlText (js "none")); ("accommodation", SqlText (js "none"));
      ("wants_exam", SqlInt wants_exam); ("target_grade", SqlText (js target));
      ("billing_full_name", SqlText (js "Toth Eva")); ("billing_zip", SqlText (js "7621"));
      ("billing_city", SqlText (js "Pecs")); ("billing_address", SqlText (js "Fo ter 3."));
      ("billing_country", SqlText (js "Hungary")); ("food_notes", SqlNull);
      ("price_breakdown", SqlText (js "{}")); ("privacy_consent", SqlInt 1);
      ("terms_consent", SqlInt 1) ].

Definition old_store : table :=
  {| columns := old_columns;
     rows := [ old_row "reg_a" "1 dan" "2 dan" 1; old_row "reg_b" "3 kyu" "" 0 ] |}.

(** Entries of a legacy file. *)
Definition empty_item : legacy_item :=
  {| l_id := None; l_createdAt := None; l_status := None; l_amountHuf := None;
     l_currency := None; l_fullName := None; l_email := None; l_phone := None;
     l_dateOfBirth := None; l_city := None; l_currentGrade := None;
     l_currentGradeIaido := None; l_currentGradeJodo := None; l_campType := None;
     l_mealPlan := None; l_accommodation := None; l_wantsExam := None;
     l_targetGrade := None; l_wantsExamIaido := None; l_targetGradeIaido := None;
     l_wantsExamJodo := None; l_targetGradeJodo := None; l_billingFullName := None;
     l_billingZip := None; l_billingCity := None; l_billingAddress := None;
     l_billingCountry := None; l_foodNotes := None; l_privacyConsent := None;
     l_termsConsent := None; l_privacyPolicyVersion := None; l_termsVersion := None;
     l_privacyConsentAt := None; l_termsConsentAt := None |}.

(** An entry with the old combined grade and exam fields only. *)
Definition legacy_entry (id grade target : string) : legacy_item :=
  {| l_id := Some (js id); l_createdAt := Some (js "2025-06-01T12:00:00.000Z");
     l_status := Some (js "PAID"); l_amountHuf := Some 149;
     l_currency := None; l_fullName := Some (js "Szabo Bela");
     l_email := Some (js "bela@example.org"); l_phone := Some (js "+36 1 234 5678");
     l_dateOfBirth := None; l_city := Some (js "Gyor");
     l_currentGrade := Some (js grade);
     l_currentGradeIaido := None; l_currentGradeJodo := None; l_campType := None;
     l_mealPlan := None; l_accommodation := None; l_wantsExam := Some true;
     l_targetGrade := Some (js target); l_wantsExamIaido := None;
     l_targetGradeIaido := None; l_wantsExamJodo := None; l_targetGradeJodo := None;
     l_billingFullName := None; l_billingZip := None; l_billingCity := None;
     l_billingAddress := None; l_billingCountry := None; l_foodNotes := None;
     l_privacyConsent := Some true; l_termsConsent := Some true;
     l_privacyPolicyVersion := None; l_termsVersion := None;
     l_privacyConsentAt := None; l_termsConsentAt := None |}.

Definition sample_gen (n : nat) : import_env :=
  {| gen_uuid := js "00000000-0000-4000-8000-00000000000" ++ decimal (Z.of_nat n);
     gen_now := js "2026-03-01T00:00:00.000Z" |}.

Definition empty_store : table := {| columns := INSERT_COLUMNS; rows := [] |}.

(** Stand-ins for the cryptographic and encoding primitives, for running
    the session functions: a keyed digest of four bytes, and a payload
    encoding [username~exp]. *)
Definition toy_hmac (secret data : jsstring) : list N :=
  let sum := fold_left (fun acc c => (acc * 31 + c) mod 4294967296)%N (secret ++ [0%N] ++ data) 7%N in
  [ (sum / 16777216) mod 256; (sum / 65536) mod 256; (sum / 256) mod 256; sum mod 256 ]%N.

Definition toy_encode (username : jsstring) (exp : Z) : jsstring :=
  username ++ js "~" ++ decimal exp.

Definition parse_digits (s : jsstring) : option Z :=
  if forallb is_digit s && negb (bool_decide (s = []))
  then Some (fold_left (fun acc c => acc * 10 + Z.of_N (c - 48)) s 0)
  else None.

Definition toy_decode (encoded : jsstring) : option jsval :=
  match split_on 126%N encoded with
  | [username; digits] =>
      exp ← parse_digits digits;
      Some (JObj [ (js "username", JStr username); (js "exp", JNum exp) ])
  | _ => None
  end.

(** A registration whose name holds a comma and whose note holds a quoted
    word and a line break. *)
Definition smith_john : mapped_registration :=
  {| m_id := JStr (js "reg_7"); m_createdAt := JStr (js "2026-03-05T07:30:00.000Z");
     m_status := JStr (js "PENDING_PAYMENT"); m_fullName := JStr (js "Smith, John");
     m_email := JStr (js "john@example.org"); m_phone := JStr (js "+44 20 7946 0000");
     m_city := JStr (js "London"); m_currentGradeIaido := JStr (js "1 dan");
     m_currentGradeJodo := JStr []; m_campType := JStr (js "iaido");
     m_mealPlan := JStr (js "lunch"); m_accommodation := JStr (js "none");
     m_wantsExamIaido := false; m_targetGradeIaido := JStr [];
     m_wantsExamJodo := false; m_targetGradeJodo := JStr [];
     m_priceBreakdown :=
       JObj [ (js "lineItems",
               JArr [ JObj [ (js "key", JStr (js "campType")); (js "amountHuf", JNum 149) ];
                      JObj [ (js "key", JStr (js "mealPlan")); (js "amountHuf", JNum 33) ];
                      JObj [ (js "key", JStr (js "accommodation")); (js "amountHuf", JNum 0) ] ]) ];
     m_amountHuf := JNum 182; m_currency := JStr (js "EUR");
     m_billingFullName := JStr (js "Smith, John"); m_billingZip := JStr (js "1011");
     m_billingCity := JStr (js "Budapest"); m_billingAddress := JStr (js "Fo utca 5.");
     m_billingCountry := JStr (js "Hungary");
     m_foodNotes := JStr (js "no " ++ [QUOTE] ++ js "hot" ++ [QUOTE; LF] ++ js "food");
     m_privacyConsent := true; m_termsConsent := true;
     m_privacyPolicyVersion := JStr (js "2026-02-26"); m_termsVersion := JStr (js "2026-02-26");
     m_privacyConsentAt := JStr (js "2026-03-05T07:30:00.000Z");
     m_termsConsentAt := JNull |}.

(** A registration for the Jodo seminar only, without an Iaido grade. *)
Definition jodo_only_body : jsval :=
  JObj [ (js "fullName", JStr (js "Varga Judit"));
         (js "email", JStr (js "judit@example.org"));
         (js "phone", JStr (js "+36 30 765 4321"));
         (js "city", JStr (js "Debrecen"));
         (js "campType", JStr (js "jodo"));
         (js "currentGradeJodo", JStr (js "2 kyu"));
         (js "billingFullName", JStr (js "Varga Judit"));
         (js "billingZip", JStr (js "4024"));
         (js "billingCity", JStr (js "Debrecen"));
         (js "billingAddress", JStr (js "Piac utca 10."));
         (js "privacyConsent", JBool true);
         (js "termsConsent", JBool true) ].

(** The JSON text of a value whose strings need no escape, as
    [JSON.stringify] writes it. *)
Fixpoint JSON_text (v : jsval) : jsstring :=
  match v with
  | JUndefined | JNull => js "null"
  | JBool true => js "true"
  | JBool false => js "false"
  | JNum z => decimal z
  | JStr s => json_quote s
  | JArr xs => js "[" ++ join_with (js ",") (List.map JSON_text xs) ++ js "]"
  | JObj props =>
      json_object (List.map (fun p => json_quote p.1 ++ js ":" ++ JSON_text p.2) props)
  end.

(** A body that arrives in one chunk, the JSON text of [v]. *)
Definition sent (v : jsval) : request_body := Ended [JSON_text v].

(** The bodies of the examples. *)
Definition SAMPLE_BODIES : list jsval :=
  [ valid_body; jodo_only_body; jodo_with_iaido_exam; request_for "reg_1" ].

(** A stand-in for [JSON.parse] that reads the texts of the bodies of the
    examples and raises on every other text. *)
Definition sample_JSON_parse (text : jsstring) : option jsval :=
  List.find (fun v => bool_decide (JSON_text v = text)) SAMPLE_BODIES.

(** A runtime for running the examples: its case mapping is the one of
    ASCII and leaves the other characters as they are. *)
Definition sample_runtime : Runtime.
Proof.
  refine {| toLowerCase := List.map ascii_lower; JSON_parse := sample_JSON_parse |}.
  - intros s c Hc. apply list_elem_of_In, in_map_iff in Hc as (c' & <- & _).
    unfold ascii_lower. destruct ((65 <=? c') && (c' <=? 90))%N eqn:E.
    + apply andb_true_iff in E as [H1 H2]. apply N.leb_le in H1, H2. lia.
    + apply andb_false_iff in E as [E|E]; apply N.leb_gt in E; lia.
  - assert (∀ c, is_js_whitespace (ascii_lower c) = is_js_whitespace c) as Hws.
    { intros c. unfold ascii_lower. destruct ((65 <=? c) && (c <=? 90))%N eqn:E; [|done].
      apply andb_true_iff in E as [H1 H2]. apply N.leb_le in H1, H2.
      unfold is_js_whitespace.
      repeat match goal with
             | |- context [(?a <=? ?b)%N] => destruct (N.leb_spec a b); try lia
             | |- context [(?a =? ?b)%N] => destruct (N.eqb_spec a b); try lia
             end; done. }
    assert (∀ s, trimStart (List.map ascii_lower s) = List.map ascii_lower (trimStart s))
      as Hstart.
    { induction s as [|c s IH]; [done|]. simpl. rewrite Hws. by destruct (is_js_whitespace c). }
    intros s Hs. rewrite <- Hs at 2. unfold trim, trimEnd.
    by rewrite Hstart, <- map_rev, Hstart, map_rev.
Defined.

(** ** Further concrete inputs *)

(** The empty table of the current schema after one valid registration. *)
Definition store_with_one : table :=
  @handle sample_runtime (PostRegister sample_env (sent valid_body)) empty_store.

(** The registrations of a table with a deleted registration, after a
    complete registration was sent to it. *)
Definition sample_registrations : list registration_view :=
  mapped_rows (fun _ => None)
    (@handle sample_runtime (PostRegister sample_env (sent valid_body)) store_with_deleted).

(** A stand-in for [decodeURIComponent] that is right on the strings
    without an escape sequence and raises on the others. *)
Definition toy_decodeURIComponent (s : jsstring) : option jsstring :=
  if bool_decide (37%N ∈ s) then None else Some s.

(** The body of a login with the credentials [admin] and [demo-admin-123]. *)
Definition login_body : jsval :=
  JObj [ (js "username", JStr (js " admin ")); (js "password", JStr (js "demo-admin-123")) ].

(** A legacy file with two entries of the first format. *)
Definition legacy_sample : legacy_file :=
  LegacyArray [ Some (legacy_entry "reg_legacy_1" "2 dan" "3 dan");
                Some (legacy_entry "reg_legacy_2" "1 kyu" "") ].
(* ===================================================================== *)
(** * Part II: properties                                                 *)
(* ===================================================================== *)

(** ** Regular expressions: the matcher decides the language *)

Ltac lang_inv :=
  match goal with
  | H : lang RNone _ |- _ => inversion H
  | H : lang REps _ |- _ => inversion H; subst; clear H
  | H : lang (RClass _) _ |- _ => inversion H; subst; clear H
  | H : lang (RCat _ _) _ |- _ => inversion H; subst; clear H
  | H : lang (RAlt _ _) _ |- _ => inversion H; subst; clear H
  end.

Lemma nullable_lang r : nullable r = true ↔ lang r [].
Proof.
  induction r; simpl.
  - split; [done | intros; lang_inv].
  - split; [constructor | done].
  - split; [done | intros H; inversion H].
  - rewrite andb_true_iff, IHr1, IHr2. split.
    + intros [H1 H2]. apply (lang_cat _ _ [] []); done.
    + intros H. inversion H as [| |? ? s1 s2 H1 H2 [E1 E2] Hs| | | |].
      apply app_eq_nil in Hs as [-> ->]. done.
  - rewrite orb_true_iff, IHr1, IHr2. split.
    + intros [H|H]; [by apply lang_alt_l | by apply lang_alt_r].
    + intros; lang_inv; [by left | by right].
  - split; [constructor | done].
Qed.

Lemma lang_star_cons_inv r c s :
  lang (RStar r) (c :: s) →
  ∃ s1 s2, s = s1 ++ s2 ∧ lang r (c :: s1) ∧ lang (RStar r) s2.
Proof.
  intros H. remember (RStar r) as r' eqn:Er. remember (c :: s) as t eqn:Et.
  revert c s Et. induction H as [| | | | | |r0 s1 s2 H1 _ H2 IH2]; intros c' s' Et;
    try discriminate.
  injection Er as ->. destruct s1 as [|c1 s1]; simpl in Et.
  - by apply IH2.
  - injection Et as -> <-. by exists s1, s2.
Qed.

Lemma lang_cat_cons_inv r1 r2 c s :
  lang (RCat r1 r2) (c :: s) →
  (lang r1 [] ∧ lang r2 (c :: s))
  ∨ ∃ s1 s2, s = s1 ++ s2 ∧ lang r1 (c :: s1) ∧ lang r2 s2.
Proof.
  intros H. inversion H as [| |? ? s1 s2 Ha Hb [E1 E2] Hs| | | |].
  destruct s1 as [|c1 s1]; simpl in Hs.
  - subst s2. by left.
  - injection Hs as -> <-. right. by exists s1, s2.
Qed.

Lemma deriv_lang c r s : lang (deriv c r) s ↔ lang r (c :: s).
Proof.
  revert s. induction r as [| |p|r1 IH1 r2 IH2|r1 IH1 r2 IH2|r IH]; intros s; simpl.
  - split; intros; lang_inv.
  - split; intros H; inversion H.
  - destruct (p c) eqn:Hp.
    + split; intros; lang_inv; by constructor.
    + split; intros; lang_inv. congruence.
  - destruct (nullable r1) eqn:Hn.
    + split.
      * intros; lang_inv.
        -- lang_inv. apply (lang_cat _ _ (c :: _) _); [by apply IH1 | done].
        -- apply nullable_lang in Hn. apply (lang_cat _ _ [] (c :: s)); [done | by apply IH2].
      * intros [[Ha Hb]|(s1 & s2 & -> & Ha & Hb)]%lang_cat_cons_inv.
        -- apply lang_alt_r. by apply IH2.
        -- apply lang_alt_l. constructor; [by apply IH1 | done].
    + split.
      * intros; lang_inv. apply (lang_cat _ _ (c :: _) _); [by apply IH1 | done].
      * intros [[Ha Hb]|(s1 & s2 & -> & Ha & Hb)]%lang_cat_cons_inv.
        -- apply nullable_lang in Ha. congruence.
        -- constructor; [by apply IH1 | done].
  - split; intros; lang_inv;
      solve [ apply lang_alt_l; by apply IH1 | apply lang_alt_r; by apply IH2 ].
  - split.
    + intros; lang_inv. apply (lang_star_app _ (c :: _) _); [by apply IH | done].
    + intros (s1 & s2 & -> & Ha & Hb)%lang_star_cons_inv.
      constructor; [by apply IH | done].
Qed.

Lemma matches_all_lang r s : matches_all r s = true ↔ lang r s.
Proof.
  revert r. induction s as [|c s IH]; intros r; simpl.
  - apply nullable_lang.
  - rewrite IH. apply deriv_lang.
Qed.

Lemma lang_any_star s : lang (RStar RAny) s.
Proof.
  induction s as [|c s IH]; [constructor|].
  apply (lang_star_app _ [c] s); [by constructor | done].
Qed.

(** An unanchored test succeeds exactly when a substring is in the language. *)
Lemma test_search_lang r s :
  test_search r s = true ↔ ∃ pre mid post, s = pre ++ mid ++ post ∧ lang r mid.
Proof.
  unfold test_search. rewrite matches_all_lang. split.
  - intros H. lang_inv. lang_inv. eauto.
  - intros (pre & mid & post & -> & Hmid).
    constructor; [apply lang_any_star|].
    constructor; [done | apply lang_any_star].
Qed.

Lemma lang_literal_ci (cs mid : jsstring) :
  lang (fold_right (fun c r => RCat (RClass (fun x => (ascii_upper x =? ascii_upper c)%N)) r)
          REps cs) mid
  ↔ List.map ascii_upper mid = List.map ascii_upper cs.
Proof.
  revert mid. induction cs as [|c cs IH]; intros mid; simpl.
  - split.
    + intros; by lang_inv.
    + destruct mid; [constructor | done].
  - split.
    + intros; lang_inv. lang_inv. simpl.
      match goal with Hx : (_ =? _)%N = true |- _ => apply N.eqb_eq in Hx; rewrite Hx end.
      f_equal. by apply IH.
    + destruct mid as [|x mid]; [done|]. simpl. intros [= Hx Hmid].
      apply (lang_cat _ _ [x] mid); [|by apply IH].
      constructor. by apply N.eqb_eq.
Qed.

Lemma test_search_literal_ci text s :
  test_search (RLitI text) s = true ↔ contains_ci text s.
Proof.
  rewrite test_search_lang. unfold contains_ci, RLitI.
  by setoid_rewrite lang_literal_ci.
Qed.

(** ** Trimming *)

Lemma trimStart_idem s : trimStart (trimStart s) = trimStart s.
Proof.
  induction s as [|c s IH]; simpl; [done|].
  destruct (is_js_whitespace c) eqn:Hc; [done|]. simpl. by rewrite Hc.
Qed.

Lemma trimStart_length s : (length (trimStart s) ≤ length s)%nat.
Proof.
  induction s as [|c s IH]; simpl; [done|].
  destruct (is_js_whitespace c); simpl; lia.
Qed.

Lemma trimStart_app_cons l c m :
  is_js_whitespace c = false → trimStart (l ++ c :: m) = trimStart l ++ c :: m.
Proof.
  intros Hc. induction l as [|x l IH]; simpl; [by rewrite Hc|].
  by destruct (is_js_whitespace x).
Qed.

Lemma trimEnd_idem s : trimEnd (trimEnd s) = trimEnd s.
Proof. unfold trimEnd. by rewrite rev_involutive, trimStart_idem. Qed.

(** Trimming the end of a string leaves its start as it is. *)
Lemma trimStart_trimEnd u : trimStart u = u → trimStart (trimEnd u) = trimEnd u.
Proof.
  destruct u as [|c u]; [done|]. simpl.
  destruct (is_js_whitespace c) eqn:Hc.
  - intros H. pose proof (trimStart_length u) as Hlen. rewrite H in Hlen. simpl in Hlen. lia.
  - intros _. unfold trimEnd. simpl.
    rewrite trimStart_app_cons by done. rewrite rev_app_distr. simpl. by rewrite Hc.
Qed.

Lemma trim_idem s : trim (trim s) = trim s.
Proof.
  unfold trim. rewrite (trimStart_trimEnd (trimStart s)) by apply trimStart_idem.
  apply trimEnd_idem.
Qed.

(** ** Pricing engine *)

(** [String] returns on a string, and on the empty string that stands in
    for a falsy value. *)
Lemma String_of_string s : String_of (js_or (JStr s) (JStr [])) = Some s.
Proof. by destruct s. Qed.

Lemma String_of_returns v : String_raises v = false → String_of v = Some (ToString v).
Proof. unfold String_of. by intros ->. Qed.

Lemma String_of_Some v text : String_of v = Some text → String_raises v = false.
Proof. unfold String_of. by destruct (String_raises v). Qed.

(** A falsy value is no object and no array. *)
Lemma String_raises_or v fallback :
  String_raises fallback = false → String_raises (js_or v fallback) = String_raises v.
Proof.
  unfold js_or. intros Hf.
  destruct v as [| |[|]|z|[|c s]|xs|props]; simpl; try done.
  by destruct (z =? 0).
Qed.

Lemma toEnumValue_cases value allowed fallback code :
  toEnumValue value allowed fallback = Some code →
  ∃ text,
    String_of (js_or value (JStr [])) = Some text
    ∧ ((hasOwnProperty allowed (trim text) = true ∧ code = trim text)
       ∨ (hasOwnProperty allowed (trim text) = false ∧ code = fallback)).
Proof.
  unfold toEnumValue. destruct (String_of _) as [text|]; [|done]. simpl.
  intros [= <-]. exists text. split; [done|].
  destruct (hasOwnProperty allowed _); [left | right]; done.
Qed.

Example pricing_both_full_dojo :
  totalHuf <$> calculatePricing {| in_campType := JStr (js " both ");
                                   in_mealPlan := JStr (js "full");
                                   in_accommodation := JStr (js "dojo") |}
  = Some (Some 382).
Proof. reflexivity. Qed.

Lemma hasOwnProperty_assoc {A} (o : list (jsstring * A)) k :
  hasOwnProperty o k = true ↔ ∃ v, assoc k o = Some v.
Proof.
  unfold hasOwnProperty. destruct (assoc k o); split; eauto; try done.
  intros [v Hv]; done.
Qed.

Lemma hasOwnProperty_keys {A} (o : list (jsstring * A)) k :
  hasOwnProperty o k = true ↔ k ∈ o.*1.
Proof.
  unfold hasOwnProperty. induction o as [|[k' v] o IH]; simpl.
  - split; [done | by intros ?%elem_of_nil].
  - destruct (decide (k = k')) as [->|Hne].
    + split; [intros _; left | done].
    + rewrite IH. split; [by right | ].
      intros [?|?]%elem_of_cons; done.
Qed.

(** A string argument is normalised by [trim] alone: [value || ''] and
    [String] leave it as it is, and nothing is raised. *)
Lemma toEnumValue_string s allowed fallback :
  toEnumValue (JStr s) allowed fallback =
  Some (if decide (trim s ∈ allowed.*1) then trim s else fallback).
Proof.
  unfold toEnumValue. rewrite String_of_string. simpl. f_equal.
  destruct (hasOwnProperty allowed (trim s)) eqn:E.
  - apply hasOwnProperty_keys in E. by rewrite decide_True.
  - rewrite decide_False; [done|]. intros H%hasOwnProperty_keys. congruence.
Qed.

(** Whatever the argument, the result is a key of the table as soon as the
    fallback is one. *)
Lemma toEnumValue_allowed value allowed fallback code :
  hasOwnProperty allowed fallback = true →
  toEnumValue value allowed fallback = Some code →
  hasOwnProperty allowed code = true.
Proof.
  intros Hfb H. destruct (toEnumValue_cases _ _ _ _ H) as (text & _ & [[? ->]|[_ ->]]); done.
Qed.

(** The function returns exactly when [String] returns on the three
    values. *)
Lemma toEnumValue_returns value allowed fallback :
  is_Some (toEnumValue value allowed fallback) ↔ String_raises value = false.
Proof.
  unfold toEnumValue, String_of. rewrite String_raises_or by done.
  destruct (String_raises value); simpl; split;
    first [done | by intros [? ?] | by eexists].
Qed.

(** The pricing of three strings. *)
Lemma calculatePricing_strings (c m a : jsstring) :
  ∃ p,
    calculatePricing {| in_campType := JStr c;
                        in_mealPlan := JStr m;
                        in_accommodation := JStr a |} = Some p
    ∧ let camp := sel_campType (pr_selection p) in
      let meal := sel_mealPlan (pr_selection p) in
      let accom := sel_accommodation (pr_selection p) in
      camp = (if decide (trim c ∈ (po_campType PRICE_OPTIONS).*1) then trim c else js "iaido")
      ∧ meal = (if decide (trim m ∈ (po_mealPlan PRICE_OPTIONS).*1) then trim m else js "none")
      ∧ accom
        = (if decide (trim a ∈ (po_accommodation PRICE_OPTIONS).*1) then trim a else js "none")
      ∧ ∃ x y z,
          assoc camp (po_campType PRICE_OPTIONS) = Some x
          ∧ assoc meal (po_mealPlan PRICE_OPTIONS) = Some y
          ∧ assoc accom (po_accommodation PRICE_OPTIONS) = Some z
          ∧ lineItems p =
              [ {| li_key := js "campType"; li_code := camp;
                   li_label := Some (label x); li_amountHuf := Some (amountHuf x) |};
                {| li_key := js "mealPlan"; li_code := meal;
                   li_label := Some (label y); li_amountHuf := Some (amountHuf y) |};
                {| li_key := js "accommodation"; li_code := accom;
                   li_label := Some (label z); li_amountHuf := Some (amountHuf z) |} ]
          ∧ totalHuf p = Some (amountHuf x + amountHuf y + amountHuf z)
          ∧ currency p = js "EUR".
Proof.
  pose proof (toEnumValue_string c (po_campType PRICE_OPTIONS) (js "iaido")) as Ec.
  pose proof (toEnumValue_string m (po_mealPlan PRICE_OPTIONS) (js "none")) as Em.
  pose proof (toEnumValue_string a (po_accommodation PRICE_OPTIONS) (js "none")) as Ea.
  unfold calculatePricing. cbn [in_campType in_mealPlan in_accommodation].
  rewrite Ec, Em, Ea. cbn [mbind option_bind].
  eexists. split; [reflexivity|]. cbv zeta.
  cbn [pr_selection sel_campType sel_mealPlan sel_accommodation lineItems totalHuf currency].
  match type of Ec with _ = Some ?k => set (camp := k) in * end.
  match type of Em with _ = Some ?k => set (meal := k) in * end.
  match type of Ea with _ = Some ?k => set (accom := k) in * end.
  do 3 (split; [reflexivity|]).
  assert (hasOwnProperty (po_campType PRICE_OPTIONS) camp = true) as [x Hx]%hasOwnProperty_assoc
    by (by eapply toEnumValue_allowed; [|exact Ec]).
  assert (hasOwnProperty (po_mealPlan PRICE_OPTIONS) meal = true) as [y Hy]%hasOwnProperty_assoc
    by (by eapply toEnumValue_allowed; [|exact Em]).
  assert (hasOwnProperty (po_accommodation PRICE_OPTIONS) accom = true)
    as [z Hz]%hasOwnProperty_assoc by (by eapply toEnumValue_allowed; [|exact Ea]).
  exists x, y, z. repeat split; try done.
  - unfold mk_line_item. by rewrite Hx, Hy, Hz.
  - unfold mk_line_item. cbn [fold_left li_amountHuf]. by rewrite Hx, Hy, Hz.
Qed.

(** C4. For every triple of option strings the function returns, without
    raising, a breakdown that has one line item per category carrying the
    table entry of the resolved code; its total is the sum of the three
    amounts (a number, never NaN), and a value that is empty or not a code
    of its category after trimming is replaced by the default of the
    category: 'iaido', 'none', 'none'. *)
Theorem calculatePricing_total_and_defaults (c m a : jsstring) :
  ∃ p,
    calculatePricing {| in_campType := JStr c;
                        in_mealPlan := JStr m;
                        in_accommodation := JStr a |} = Some p
    ∧ let camp := sel_campType (pr_selection p) in
      let meal := sel_mealPlan (pr_selection p) in
      let accom := sel_accommodation (pr_selection p) in
      camp = (if decide (trim c ∈ (po_campType PRICE_OPTIONS).*1) then trim c else js "iaido")
      ∧ meal = (if decide (trim m ∈ (po_mealPlan PRICE_OPTIONS).*1) then trim m else js "none")
      ∧ accom
        = (if decide (trim a ∈ (po_accommodation PRICE_OPTIONS).*1) then trim a else js "none")
      ∧ ∃ x y z,
          assoc camp (po_campType PRICE_OPTIONS) = Some x
          ∧ assoc meal (po_mealPlan PRICE_OPTIONS) = Some y
          ∧ assoc accom (po_accommodation PRICE_OPTIONS) = Some z
          ∧ lineItems p =
              [ {| li_key := js "campType"; li_code := camp;
                   li_label := Some (label x); li_amountHuf := Some (amountHuf x) |};
                {| li_key := js "mealPlan"; li_code := meal;
                   li_label := Some (label y); li_amountHuf := Some (amountHuf y) |};
                {| li_key := js "accommodation"; li_code := accom;
                   li_label := Some (label z); li_amountHuf := Some (amountHuf z) |} ]
          ∧ totalHuf p = Some (amountHuf x + amountHuf y + amountHuf z)
          ∧ currency p = js "EUR".
Proof. apply calculatePricing_strings. Qed.

(** ** Validation layer *)

Lemma elem_of_push_if x cond m errors :
  x ∈ push_if cond m errors ↔ x ∈ errors ∨ (cond = true ∧ x = m).
Proof.
  unfold push_if. destruct cond.
  - rewrite elem_of_app, list_elem_of_singleton. intuition congruence.
  - intuition congruence.
Qed.

Lemma elem_of_push_if_ne x cond m errors :
  x ≠ m → x ∈ push_if cond m errors ↔ x ∈ errors.
Proof. rewrite elem_of_push_if. intuition congruence. Qed.

Lemma push_if_nil_inv cond m errors : push_if cond m errors = [] → cond = false ∧ errors = [].
Proof.
  unfold push_if. destruct cond; [|done].
  intros H. by destruct errors.
Qed.

Lemma isNonEmptyString_false s : negb (isNonEmptyString s) = true ↔ trim s = [].
Proof. unfold isNonEmptyString. destruct (trim s); simpl; split; done. Qed.

(** Reduces [m ∈ validateRegistration data], for a literal [m] of the
    function, to the condition of the one [push] that carries [m]. *)
Ltac skip_push :=
  repeat (rewrite elem_of_push_if_ne by discriminate).
Ltac error_condition :=
  unfold validateRegistration; cbv zeta;
  skip_push; rewrite elem_of_push_if; skip_push; rewrite elem_of_nil;
  rewrite ?andb_true_iff, ?orb_true_iff, ?bool_decide_eq_true, ?isNonEmptyString_false;
  intuition.

Lemma iaido_exam_conflict_reported data :
  "Iaido exam can only be selected with Iaido or Iaido + Jodo participation."
    ∈ validateRegistration data
  ↔ d_wantsExamIaido data = true ∧ d_campType data = js "jodo".
Proof. error_condition. Qed.

Lemma jodo_exam_conflict_reported data :
  "Jodo exam can only be selected with Jodo or Iaido + Jodo participation."
    ∈ validateRegistration data
  ↔ d_wantsExamJodo data = true ∧ d_campType data = js "iaido".
Proof. error_condition. Qed.

Lemma iaido_target_grade_reported data :
  "Iaido target grade is required if Iaido exam is selected." ∈ validateRegistration data
  ↔ d_wantsExamIaido data = true ∧ trim (d_targetGradeIaido data) = [].
Proof. error_condition. Qed.

Lemma jodo_target_grade_reported data :
  "Jodo target grade is required if Jodo exam is selected." ∈ validateRegistration data
  ↔ d_wantsExamJodo data = true ∧ trim (d_targetGradeJodo data) = [].
Proof. error_condition. Qed.

Lemma iaido_current_grade_reported data :
  "Current Iaido grade is required for the selected option." ∈ validateRegistration data
  ↔ (d_campType data = js "iaido" ∨ d_campType data = js "both"
     ∨ d_wantsExamIaido data = true)
    ∧ trim (d_currentGradeIaido data) = [].
Proof. error_condition. Qed.

Lemma jodo_current_grade_reported data :
  "Current Jodo grade is required for the selected option." ∈ validateRegistration data
  ↔ (d_campType data = js "jodo" ∨ d_campType data = js "both"
     ∨ d_wantsExamJodo data = true)
    ∧ trim (d_currentGradeJodo data) = [].
Proof. error_condition. Qed.

(** Takes apart [H : sanitizePayload payload = Some data]: one equation for
    every property read and every conversion made, and [data] replaced by
    the record built from their results. *)
Ltac sanitized H :=
  unfold sanitizePayload in H;
  repeat first
    [ progress cbv zeta in H
    | match type of H with
      | mbind _ ?x = Some _ =>
          let E := fresh "E" in
          destruct x eqn:E; [|discriminate H]; cbn [mbind option_bind] in H
      end ];
  injection H as <-.

Lemma trimmed_text (v : jsval) (t : jsstring) : trim <$> String_of v = Some t → trim t = t.
Proof. destruct (String_of v); [|done]. intros [= <-]. apply trim_idem. Qed.

Lemma optional_text (flag : bool) (text : option jsstring) (t : jsstring) :
  (if flag then trim <$> text else Some []) = Some t →
  trim t = t ∧ (flag = false → t = []).
Proof.
  destruct flag.
  - destruct text; [|done]. intros [= <-]. split; [apply trim_idem | done].
  - intros [= <-]. done.
Qed.

Lemma sanitizePayload_enums `{Runtime} payload data :
  sanitizePayload payload = Some data →
  hasOwnProperty (po_campType PRICE_OPTIONS) (d_campType data) = true
  ∧ hasOwnProperty (po_mealPlan PRICE_OPTIONS) (d_mealPlan data) = true
  ∧ hasOwnProperty (po_accommodation PRICE_OPTIONS) (d_accommodation data) = true.
Proof.
  intros Hs. sanitized Hs. cbn [d_campType d_mealPlan d_accommodation].
  repeat split; (eapply toEnumValue_allowed; [|eassumption]); reflexivity.
Qed.

(** The grade fields of a sanitized body are trimmed, so such a field is
    empty exactly when it is the empty string. *)
Lemma sanitizePayload_grades_trimmed `{Runtime} payload data :
  sanitizePayload payload = Some data →
  trim (d_currentGradeIaido data) = d_currentGradeIaido data
  ∧ trim (d_currentGradeJodo data) = d_currentGradeJodo data
  ∧ trim (d_targetGradeIaido data) = d_targetGradeIaido data
  ∧ trim (d_targetGradeJodo data) = d_targetGradeJodo data.
Proof.
  intros Hs. sanitized Hs.
  cbn [d_currentGradeIaido d_currentGradeJodo d_targetGradeIaido d_targetGradeJodo].
  repeat split;
    first [ by eapply trimmed_text | by eapply optional_text ].
Qed.

(** C6. The cross-field grade and exam rules.  Each of the six messages is
    in the error list exactly when its rule is violated, whatever the other
    fields are, so every violation is reported next to the others; and an
    empty error list means that no rule is violated.  A grade is empty when
    nothing is left of it after trimming; in a body the sanitizer returned
    the grades are trimmed, so there an empty grade is the empty string. *)
Theorem validateRegistration_grade_exam_rules `{Runtime} (data : registration_data) :
  let errors := validateRegistration data in
  let wantsIaido := d_wantsExamIaido data = true in
  let wantsJodo := d_wantsExamJodo data = true in
  let needsIaido :=
    d_campType data = js "iaido" ∨ d_campType data = js "both" ∨ wantsIaido in
  let needsJodo :=
    d_campType data = js "jodo" ∨ d_campType data = js "both" ∨ wantsJodo in
  ("Iaido exam can only be selected with Iaido or Iaido + Jodo participation." ∈ errors
     ↔ wantsIaido ∧ d_campType data = js "jodo")
  ∧ ("Jodo exam can only be selected with Jodo or Iaido + Jodo participation." ∈ errors
     ↔ wantsJodo ∧ d_campType data = js "iaido")
  ∧ ("Iaido target grade is required if Iaido exam is selected." ∈ errors
     ↔ wantsIaido ∧ trim (d_targetGradeIaido data) = [])
  ∧ ("Jodo target grade is required if Jodo exam is selected." ∈ errors
     ↔ wantsJodo ∧ trim (d_targetGradeJodo data) = [])
  ∧ ("Current Iaido grade is required for the selected option." ∈ errors
     ↔ needsIaido ∧ trim (d_currentGradeIaido data) = [])
  ∧ ("Current Jodo grade is required for the selected option." ∈ errors
     ↔ needsJodo ∧ trim (d_currentGradeJodo data) = [])
  ∧ (errors = [] →
       ¬ (wantsIaido ∧ d_campType data = js "jodo")
       ∧ ¬ (wantsJodo ∧ d_campType data = js "iaido")
       ∧ ¬ (wantsIaido ∧ trim (d_targetGradeIaido data) = [])
       ∧ ¬ (wantsJodo ∧ trim (d_targetGradeJodo data) = [])
       ∧ ¬ (needsIaido ∧ trim (d_currentGradeIaido data) = [])
       ∧ ¬ (needsJodo ∧ trim (d_currentGradeJodo data) = []))
  ∧ (∀ payload, sanitizePayload payload = Some data →
       trim (d_currentGradeIaido data) = d_currentGradeIaido data
       ∧ trim (d_currentGradeJodo data) = d_currentGradeJodo data
       ∧ trim (d_targetGradeIaido data) = d_targetGradeIaido data
       ∧ trim (d_targetGradeJodo data) = d_targetGradeJodo data).
Proof.
  intros errors wantsIaido wantsJodo needsIaido needsJodo.
  pose proof (iaido_exam_conflict_reported data) as H1.
  pose proof (jodo_exam_conflict_reported data) as H2.
  pose proof (iaido_target_grade_reported data) as H3.
  pose proof (jodo_target_grade_reported data) as H4.
  pose proof (iaido_current_grade_reported data) as H5.
  pose proof (jodo_current_grade_reported data) as H6.
  fold errors in H1, H2, H3, H4, H5, H6.
  do 6 (split; [assumption|]).
  split; [|intros payload; apply sanitizePayload_grades_trimmed].
  intros Hnil. rewrite Hnil in H1, H2, H3, H4, H5, H6.
  rewrite elem_of_nil in H1, H2, H3, H4, H5, H6.
  unfold wantsIaido, wantsJodo, needsIaido, needsJodo in *. tauto.
Qed.

Example jodo_with_iaido_exam_rejected :
  validateRegistration <$> @sanitizePayload sample_runtime jodo_with_iaido_exam =
  Some ["Iaido exam can only be selected with Iaido or Iaido + Jodo participation."].
Proof. vm_compute. reflexivity. Qed.

Example both_with_iaido_exam_accepted :
  validateRegistration <$>
    @sanitizePayload sample_runtime
      (JObj [ (js "fullName", JStr (js "Kovacs Anna"));
         (js "email", JStr (js "Anna@Example.org"));
         (js "phone", JStr (js "+36 30 123 4567"));
         (js "city", JStr (js "Budapest"));
         (js "campType", JStr (js "both"));
         (js "currentGradeJodo", JStr (js "1 dan"));
         (js "currentGradeIaido", JStr (js "4 dan"));
         (js "wantsExamIaido", JBool true);
         (js "targetGradeIaido", JStr (js "5th dan"));
         (js "wantsExamJodo", JBool false);
         (js "billingFullName", JStr (js "Kovacs Anna"));
         (js "billingZip", JStr (js "1111"));
         (js "billingCity", JStr (js "Budapest"));
         (js "billingAddress", JStr (js "Fo utca 1."));
         (js "privacyConsent", JBool true);
         (js "termsConsent", JBool true) ]) = Some [].
Proof. vm_compute. reflexivity. Qed.

Example empty_body_errors :
  length <$> (validateRegistration <$> @sanitizePayload sample_runtime (JObj []))
  = Some 11%nat.
Proof. vm_compute. reflexivity. Qed.

Example null_body_raises : @sanitizePayload sample_runtime JNull = None.
Proof. reflexivity. Qed.

(** A property that is an object with a [toString] of its own, or an array
    that holds one, makes the sanitizer raise; an object without one is
    converted to its text. *)
Example unprintable_city_raises :
  @sanitizePayload sample_runtime (JObj [ (js "city", JObj [ (js "toString", JNull) ]) ])
  = None
  ∧ @sanitizePayload sample_runtime
      (JObj [ (js "city", JArr [ JNum 1; JObj [ (js "toString", JStr (js "x")) ] ]) ])
    = None
  ∧ d_city <$> @sanitizePayload sample_runtime
                 (JObj [ (js "city", JArr [ JNum 1; JObj [ (js "name", JNull) ] ]) ])
    = Some (js "1,[object Object]").
Proof. vm_compute. repeat split; reflexivity. Qed.

(** Numbers are printed as the runtime prints them. *)
Example number_texts :
  decimal <$> [ 0; -5; 149; 2 ^ 53 + 1; 2 ^ 60; 10 ^ 21 - 1; 123456789012345678901;
                15 * 10 ^ 20; -(2 ^ 64); 2 ^ 1024 ]
  = [ js "0"; js "-5"; js "149"; js "9007199254740992"; js "1152921504606847000";
      js "1e+21"; js "123456789012345680000"; js "1.5e+21"; js "-18446744073709552000";
      js "Infinity" ].
Proof. vm_compute. reflexivity. Qed.

Example isValidEmail_examples :
  isValidEmail (js "anna@example.org") = true
  ∧ isValidEmail (js "a@b.c") = true
  ∧ isValidEmail (js "anna@example") = false
  ∧ isValidEmail (js "anna@@example.org") = false
  ∧ isValidEmail (js "anna smith@example.org") = false
  ∧ isValidEmail (js "@example.org") = false
  ∧ isValidEmail (js "anna@example.") = false
  ∧ isValidEmail [] = false.
Proof. vm_compute. repeat split; reflexivity. Qed.

Example isValidPhone_examples :
  isValidPhone (js "+36 30 123 4567") = true
  ∧ isValidPhone (js "  (06) 1-234-567  ") = true
  ∧ isValidPhone (js "1234567") = true
  ∧ isValidPhone (js "123456") = false
  ∧ isValidPhone (js "12345678901234567890") = true
  ∧ isValidPhone (js "123456789012345678901") = false
  ∧ isValidPhone (js "+36 30 123 456x") = false.
Proof. vm_compute. repeat split; reflexivity. Qed.

Example billing_zip_examples :
  test_anchored zip_regex (js "1111") = true
  ∧ test_anchored zip_regex (js "111") = false
  ∧ test_anchored zip_regex (js "11111") = false
  ∧ test_anchored zip_regex (js "11a1") = false
  ∧ test_anchored zip_regex [65297; 65298; 65299; 65300]%N = false.
Proof. vm_compute. repeat split; reflexivity. Qed.

Example toEnumValue_examples :
  toEnumValue (JStr (js "  both ")) (po_campType PRICE_OPTIONS) (js "iaido")
  = Some (js "both")
  ∧ toEnumValue (JStr (160%N :: js "jodo")) (po_campType PRICE_OPTIONS) (js "iaido")
    = Some (js "jodo")
  ∧ toEnumValue (JStr (js "Both")) (po_campType PRICE_OPTIONS) (js "iaido")
    = Some (js "iaido")
  ∧ toEnumValue (JStr (js "constructor")) (po_campType PRICE_OPTIONS) (js "iaido")
    = Some (js "iaido")
  ∧ toEnumValue (JArr [JStr (js "both")]) (po_campType PRICE_OPTIONS) (js "iaido")
    = Some (js "both")
  ∧ toEnumValue (JNum 7) (po_mealPlan PRICE_OPTIONS) (js "none") = Some (js "none")
  ∧ toEnumValue JUndefined (po_accommodation PRICE_OPTIONS) (js "none") = Some (js "none")
  ∧ toEnumValue (JObj [ (js "toString", JNull) ]) (po_campType PRICE_OPTIONS) (js "iaido")
    = None.
Proof. vm_compute. repeat split; reflexivity. Qed.

Ltac enum_error_condition :=
  unfold validateRegistration; cbv zeta;
  skip_push; rewrite elem_of_push_if; skip_push; rewrite elem_of_nil;
  rewrite negb_true_iff; intuition.

Lemma invalid_seminar_reported data :
  "Invalid seminar selection." ∈ validateRegistration data
  ↔ hasOwnProperty (po_campType PRICE_OPTIONS) (d_campType data) = false.
Proof. enum_error_condition. Qed.

Lemma invalid_meal_reported data :
  "Invalid meal option." ∈ validateRegistration data
  ↔ hasOwnProperty (po_mealPlan PRICE_OPTIONS) (d_mealPlan data) = false.
Proof. enum_error_condition. Qed.

Lemma invalid_accommodation_reported data :
  "Invalid accommodation option." ∈ validateRegistration data
  ↔ hasOwnProperty (po_accommodation PRICE_OPTIONS) (d_accommodation data) = false.
Proof. enum_error_condition. Qed.

Lemma String_of_None v : String_of v = None → String_raises v = true.
Proof. unfold String_of. by destruct (String_raises v). Qed.

Lemma text_None (v : jsval) : trim <$> String_of v = None → String_raises v = true.
Proof. destruct (String_of v) eqn:E; [done|]. intros _. by apply String_of_None. Qed.

Lemma toEnumValue_None value allowed fallback :
  toEnumValue value allowed fallback = None → String_raises value = true.
Proof.
  intros E. destruct (String_raises value) eqn:Hr; [done|].
  destruct (proj2 (toEnumValue_returns value allowed fallback) Hr) as [code Hc]. congruence.
Qed.

Lemma String_raises_or_inv a b :
  String_raises (js_or a b) = true → String_raises a = true ∨ String_raises b = true.
Proof. unfold js_or. destruct (ToBoolean a); auto. Qed.

Lemma String_raises_nullish_inv a b :
  String_raises (js_nullish a b) = true → String_raises a = true ∨ String_raises b = true.
Proof. destruct a; simpl; auto. Qed.

(** A property of a payload that is not an object is [undefined]. *)
Lemma get_prop_raising payload name value :
  get_prop payload name = Some value → String_raises value = true →
  ∃ props, payload = JObj props ∧ value = default JUndefined (assoc (js name) props).
Proof.
  destruct payload; simpl; try done; try (by intros [= <-]).
  intros [= <-] _. by eexists.
Qed.

(** Finds the property behind a conversion that raises. *)
Ltac raising_property E :=
  repeat match type of E with
         | String_raises (js_or _ _) = true =>
             apply String_raises_or_inv in E as [E|E]; [|discriminate E]
         | String_raises (js_nullish _ _) = true =>
             apply String_raises_nullish_inv in E as [E|E]
         | String_raises (JStr _) = true => discriminate E
         end;
  match type of E with
  | String_raises ?v = true =>
      match goal with
      | G : get_prop _ ?name = Some v |- _ =>
          right; right; exists name, v;
          split; [apply (bool_decide_unpack _); by vm_compute | by split]
      end
  end.

(** Where the sanitizer raises. *)
Lemma sanitizePayload_None `{Runtime} payload :
  sanitizePayload payload = None →
  payload = JNull ∨ payload = JUndefined
  ∨ ∃ name value,
      name ∈ ALWAYS_CONVERTED ++ SOMETIMES_CONVERTED
      ∧ get_prop payload name = Some value ∧ String_raises value = true.
Proof.
  intros Hs.
  assert (payload = JNull ∨ payload = JUndefined
          ∨ ∀ name, ∃ v, get_prop payload name = Some v) as [?|[?|Hget]];
    [|by left|by right; left|].
  { destruct payload; auto; right; right; intros name; by eexists. }
  unfold sanitizePayload in Hs.
  repeat match type of Hs with
         | mbind _ (get_prop payload ?name) = None =>
             let v := fresh "v" in
             let G := fresh "G" in
             destruct (Hget name) as [v G]; rewrite G in Hs;
             cbn [mbind option_bind] in Hs
         end.
  cbv zeta in Hs.
  repeat match type of Hs with
         | mbind _ ?x = None =>
             let E := fresh "E" in
             destruct x eqn:E; cbn [mbind option_bind] in Hs;
             [| clear Hs;
                first [ apply toEnumValue_None in E
                      | apply text_None in E
                      | destruct (String_of _) eqn:E' in E; [discriminate E|];
                        apply String_of_None in E'; clear E; rename E' into E
                      | destruct (ToBoolean _) in E; [|discriminate E]; apply text_None in E ];
                raising_property E ]
         end.
  discriminate Hs.
Qed.

(** A value of an always converted property on which [String] raises makes
    the sanitizer raise. *)
Lemma sanitizePayload_raises `{Runtime} payload name value :
  name ∈ ALWAYS_CONVERTED →
  get_prop payload name = Some value → String_raises value = true →
  sanitizePayload payload = None.
Proof.
  intros Hin Hget Hraise.
  destruct (sanitizePayload payload) as [data|] eqn:Hs; [exfalso|done].
  sanitized Hs.
  assert (String_of (js_or value (JStr [])) = None) as Hor.
  { unfold String_of. by rewrite String_raises_or, Hraise. }
  assert (∀ other, String_of (js_nullish value other) = None) as Hnullish.
  { intros other. unfold String_of.
    assert (js_nullish value other = value) as -> by (by destruct value).
    by rewrite Hraise. }
  unfold ALWAYS_CONVERTED in Hin.
  repeat (apply elem_of_cons in Hin as [->|Hin]);
    [..|by apply elem_of_nil in Hin];
    match goal with
    | G : get_prop payload ?name = Some ?v, G' : get_prop payload ?name = Some value |- _ =>
        rewrite G' in G; injection G as <-
    end;
    unfold toEnumValue in *;
    match goal with
    | E : context [String_of (js_or value (JStr _))] |- _ =>
        rewrite ?Hor in E;
        first [ discriminate E
              | unfold String_of in E; rewrite String_raises_or, Hraise in E by done;
                discriminate E ]
    | E : context [String_of (js_nullish value _)] |- _ =>
        rewrite Hnullish in E; discriminate E
    end.
Qed.

(** C10. Whatever the parsed body is, the sanitizer either returns a record
    whose camp type, meal plan and accommodation are codes of the price
    table, on which the validator pushes none of the three invalid-option
    messages; or it raises a TypeError, and then the body is [null], which
    has no properties to read, or a property the sanitizer converts holds a
    value that [String] cannot convert.  Such a value of a property that
    is always converted does make it raise. *)
Theorem sanitized_options_always_valid `{Runtime} (payload : jsval) :
  match sanitizePayload payload with
  | Some data =>
      d_campType data ∈ [js "iaido"; js "jodo"; js "both"]
      ∧ d_mealPlan data ∈ [js "none"; js "lunch"; js "full"]
      ∧ d_accommodation data ∈ [js "none"; js "dojo"; js "guesthouse"]
      ∧ ("Invalid seminar selection." ∉ validateRegistration data)
      ∧ ("Invalid meal option." ∉ validateRegistration data)
      ∧ ("Invalid accommodation option." ∉ validateRegistration data)
  | None =>
      payload = JNull ∨ payload = JUndefined
      ∨ ∃ name value,
          name ∈ ALWAYS_CONVERTED ++ SOMETIMES_CONVERTED
          ∧ get_prop payload name = Some value ∧ String_raises value = true
  end
  ∧ ∀ name value,
      name ∈ ALWAYS_CONVERTED →
      get_prop payload name = Some value → String_raises value = true →
      sanitizePayload payload = None.
Proof.
  split; [|apply sanitizePayload_raises].
  destruct (sanitizePayload payload) as [data|] eqn:E.
  - destruct (sanitizePayload_enums _ _ E) as (Hc & Hm & Ha).
    rewrite invalid_seminar_reported, invalid_meal_reported, invalid_accommodation_reported.
    rewrite Hc, Hm, Ha.
    apply hasOwnProperty_keys in Hc, Hm, Ha.
    repeat split; try done.
  - by apply sanitizePayload_None.
Qed.

(** ** Contention-retry wrapper *)

Example always_locked_run :
  runWithSqliteRetry always_locked no_interference 0%nat =
  (Thrown database_is_locked, 5%nat,
   [ Invoked 1 (Thrown database_is_locked); Slept 120;
     Invoked 2 (Thrown database_is_locked); Slept 240;
     Invoked 3 (Thrown database_is_locked); Slept 360;
     Invoked 4 (Thrown database_is_locked); Slept 480;
     Invoked 5 (Thrown database_is_locked) ]).
Proof. vm_compute. reflexivity. Qed.

Example locked_twice_run :
  runWithSqliteRetry locked_twice no_interference 0%nat =
  (Returned 1, 3%nat,
   [ Invoked 1 (Thrown database_is_locked); Slept 120;
     Invoked 2 (Thrown database_is_locked); Slept 240;
     Invoked 3 (Returned 1) ]).
Proof. vm_compute. reflexivity. Qed.

Example violates_constraint_run :
  runWithSqliteRetry violates_constraint no_interference 0%nat =
  (Thrown constraint_failed, 1%nat, [ Invoked 1 (Thrown constraint_failed) ]).
Proof. vm_compute. reflexivity. Qed.

(** The classifier: the code is one of the two contention codes, or the
    message contains one of the two phrases, letter case apart. *)
Lemma isSqliteBusyError_spec error :
  let code := ToString (js_or (err_code error) (JStr [])) in
  let message := ToString (js_or (err_message error) (JStr [])) in
  isSqliteBusyError error = true
  ↔ code = js "SQLITE_BUSY" ∨ code = js "SQLITE_LOCKED"
    ∨ contains_ci "database is locked" message
    ∨ contains_ci "database is busy" message.
Proof.
  unfold isSqliteBusyError. cbv zeta.
  rewrite !orb_true_iff, !bool_decide_eq_true, !test_search_literal_ci. tauto.
Qed.

Section RetryFacts.
Context {W A : Type}.
Variable operation : W → outcome A * W.
Variable sleep : Z → W → W.

Lemma retry_loop_spec remaining attempt w :
  (1 ≤ remaining)%nat →
  (remaining + attempt = S SQLITE_RETRY_MAX_ATTEMPTS)%nat →
  let '(final, _, log) := retry_loop operation sleep remaining attempt w in
  ∃ (failures : list js_error) (last : outcome A),
    (length failures < remaining)%nat
    ∧ Forall (fun e => isSqliteBusyError e = true) failures
    ∧ log = retried attempt failures ++ [Invoked (attempt + length failures) last]
    ∧ final = last
    ∧ match last with
      | Returned _ => True
      | Thrown e =>
          isSqliteBusyError e = false
          ∨ (attempt + length failures)%nat = SQLITE_RETRY_MAX_ATTEMPTS
      end.
Proof.
  revert attempt w. induction remaining as [|remaining IH]; intros attempt w Hpos Hsum;
    [lia|].
  simpl. destruct (operation w) as [[a|error] w1].
  - exists [], (Returned a). simpl. rewrite Nat.add_0_r. repeat split; [lia | constructor].
  - destruct (isSqliteBusyError error) eqn:Hbusy; simpl.
    + destruct (attempt <? SQLITE_RETRY_MAX_ATTEMPTS)%nat eqn:Hlt; simpl.
      * apply Nat.ltb_lt in Hlt.
        specialize (IH (S attempt)
                      (sleep (SQLITE_RETRY_BASE_DELAY_MS * Z.of_nat attempt) w1)).
        destruct (retry_loop operation sleep remaining (S attempt) _) as [[final w2] log].
        destruct IH as (failures & last & Hlen & Hall & -> & -> & Hlast); [lia | lia |].
        exists (error :: failures), last.
        cbn [length retried app].
        replace (attempt + S (length failures))%nat
          with (S attempt + length failures)%nat by lia.
        repeat split; [lia | by constructor | done].
      * apply Nat.ltb_ge in Hlt.
        exists [], (Thrown error). simpl. rewrite Nat.add_0_r.
        repeat split; [lia | constructor |]. right. lia.
    + exists [], (Thrown error). simpl. rewrite Nat.add_0_r.
      repeat split; [lia | constructor |]. by left.
Qed.
End RetryFacts.

(** C2 (as amended).  An error is retryable exactly when its code is
    SQLITE_BUSY or SQLITE_LOCKED or its message contains 'database is
    locked' or 'database is busy'.  The wrapper invokes the operation at
    most 5 times; every invocation but the last threw a retryable error and
    was followed by a delay of attempt number × 120 ms; the result of the
    wrapper is the outcome of the last invocation, which is a returned
    value, or a non-retryable error (raised at once, no delay after it), or
    the error of the fifth attempt: that error itself is raised again. *)
Theorem runWithSqliteRetry_reraises_last_error {W A : Type}
    (operation : W → outcome A * W) (sleep : Z → W → W) (w : W) :
  (∀ error,
     isSqliteBusyError error = true
     ↔ ToString (js_or (err_code error) (JStr [])) = js "SQLITE_BUSY"
       ∨ ToString (js_or (err_code error) (JStr [])) = js "SQLITE_LOCKED"
       ∨ contains_ci "database is locked" (ToString (js_or (err_message error) (JStr [])))
       ∨ contains_ci "database is busy" (ToString (js_or (err_message error) (JStr []))))
  ∧ SQLITE_RETRY_BASE_DELAY_MS = 120
  ∧ let '(final, _, log) := runWithSqliteRetry operation sleep w in
    ∃ (failures : list js_error) (last : outcome A),
      (length failures < 5)%nat
      ∧ Forall (fun e => isSqliteBusyError e = true) failures
      ∧ log = retried 1 failures ++ [Invoked (S (length failures)) last]
      ∧ final = last
      ∧ match last with
        | Returned _ => True
        | Thrown e => isSqliteBusyError e = false ∨ length failures = 4%nat
        end.
Proof.
  split; [apply isSqliteBusyError_spec|]. split; [done|].
  unfold runWithSqliteRetry.
  pose proof (retry_loop_spec operation sleep SQLITE_RETRY_MAX_ATTEMPTS 1 w) as H.
  destruct (retry_loop operation sleep SQLITE_RETRY_MAX_ATTEMPTS 1 w) as [[final w'] log].
  destruct H as (failures & last & Hlen & Hall & Hlog & Hfinal & Hlast);
    [unfold SQLITE_RETRY_MAX_ATTEMPTS; lia | done |].
  exists failures, last. repeat split; try done.
  destruct last as [a|e]; [done|].
  destruct Hlast as [?|Hmax]; [by left | right].
  unfold SQLITE_RETRY_MAX_ATTEMPTS in Hmax. lia.
Qed.

(** C2 as stated fails: when all five attempts find the database locked,
    the wrapper raises the error of the fifth attempt, not a 'retry
    exhausted' error. *)
Lemma retry_exhausted_is_not_raised :
  let '(final, _, log) := runWithSqliteRetry always_locked no_interference 0%nat in
  isSqliteBusyError database_is_locked = true
  ∧ log = retried 1 (replicate 4 database_is_locked) ++ [Invoked 5 (Thrown database_is_locked)]
  ∧ final = Thrown database_is_locked
  ∧ final ≠ Thrown (Error "SQLite retry exhausted.").
Proof. vm_compute. repeat split; discriminate. Qed.

(** ** Registration store *)

Example JSON_stringify_pricing_default :
  JSON_stringify_pricing
    <$> calculatePricing {| in_campType := JUndefined; in_mealPlan := JUndefined;
                            in_accommodation := JUndefined |}
  = Some
    (js "{" ++ json_prop "selection"
        (js "{" ++ json_prop "campType" (json_quote (js "iaido")) ++ js ","
         ++ json_prop "mealPlan" (json_quote (js "none")) ++ js ","
         ++ json_prop "accommodation" (json_quote (js "none")) ++ js "}") ++ js ","
    ++ json_prop "lineItems"
        (js "[{" ++ json_prop "key" (json_quote (js "campType")) ++ js ","
         ++ json_prop "code" (json_quote (js "iaido")) ++ js ","
         ++ json_prop "label" (json_quote (js "Iaido seminar")) ++ js ","
         ++ json_prop "amountHuf" (js "149") ++ js "},{"
         ++ json_prop "key" (json_quote (js "mealPlan")) ++ js ","
         ++ json_prop "code" (json_quote (js "none")) ++ js ","
         ++ json_prop "label" (json_quote (js "No meal")) ++ js ","
         ++ json_prop "amountHuf" (js "0") ++ js "},{"
         ++ json_prop "key" (json_quote (js "accommodation")) ++ js ","
         ++ json_prop "code" (json_quote (js "none")) ++ js ","
         ++ json_prop "label" (json_quote (js "No accommodation")) ++ js ","
         ++ json_prop "amountHuf" (js "0") ++ js "}]") ++ js ","
    ++ json_prop "totalHuf" (js "149") ++ js ","
    ++ json_prop "currency" (json_quote (js "EUR")) ++ js "}").
Proof. vm_compute. reflexivity. Qed.

Example register_valid_body :
  let db :=
    @handle sample_runtime (PostRegister sample_env (sent valid_body)) store_with_deleted in
  (fun r => (col r "id", col r "status", col r "amount_huf", col r "current_grade",
             col r "wants_exam", col r "target_grade")) <$> rows db
  = [ (SqlText (js "reg_1"), SqlText (js "DELETED"), SqlInt 149, SqlText (js "2 dan"),
       SqlInt 0, SqlText []);
      (SqlText (js "reg_0b0e8a3e-5d0c-4a57-9d0a-7f1f4f1f2a10"),
       SqlText (js "PENDING_PAYMENT"), SqlInt 249, SqlText (js "4 dan"),
       SqlInt 1, SqlText (js "5th dan")) ].
Proof. vm_compute. reflexivity. Qed.

Example anonymize_deleted_registration :
  let '(db, changes) := anonymizeRegistration store_with_deleted (js "reg_1") in
  changes = 1
  ∧ (fun r => (col r "id", col r "status", col r "full_name", col r "email",
               col r "phone", col r "billing_zip", col r "camp_type", col r "amount_huf"))
      <$> rows db
    = [ (SqlText (js "reg_1"), SqlText (js "ANONYMIZED"), SqlText (js "ANONYMIZED"),
         SqlText (js "anonymized-reg_1@example.invalid"), SqlText [], SqlText [],
         SqlText (js "iaido"), SqlInt 149) ]
  ∧ anonymizeRegistration db (js "reg_1") = (db, 1).
Proof. vm_compute. repeat split; reflexivity. Qed.

Example mark_deleted_unknown_id :
  updateRegistrationStatus store_with_deleted (js "reg_2") (js "DELETED")
  = (store_with_deleted, 0).
Proof. vm_compute. reflexivity. Qed.

Lemma sql_update_lookup where_ set db i :
  rows (sql_update where_ set db) !! i
  = (fun r => if where_ r then set r else r) <$> (rows db !! i).
Proof. unfold sql_update; simpl. by rewrite list_lookup_fmap. Qed.

Lemma col_insert_eq (r : gmap string sqlval) c v : col (<[c := v]> r) c = v.
Proof. unfold col. by rewrite lookup_insert_eq. Qed.

Lemma col_insert_ne (r : gmap string sqlval) c c' v :
  c ≠ c' → col (<[c := v]> r) c' = col r c'.
Proof. intros. unfold col. by rewrite lookup_insert_ne. Qed.

(** Reads a column of a row built by a chain of assignments. *)
Ltac read_col :=
  repeat first [ rewrite col_insert_eq | rewrite col_insert_ne by discriminate ].

(** The columns that C5 lists as kept are none of the assigned ones. *)
Lemma kept_columns_not_assigned :
  Forall (fun c => c ∉ ANONYMIZED_COLUMNS)
    [ "id"; "created_at"; "camp_type"; "meal_plan"; "accommodation"; "amount_huf";
      "currency"; "price_breakdown"; "current_grade"; "current_grade_iaido";
      "current_grade_jodo"; "wants_exam"; "target_grade"; "wants_exam_iaido";
      "target_grade_iaido"; "wants_exam_jodo"; "target_grade_jodo"; "privacy_consent";
      "terms_consent"; "privacy_policy_version"; "terms_version"; "privacy_consent_at";
      "terms_consent_at" ].
Proof.
  repeat constructor; apply (bool_decide_unpack _); vm_compute; exact I.
Qed.

(** C5. Anonymize leaves the schema, the number of rows and every row with
    another id as they are.  In a row with the given id it sets the status
    to 'ANONYMIZED', the full name to the placeholder 'ANONYMIZED', the
    email to the placeholder built from the id, and clears phone, date of
    birth, city, the five billing columns and the food note; every column
    it does not assign keeps its value: id, created_at, camp type, meal
    plan, accommodation, amount, currency, price breakdown, the grade and
    exam columns and the consent columns are among them.  Neither a status
    update nor anonymize changes the id or created_at of any row. *)
Theorem anonymizeRegistration_frame (db : table) (registrationId status : jsstring) :
  let db' := (anonymizeRegistration db registrationId).1 in
  let updated := (updateRegistrationStatus db registrationId status).1 in
  columns db' = columns db
  ∧ length (rows db') = length (rows db)
  ∧ (∀ i r, rows db !! i = Some r →
       ∃ r', rows db' !! i = Some r'
         ∧ if id_is registrationId r then
             col r' "status" = SqlText (js "ANONYMIZED")
             ∧ col r' "full_name" = SqlText (js "ANONYMIZED")
             ∧ col r' "email"
               = SqlText (js "anonymized-" ++ registrationId ++ js "@example.invalid")
             ∧ Forall (fun c => col r' c = SqlText [])
                 [ "phone"; "date_of_birth"; "city"; "billing_full_name"; "billing_zip";
                   "billing_city"; "billing_address"; "billing_country"; "food_notes" ]
             ∧ (∀ c, c ∉ ANONYMIZED_COLUMNS → r' !! c = r !! c)
             ∧ Forall (fun c => r' !! c = r !! c)
                 [ "id"; "created_at"; "camp_type"; "meal_plan"; "accommodation";
                   "amount_huf"; "currency"; "price_breakdown"; "current_grade";
                   "current_grade_iaido"; "current_grade_jodo"; "wants_exam";
                   "target_grade"; "wants_exam_iaido"; "target_grade_iaido";
                   "wants_exam_jodo"; "target_grade_jodo"; "privacy_consent";
                   "terms_consent"; "privacy_policy_version"; "terms_version";
                   "privacy_consent_at"; "terms_consent_at" ]
           else r' = r)
  ∧ (∀ i r, rows db !! i = Some r →
       ∃ r', rows db' !! i = Some r'
         ∧ r' !! "id" = r !! "id" ∧ r' !! "created_at" = r !! "created_at")
  ∧ (∀ i r, rows db !! i = Some r →
       ∃ r', rows updated !! i = Some r'
         ∧ r' !! "id" = r !! "id" ∧ r' !! "created_at" = r !! "created_at").
Proof.
  intros db' updated.
  assert (Hframe : ∀ (r : gmap string sqlval) c v1 v2 v3 v4 v5 v6 v7 v8 v9 v10 v11 v12,
             c ∉ ANONYMIZED_COLUMNS →
             (<["status" := v1]> (<["full_name" := v2]> (<["email" := v3]>
              (<["phone" := v4]> (<["date_of_birth" := v5]> (<["city" := v6]>
              (<["billing_full_name" := v7]> (<["billing_zip" := v8]>
              (<["billing_city" := v9]> (<["billing_address" := v10]>
              (<["billing_country" := v11]> (<["food_notes" := v12]> r))))))))))))
             !! c = r !! c).
  { intros r c v1 v2 v3 v4 v5 v6 v7 v8 v9 v10 v11 v12 Hc.
    unfold ANONYMIZED_COLUMNS in Hc.
    repeat (apply not_elem_of_cons in Hc as [? Hc]).
    by rewrite !lookup_insert_ne by done. }
  split; [done|]. split; [unfold db'; simpl; by rewrite length_fmap|].
  split; [|split].
  - intros i r Hr. unfold db', anonymizeRegistration. cbn [fst].
    rewrite sql_update_lookup, Hr. cbn [fmap option_fmap option_map].
    eexists; split; [reflexivity|].
    destruct (id_is registrationId r); [|done].
    split; [by read_col|]. split; [by read_col|]. split; [by read_col|].
    split; [repeat constructor; by read_col|].
    split; [intros c Hc; by apply Hframe|].
    eapply Forall_impl; [apply kept_columns_not_assigned|].
    intros c Hc. by apply Hframe.
  - intros i r Hr. unfold db', anonymizeRegistration. cbn [fst].
    rewrite sql_update_lookup, Hr. cbn [fmap option_fmap option_map].
    eexists; split; [reflexivity|].
    destruct (id_is registrationId r); [|done].
    split; apply Hframe; apply (bool_decide_unpack _); vm_compute; exact I.
  - intros i r Hr. unfold updated, updateRegistrationStatus. cbn [fst].
    rewrite sql_update_lookup, Hr. cbn [fmap option_fmap option_map].
    eexists; split; [reflexivity|].
    destruct (id_is registrationId r); [|done].
    split; by rewrite lookup_insert_ne.
Qed.

Lemma insert_row_lookup db values db' i r :
  insert_row db values = Returned db' → rows db !! i = Some r → rows db' !! i = Some r.
Proof.
  unfold insert_row. intros H Hr.
  repeat match type of H with (if ?b then _ else _) = _ => destruct b; try discriminate H end.
  injection H as <-. simpl. by apply lookup_app_l_Some.
Qed.

Lemma status_update_terminal (r : gmap string sqlval) :
  is_terminal (status_of (<["status" := SqlText (js "DELETED")]> r)).
Proof. left. unfold status_of. by read_col. Qed.

(** One request keeps a row in place, with its id, and keeps a terminal
    status terminal. *)
Lemma handle_keeps_terminal `{Runtime} rq db i r :
  rows db !! i = Some r → is_terminal (status_of r) →
  ∃ r', rows (handle rq db) !! i = Some r' ∧ r' !! "id" = r !! "id"
        ∧ is_terminal (status_of r').
Proof.
  intros Hr Hterm. destruct rq as [env body|body|body]; unfold handle.
  - match goal with
    | |- context [mbind ?f ?x] => destruct (mbind f x) as [cleanBody|]
    end; [|by exists r].
    destruct (validateRegistration cleanBody); [|by exists r].
    destruct (calculatePricing _) as [pricing|]; [|by exists r].
    cbv zeta.
    destruct (insertRegistration db _) as [db'|e] eqn:E; [|by exists r].
    exists r. split; [|done]. eapply insert_row_lookup; [exact E | done].
  - match goal with
    | |- context [mbind ?f ?x] => destruct (mbind f x) as [[|c registrationId]|]
    end; try by exists r.
    unfold updateRegistrationStatus. cbn [fst].
    rewrite sql_update_lookup, Hr. cbn [fmap option_fmap option_map].
    eexists; split; [reflexivity|].
    destruct (id_is _ r); [|done].
    split; [by rewrite lookup_insert_ne | apply status_update_terminal].
  - match goal with
    | |- context [mbind ?f ?x] => destruct (mbind f x) as [[|c registrationId]|]
    end; try by exists r.
    unfold anonymizeRegistration. cbn [fst].
    rewrite sql_update_lookup, Hr. cbn [fmap option_fmap option_map].
    eexists; split; [reflexivity|].
    destruct (id_is _ r); [|done].
    split; [by rewrite !lookup_insert_ne by done|].
    right. unfold status_of. by read_col.
Qed.

(** C1 (as amended).  Whatever requests are served (registrations,
    mark-deleted and anonymize calls, in any number and order), a
    registration whose status is DELETED or ANONYMIZED stays in the store
    under the same id with a status that is DELETED or ANONYMIZED: it is
    never PAID or PENDING_PAYMENT again.  Anonymize sets the status
    ANONYMIZED on every registration it targets, a DELETED one included. *)
Theorem terminal_statuses_stay_terminal `{Runtime} (requests : list request) (db : table)
    (i : nat) (r : gmap string sqlval) :
  rows db !! i = Some r →
  is_terminal (status_of r) →
  (∃ r', rows (serve requests db) !! i = Some r'
         ∧ r' !! "id" = r !! "id"
         ∧ is_terminal (status_of r')
         ∧ status_of r' ≠ SqlText (js "PAID")
         ∧ status_of r' ≠ SqlText (js "PENDING_PAYMENT"))
  ∧ (∀ registrationId, id_is registrationId r = true →
       status_of <$> rows (anonymizeRegistration db registrationId).1 !! i
       = Some (SqlText (js "ANONYMIZED"))).
Proof.
  intros Hr Hterm. split.
  - assert (∃ r', rows (serve requests db) !! i = Some r' ∧ r' !! "id" = r !! "id"
                  ∧ is_terminal (status_of r')) as (r' & H1 & H2 & H3).
    { revert db r Hr Hterm. unfold serve.
      induction requests as [|rq requests IH]; intros db r Hr Hterm; simpl.
      - by exists r.
      - destruct (handle_keeps_terminal rq db i r Hr Hterm) as (r1 & Hr1 & Hid1 & Ht1).
        destruct (IH _ _ Hr1 Ht1) as (r2 & Hr2 & Hid2 & Ht2).
        exists r2. split; [done|]. split; [congruence | done]. }
    exists r'. repeat split; try done.
    + destruct H3 as [-> | ->]; discriminate.
    + destruct H3 as [-> | ->]; discriminate.
  - intros registrationId Hid. unfold anonymizeRegistration. cbn [fst].
    rewrite sql_update_lookup, Hr. cbn [fmap option_fmap option_map].
    rewrite Hid. unfold status_of. by read_col.
Qed.

(** C1 (as amended) on the store with one deleted registration, through a
    registration, an anonymize call and a mark-deleted call. *)
Lemma terminal_statuses_stay_terminal_witness :
  (∃ r', rows (@serve sample_runtime
                 [ PostRegister sample_env (sent valid_body);
                   PostAnonymize (sent (request_for "reg_1"));
                   PostMarkDeleted (sent (request_for "reg_1")) ] store_with_deleted) !! 0%nat
         = Some r'
         ∧ r' !! "id" = deleted_row !! "id"
         ∧ is_terminal (status_of r')
         ∧ status_of r' ≠ SqlText (js "PAID")
         ∧ status_of r' ≠ SqlText (js "PENDING_PAYMENT"))
  ∧ (∀ registrationId, id_is registrationId deleted_row = true →
       status_of <$> rows (anonymizeRegistration store_with_deleted registrationId).1 !! 0%nat
       = Some (SqlText (js "ANONYMIZED"))).
Proof.
  apply (@terminal_statuses_stay_terminal sample_runtime _ store_with_deleted 0 deleted_row).
  - reflexivity.
  - left. vm_compute. reflexivity.
Defined.

(** C1 as stated fails: the status of a DELETED registration changes when
    it is anonymized, and the status of an ANONYMIZED one when it is marked
    deleted. *)
Lemma deleted_registration_changes_status :
  status_of <$> rows store_with_deleted = [SqlText (js "DELETED")]
  ∧ status_of <$> rows (@handle sample_runtime (PostAnonymize (sent (request_for "reg_1")))
                          store_with_deleted)
    = [SqlText (js "ANONYMIZED")]
  ∧ status_of <$> rows (@serve sample_runtime
                          [ PostAnonymize (sent (request_for "reg_1"));
                            PostMarkDeleted (sent (request_for "reg_1")) ]
                          store_with_deleted)
    = [SqlText (js "DELETED")].
Proof. vm_compute. repeat split; reflexivity. Qed.

(** ** Schema migration *)

Example migrate_old_store :
  let '(db, error) := ensureRegistrationColumns old_store in
  error = None
  ∧ columns db = old_columns ++
      [ "current_grade_iaido"; "current_grade_jodo"; "wants_exam_iaido";
        "target_grade_iaido"; "wants_exam_jodo"; "target_grade_jodo";
        "privacy_policy_version"; "terms_version"; "privacy_consent_at";
        "terms_consent_at" ]
  ∧ (fun r => (col r "current_grade_iaido", col r "wants_exam_iaido",
               col r "target_grade_iaido", col r "wants_exam_jodo")) <$> rows db
    = [ (SqlText (js "1 dan"), SqlInt 1, SqlText (js "2 dan"), SqlInt 0);
        (SqlText (js "3 kyu"), SqlInt 0, SqlNull, SqlInt 0) ]
  ∧ ensureRegistrationColumns db = (db, None).
Proof. vm_compute. repeat split; reflexivity. Qed.

Example migrate_without_wants_exam :
  let '(db, error) := ensureRegistrationColumns {| columns := ["id"]; rows := [] |} in
  error = Some (sqlite_error "no such column")
  ∧ columns db = "id" :: ADDED_COLUMNS.*1.
Proof. vm_compute. repeat split; reflexivity. Qed.

Lemma add_column_if_missing_columns columnNames db column c :
  c ∈ columns db → c ∈ columns (add_column_if_missing columnNames db column).
Proof.
  unfold add_column_if_missing. case_bool_decide; [done|].
  simpl. intros. apply elem_of_app. by left.
Qed.

Lemma fold_add_columns_keeps columnNames added db c :
  c ∈ columns db → c ∈ columns (fold_left (add_column_if_missing columnNames) added db).
Proof.
  revert db. induction added as [|column added IH]; intros db Hc; simpl; [done|].
  apply IH. by apply add_column_if_missing_columns.
Qed.

Lemma fold_add_columns_adds columnNames added db c :
  c ∈ added.*1 →
  c ∈ columnNames ∨ c ∈ columns (fold_left (add_column_if_missing columnNames) added db).
Proof.
  revert db. induction added as [|[c0 d0] added IH]; intros db Hc; simpl in *.
  - by apply elem_of_nil in Hc.
  - apply elem_of_cons in Hc as [->|Hc]; [|by apply IH].
    destruct (decide (c0 ∈ columnNames)) as [|Hno]; [by left|].
    right. apply fold_add_columns_keeps.
    unfold add_column_if_missing. rewrite bool_decide_eq_false_2 by done.
    simpl. apply elem_of_app. right. by left.
Qed.

(** Nothing is added to a table that has the columns already. *)
Lemma fold_add_columns_present columnNames added db :
  (∀ c, c ∈ added.*1 → c ∈ columnNames) →
  fold_left (add_column_if_missing columnNames) added db = db.
Proof.
  revert db. induction added as [|[c0 d0] added IH]; intros db Hall; simpl; [done|].
  unfold add_column_if_missing at 2. simpl.
  rewrite bool_decide_eq_true_2 by (apply Hall; simpl; by left).
  apply IH. intros c Hc. apply Hall. simpl. by right.
Qed.

Lemma sql_update_fixed (where_ : gmap string sqlval → bool)
    (set : gmap string sqlval → gmap string sqlval) (db : table) :
  (∀ r, r ∈ rows db → (if where_ r then set r else r) = r) →
  sql_update where_ set db = db.
Proof.
  intros H. destruct db as [cs rs]. unfold sql_update; simpl in *. f_equal.
  induction rs as [|r rs IH]; simpl; [done|].
  rewrite H by (by left). f_equal. apply IH. intros r' Hr'. apply H. by right.
Qed.

Lemma elem_of_sql_update_rows (where_ : gmap string sqlval → bool)
    (set : gmap string sqlval → gmap string sqlval) (db : table) r' :
  r' ∈ rows (sql_update where_ set db) →
  ∃ r, r ∈ rows db ∧ r' = if where_ r then set r else r.
Proof.
  unfold sql_update; simpl. intros (r & -> & Hr)%list_elem_of_fmap. by exists r.
Qed.

(** A row the exam backfill has seen is not selected by it again. *)
Lemma backfill_exam_where_after r :
  backfill_exam_where (if backfill_exam_where r then backfill_exam_set r else r) = false.
Proof.
  destruct (backfill_exam_where r) eqn:Hw; [|done].
  unfold backfill_exam_where in *.
  destruct (wants_exam_is_1 r) as [[|]|] eqn:H1;
    [| by simpl in Hw
     | by destruct (sql_eq (col r "wants_exam_iaido") (SqlInt 0)) as [[|]|],
            (sql_eq (col r "wants_exam_jodo") (SqlInt 0)) as [[|]|] ].
  assert (wants_exam_is_1 (backfill_exam_set r) = Some true) as ->.
  { unfold wants_exam_is_1, backfill_exam_set in *. by read_col. }
  assert (col (backfill_exam_set r) "wants_exam_iaido" = SqlInt 1) as ->.
  { unfold backfill_exam_set. rewrite H1. by read_col. }
  done.
Qed.

Lemma backfill_exam_where_grade r :
  backfill_exam_where (if backfill_grade_where r then backfill_grade_set r else r)
  = backfill_exam_where r.
Proof.
  destruct (backfill_grade_where r); [|done].
  unfold backfill_exam_where, wants_exam_is_1, backfill_grade_set. by read_col.
Qed.

Lemma backfill_grade_twice r :
  let r1 := if backfill_grade_where r then backfill_grade_set r else r in
  (if backfill_grade_where r1 then backfill_grade_set r1 else r1) = r1.
Proof.
  cbv zeta. destruct (backfill_grade_where r) eqn:Hw.
  - destruct (backfill_grade_where (backfill_grade_set r)) eqn:Hw'; [|done].
    unfold backfill_grade_where in Hw, Hw'.
    unfold backfill_grade_set at 1. rewrite Hw'.
    unfold backfill_grade_set. rewrite Hw. read_col.
    by rewrite insert_insert_eq.
  - by rewrite Hw.
Qed.

Lemma backfill_exam_fixed db :
  sql_update backfill_exam_where backfill_exam_set
    (sql_update backfill_exam_where backfill_exam_set db)
  = sql_update backfill_exam_where backfill_exam_set db.
Proof.
  apply sql_update_fixed. intros r' (r & _ & ->)%elem_of_sql_update_rows.
  by rewrite backfill_exam_where_after.
Qed.

Lemma backfill_grade_fixed db :
  sql_update backfill_grade_where backfill_grade_set
    (sql_update backfill_grade_where backfill_grade_set db)
  = sql_update backfill_grade_where backfill_grade_set db.
Proof.
  apply sql_update_fixed. intros r' (r & _ & ->)%elem_of_sql_update_rows.
  apply backfill_grade_twice.
Qed.

Lemma backfill_exam_after_grade_fixed db :
  sql_update backfill_exam_where backfill_exam_set
    (sql_update backfill_grade_where backfill_grade_set
       (sql_update backfill_exam_where backfill_exam_set db))
  = sql_update backfill_grade_where backfill_grade_set
      (sql_update backfill_exam_where backfill_exam_set db).
Proof.
  apply sql_update_fixed. intros r2 (r1 & Hr1 & ->)%elem_of_sql_update_rows.
  apply elem_of_sql_update_rows in Hr1 as (r & _ & ->).
  by rewrite backfill_exam_where_grade, backfill_exam_where_after.
Qed.

Lemma exec_update_returned used (where_ : gmap string sqlval → bool)
    (set : gmap string sqlval → gmap string sqlval) (db db' : table) :
  exec_update used where_ set db = Returned db' → db' = sql_update where_ set db.
Proof. unfold exec_update. destruct (forallb _ _); [by intros [= <-] | done]. Qed.

(** Whether an update is refused depends on the schema alone. *)
Lemma exec_update_same_schema used (where_ : gmap string sqlval → bool)
    (set : gmap string sqlval → gmap string sqlval) (db db' : table) :
  columns db' = columns db →
  exec_update used where_ set db'
  = match exec_update used where_ set db with
    | Returned _ => Returned (sql_update where_ set db')
    | Thrown e => Thrown e
    end.
Proof. unfold exec_update. intros ->. by destruct (forallb _ _). Qed.

(** Running the migration on the store it left gives the same store and
    the same outcome. *)
Lemma ensureRegistrationColumns_twice db :
  ensureRegistrationColumns (ensureRegistrationColumns db).1 = ensureRegistrationColumns db.
Proof.
  unfold ensureRegistrationColumns at 2 3.
  set (db1 := fold_left (add_column_if_missing (columns db)) ADDED_COLUMNS db).
  assert (Hadded : ∀ c, c ∈ ADDED_COLUMNS.*1 → c ∈ columns db1).
  { intros c Hc. destruct (fold_add_columns_adds (columns db) ADDED_COLUMNS db c Hc) as [H|H];
      [by apply fold_add_columns_keeps | done]. }
  assert (Hrun : ∀ X, columns X = columns db1 →
            fold_left (add_column_if_missing (columns X)) ADDED_COLUMNS X = X).
  { intros X HX. apply fold_add_columns_present.
    intros c Hc. rewrite HX. by apply Hadded. }
  destruct (exec_update _ backfill_exam_where backfill_exam_set db1) as [db2|e1] eqn:E1.
  - pose proof (exec_update_returned _ _ _ _ _ E1) as ->.
    set (db2 := sql_update backfill_exam_where backfill_exam_set db1) in *.
    assert (H22 : sql_update backfill_exam_where backfill_exam_set db2 = db2)
      by apply backfill_exam_fixed.
    destruct (exec_update _ backfill_grade_where backfill_grade_set db2) as [db3|e2] eqn:E2;
      cbn [fst].
    + pose proof (exec_update_returned _ _ _ _ _ E2) as ->.
      set (db3 := sql_update backfill_grade_where backfill_grade_set db2) in *.
      assert (H33 : sql_update backfill_exam_where backfill_exam_set db3 = db3)
        by apply backfill_exam_after_grade_fixed.
      assert (H33' : sql_update backfill_grade_where backfill_grade_set db3 = db3)
        by apply backfill_grade_fixed.
      unfold ensureRegistrationColumns. rewrite Hrun by done.
      rewrite (exec_update_same_schema _ _ _ db1 db3), E1, H33 by done.
      by rewrite (exec_update_same_schema _ _ _ db2 db3), E2, H33' by done.
    + unfold ensureRegistrationColumns. rewrite Hrun by done.
      rewrite (exec_update_same_schema _ _ _ db1 db2), E1, H22 by done.
      by rewrite E2.
  - cbn [fst]. unfold ensureRegistrationColumns. rewrite Hrun by done.
    by rewrite E1.
Qed.

Lemma fold_add_columns_schema columnNames added db :
  columns (fold_left (add_column_if_missing columnNames) added db)
  = columns db ++ filter (fun c => c ∉ columnNames) added.*1.
Proof.
  revert db. induction added as [|[c0 d0] added IH]; intros db; simpl.
  - by rewrite app_nil_r.
  - rewrite IH. unfold add_column_if_missing; simpl.
    rewrite filter_cons. case_bool_decide.
    + by rewrite decide_False by naive_solver.
    + rewrite decide_True by done. simpl. by rewrite <- app_assoc.
Qed.

Lemma fold_add_columns_row columnNames added db i r :
  rows db !! i = Some r →
  ∃ r1, rows (fold_left (add_column_if_missing columnNames) added db) !! i = Some r1
        ∧ ∀ c, c ∈ columnNames → col r1 c = col r c.
Proof.
  revert db r. induction added as [|[c0 d0] added IH]; intros db r Hr; simpl.
  - by exists r.
  - unfold add_column_if_missing at 2; simpl. case_bool_decide as Hin.
    + by apply IH.
    + edestruct (IH (add_column c0 d0 db)) as (r1 & Hr1 & Hcols).
      { unfold add_column; simpl. by rewrite list_lookup_fmap, Hr. }
      exists r1. split; [done|]. intros c Hc. rewrite Hcols by done.
      apply col_insert_ne. congruence.
Qed.

Lemma fold_add_columns_length columnNames added db :
  length (rows (fold_left (add_column_if_missing columnNames) added db))
  = length (rows db).
Proof.
  revert db. induction added as [|[c d] added IH]; intros db; simpl; [done|].
  rewrite IH. unfold add_column_if_missing; simpl. case_bool_decide; [done|].
  simpl. by rewrite length_fmap.
Qed.

Lemma is_blank_col r r' c : col r' c = col r c → is_blank r' c = is_blank r c.
Proof. unfold is_blank. by intros ->. Qed.

Lemma sql_eq_int_true v z : sql_eq v (SqlInt z) = Some true → v = SqlInt z.
Proof.
  destruct v as [|x|s]; simpl; try done.
  intros [= H%Z.eqb_eq]. by subst.
Qed.

Lemma backfill_exam_respects cols r x :
  backfill_respects cols r x →
  backfill_respects cols r (if backfill_exam_where x then backfill_exam_set x else x).
Proof.
  intros (Hother & Hflag & Htarget & Hgrade).
  destruct (backfill_exam_where x) eqn:Hw; [|done].
  unfold backfill_exam_where in Hw.
  destruct (wants_exam_is_1 x) as [[|]|] eqn:H1;
    [| by simpl in Hw
     | by destruct (sql_eq (col x "wants_exam_iaido") (SqlInt 0)) as [[|]|],
            (sql_eq (col x "wants_exam_jodo") (SqlInt 0)) as [[|]|] ].
  destruct (sql_eq (col x "wants_exam_iaido") (SqlInt 0)) as [[|]|] eqn:H0;
    [| by simpl in Hw
     | by destruct (sql_eq (col x "wants_exam_jodo") (SqlInt 0)) as [[|]|] ].
  apply sql_eq_int_true in H0.
  unfold backfill_exam_set. rewrite H1. simpl sql_true at 1.
  split; [|split; [|split]].
  - intros c Hc Hnot. rewrite <- Hother by done.
    apply not_elem_of_cons in Hnot as [? Hnot]. apply not_elem_of_cons in Hnot as [? _].
    by rewrite !col_insert_ne by done.
  - intros Hin Hne. specialize (Hflag Hin Hne). congruence.
  - intros Hin Hne. specialize (Htarget Hin Hne). read_col.
    rewrite (is_blank_col r x) by done.
    destruct (is_blank r "target_grade_iaido") as [[|]|]; simpl; done.
  - intros Hin Hne. specialize (Hgrade Hin Hne). by read_col.
Qed.

Lemma backfill_grade_respects cols r y :
  backfill_respects cols r y →
  backfill_respects cols r (if backfill_grade_where y then backfill_grade_set y else y).
Proof.
  intros (Hother & Hflag & Htarget & Hgrade).
  destruct (backfill_grade_where y) eqn:Hw; [|done].
  unfold backfill_grade_where in Hw. unfold backfill_grade_set. rewrite Hw.
  split; [|split; [|split]].
  - intros c Hc Hnot. rewrite <- Hother by done.
    apply not_elem_of_cons in Hnot as [? Hnot]. apply not_elem_of_cons in Hnot as [? Hnot].
    apply not_elem_of_cons in Hnot as [? _].
    by rewrite col_insert_ne by done.
  - intros Hin Hne. specialize (Hflag Hin Hne). by read_col.
  - intros Hin Hne. specialize (Htarget Hin Hne). by read_col.
  - intros Hin Hne. specialize (Hgrade Hin Hne).
    rewrite <- (is_blank_col r y) in Hne by done.
    by destruct (is_blank y "current_grade_iaido") as [[|]|].
Qed.

Lemma exec_update_respects used (where_ : gmap string sqlval → bool)
    (set : gmap string sqlval → gmap string sqlval) cols (db db' : table) i r x :
  (∀ x, backfill_respects cols r x →
        backfill_respects cols r (if where_ x then set x else x)) →
  exec_update used where_ set db = Returned db' →
  rows db !! i = Some x → backfill_respects cols r x →
  columns db' = columns db
  ∧ ∃ y, rows db' !! i = Some y ∧ backfill_respects cols r y.
Proof.
  intros Hstep ->%exec_update_returned Hx HP. split; [done|].
  rewrite sql_update_lookup, Hx. simpl. eexists; split; [reflexivity|]. by apply Hstep.
Qed.

(** A run never overwrites a value that is not empty. *)
Lemma ensureRegistrationColumns_respects (db : table) :
  let db' := (ensureRegistrationColumns db).1 in
  columns db' = columns db ++ filter (fun c => c ∉ columns db) ADDED_COLUMNS.*1
  ∧ length (rows db') = length (rows db)
  ∧ ∀ i r, rows db !! i = Some r →
      ∃ r', rows db' !! i = Some r' ∧ backfill_respects (columns db) r r'.
Proof.
  cbv zeta. unfold ensureRegistrationColumns.
  set (db1 := fold_left (add_column_if_missing (columns db)) ADDED_COLUMNS db).
  assert (Hcols1 : columns db1
                   = columns db ++ filter (fun c => c ∉ columns db) ADDED_COLUMNS.*1)
    by apply fold_add_columns_schema.
  assert (Hlen1 : length (rows db1) = length (rows db)).
    by apply fold_add_columns_length.
  assert (Hrow1 : ∀ i r, rows db !! i = Some r →
            ∃ x, rows db1 !! i = Some x ∧ backfill_respects (columns db) r x).
  { intros i r Hr.
    destruct (fold_add_columns_row (columns db) ADDED_COLUMNS db i r Hr) as (x & Hx & Hkeep).
    exists x. split; [done|]. repeat split; intros; by apply Hkeep. }
  destruct (exec_update _ backfill_exam_where backfill_exam_set db1) as [db2|e1] eqn:E1;
    [|done].
  pose proof (exec_update_returned _ _ _ _ _ E1) as Hdb2.
  assert (Hrow2 : ∀ i r, rows db !! i = Some r →
            ∃ y, rows db2 !! i = Some y ∧ backfill_respects (columns db) r y).
  { intros i r Hr. destruct (Hrow1 i r Hr) as (x & Hx & HP).
    eapply exec_update_respects; [apply backfill_exam_respects | exact E1 | exact Hx | exact HP]. }
  assert (Hcols2 : columns db2 = columns db1) by (by subst db2).
  assert (Hlen2 : length (rows db2) = length (rows db1))
    by (subst db2; unfold sql_update; simpl; by rewrite length_fmap).
  destruct (exec_update _ backfill_grade_where backfill_grade_set db2) as [db3|e2] eqn:E2;
    cbn [fst].
  - pose proof (exec_update_returned _ _ _ _ _ E2) as Hdb3.
    split; [by subst db3; simpl; rewrite Hcols2|].
    split; [subst db3; unfold sql_update; simpl; rewrite length_fmap; congruence|].
    intros i r Hr. destruct (Hrow2 i r Hr) as (y & Hy & HP).
    eapply exec_update_respects; [apply backfill_grade_respects | exact E2 | exact Hy | exact HP].
  - split; [congruence|]. split; [congruence|]. done.
Qed.

(** A column the migration adds holds its default in every row. *)
Lemma fold_add_columns_default columnNames added db i r c d :
  NoDup added.*1 → (c, d) ∈ added → c ∉ columnNames →
  rows db !! i = Some r →
  ∃ r1, rows (fold_left (add_column_if_missing columnNames) added db) !! i = Some r1
        ∧ col r1 c = d.
Proof.
  revert db r. induction added as [|[c0 d0] added IH]; intros db r Hnodup Hin Hnot Hr.
  - by apply elem_of_nil in Hin.
  - simpl in Hnodup. apply NoDup_cons in Hnodup as [Hfirst Hnodup].
    apply elem_of_cons in Hin as [[= <- <-]|Hin]; simpl.
    + unfold add_column_if_missing at 2. simpl. rewrite bool_decide_eq_false_2 by done.
      assert (rows (add_column c d db) !! i = Some (<[c := d]> r)) as Hr1.
      { unfold add_column; simpl. by rewrite list_lookup_fmap, Hr. }
      assert (∀ added' X x, c ∉ added'.*1 → rows X !! i = Some x →
                ∃ x', rows (fold_left (add_column_if_missing columnNames) added' X) !! i
                      = Some x' ∧ col x' c = col x c) as Hkeep.
      { clear. induction added' as [|[c1 d1] added' IH']; intros X x Hnot Hx; simpl.
        - by exists x.
        - simpl in Hnot. apply not_elem_of_cons in Hnot as [Hne Hnot].
          unfold add_column_if_missing at 2. simpl. case_bool_decide.
          + by apply IH'.
          + edestruct (IH' (add_column c1 d1 X)) as (x' & Hx' & Hc); [done| |].
            { unfold add_column; simpl. by rewrite list_lookup_fmap, Hx. }
            exists x'. split; [done|]. rewrite Hc. by apply col_insert_ne. }
      destruct (Hkeep added _ _ Hfirst Hr1) as (x' & Hx' & Hc).
      exists x'. split; [done|]. by rewrite Hc, col_insert_eq.
    + unfold add_column_if_missing at 2. simpl. case_bool_decide.
      * by apply (IH db r).
      * apply (IH (add_column c0 d0 db) (<[c0 := d0]> r)); try done.
        unfold add_column; simpl. by rewrite list_lookup_fmap, Hr.
Qed.

(** The rows after the columns are added hold, in every column of the new
    schema, the value the yardstick names. *)
Lemma fold_add_columns_before db i r :
  rows db !! i = Some r →
  ∃ r1, rows (fold_left (add_column_if_missing (columns db)) ADDED_COLUMNS db) !! i = Some r1
        ∧ ∀ c, c ∈ columns db ∨ c ∈ ADDED_COLUMNS.*1 →
               col r1 c = value_before (columns db) r c.
Proof.
  intros Hr.
  destruct (fold_add_columns_row (columns db) ADDED_COLUMNS db i r Hr) as (r1 & Hr1 & Hold).
  exists r1. split; [done|]. intros c Hc. unfold value_before. case_bool_decide as Hin.
  - by apply Hold.
  - destruct Hc as [Hc|Hc]; [done|].
    assert ((c, column_default c) ∈ ADDED_COLUMNS) as Hd.
    { clear Hin. revert c Hc. apply Forall_forall. apply (bool_decide_unpack _).
      by vm_compute. }
    destruct (fold_add_columns_default (columns db) ADDED_COLUMNS db i r c (column_default c))
      as (r1' & Hr1' & Hc'); try done.
    { apply (bool_decide_unpack _). by vm_compute. }
    congruence.
Qed.

Lemma sql_eq_int (v : sqlval) (z : Z) :
  sql_true (sql_eq v (SqlInt z)) = bool_decide (v = SqlInt z).
Proof.
  destruct v as [|x|t]; simpl; try done.
  destruct (Z.eqb_spec x z) as [->|Hne].
  - by rewrite bool_decide_eq_true_2.
  - rewrite bool_decide_eq_false_2; [done|]. by intros [= ?].
Qed.

Lemma is_blank_blank (r : gmap string sqlval) (c : string) :
  sql_true (is_blank r c) = blank (col r c).
Proof. unfold is_blank. by destruct (col r c) as [|z|[|x t]]. Qed.

Lemma sql_true_and (a b : option bool) : sql_true (sql_and a b) = sql_true a && sql_true b.
Proof. by destruct a as [[|]|], b as [[|]|]. Qed.

(** What the first backfill statement does to a row. *)
Lemma backfill_exam_columns (x : gmap string sqlval) :
  let y := if backfill_exam_where x then backfill_exam_set x else x in
  let selected :=
    bool_decide (col x "wants_exam" = SqlInt 1)
    && bool_decide (col x "wants_exam_iaido" = SqlInt 0)
    && bool_decide (col x "wants_exam_jodo" = SqlInt 0) in
  (∀ c, c ∉ ["wants_exam_iaido"; "target_grade_iaido"] → col y c = col x c)
  ∧ col y "wants_exam_iaido" = (if selected then SqlInt 1 else col x "wants_exam_iaido")
  ∧ col y "target_grade_iaido"
    = (if selected && blank (col x "target_grade_iaido")
       then COALESCE (col x "target_grade") (SqlText [])
       else col x "target_grade_iaido").
Proof.
  cbv zeta.
  assert (backfill_exam_where x
          = bool_decide (col x "wants_exam" = SqlInt 1)
            && bool_decide (col x "wants_exam_iaido" = SqlInt 0)
            && bool_decide (col x "wants_exam_jodo" = SqlInt 0)) as Hw.
  { unfold backfill_exam_where, wants_exam_is_1. by rewrite !sql_true_and, !sql_eq_int. }
  rewrite Hw.
  destruct (bool_decide (col x "wants_exam" = SqlInt 1)) eqn:H1; simpl; [|done].
  destruct (bool_decide (col x "wants_exam_iaido" = SqlInt 0)) eqn:H2; simpl; [|done].
  destruct (bool_decide (col x "wants_exam_jodo" = SqlInt 0)) eqn:H3; simpl; [|done].
  apply bool_decide_eq_true in H1.
  unfold backfill_exam_set.
  assert (sql_true (wants_exam_is_1 x) = true) as Hone.
  { unfold wants_exam_is_1. by rewrite sql_eq_int, bool_decide_eq_true_2. }
  rewrite Hone, sql_true_and, Hone, is_blank_blank. simpl andb.
  split; [|split].
  - intros c Hc. apply not_elem_of_cons in Hc as [? Hc]. apply not_elem_of_cons in Hc as [? _].
    by rewrite !col_insert_ne by done.
  - by read_col.
  - by read_col.
Qed.

(** What the second backfill statement does to a row. *)
Lemma backfill_grade_columns (x : gmap string sqlval) :
  let y := if backfill_grade_where x then backfill_grade_set x else x in
  (∀ c, c ≠ "current_grade_iaido" → col y c = col x c)
  ∧ col y "current_grade_iaido"
    = (if blank (col x "current_grade_iaido")
       then COALESCE (col x "current_grade") (SqlText [])
       else col x "current_grade_iaido").
Proof.
  cbv zeta. unfold backfill_grade_where. rewrite is_blank_blank.
  destruct (blank (col x "current_grade_iaido")) eqn:Hb; [|done].
  unfold backfill_grade_set. rewrite is_blank_blank, Hb.
  split; [intros c Hc; by rewrite col_insert_ne | by read_col].
Qed.

(** An update of the backfill is refused exactly when the table lacks a
    column it names. *)
Lemma exec_update_cases used (where_ : gmap string sqlval → bool)
    (set : gmap string sqlval → gmap string sqlval) (db : table) :
  exec_update used where_ set db
  = if bool_decide (Forall (fun c => c ∈ columns db) used)
    then Returned (sql_update where_ set db)
    else Thrown (sqlite_error "no such column").
Proof.
  unfold exec_update. destruct (forallb _ used) eqn:E.
  - rewrite bool_decide_eq_true_2; [done|]. apply Forall_forall. intros c Hc.
    rewrite forallb_forall in E.
    apply list_elem_of_In in Hc. specialize (E c Hc). by apply bool_decide_eq_true in E.
  - rewrite bool_decide_eq_false_2; [done|]. intros Hall. rewrite Forall_forall in Hall.
    apply not_true_iff_false in E. apply E. apply forallb_forall. intros c Hc.
    apply bool_decide_eq_true, Hall. by apply list_elem_of_In.
Qed.

(** The running of the migration: the columns are added, then the first
    update runs when the table has the two combined exam columns, then the
    second when it has the combined grade too. *)
Lemma ensureRegistrationColumns_steps (db : table) :
  let db1 := fold_left (add_column_if_missing (columns db)) ADDED_COLUMNS db in
  let db2 := sql_update backfill_exam_where backfill_exam_set db1 in
  let db3 := sql_update backfill_grade_where backfill_grade_set db2 in
  let has c := bool_decide (c ∈ columns db) in
  ensureRegistrationColumns db
  = if has "wants_exam" && has "target_grade" then
      if has "current_grade" then (db3, None)
      else (db2, Some (sqlite_error "no such column"))
    else (db1, Some (sqlite_error "no such column")).
Proof.
  cbv zeta. unfold ensureRegistrationColumns. cbv zeta.
  set (db1 := fold_left (add_column_if_missing (columns db)) ADDED_COLUMNS db).
  assert (∀ c, c ∈ columns db1 ↔ c ∈ columns db ∨ c ∈ ADDED_COLUMNS.*1) as Hcols.
  { intros c. unfold db1. rewrite fold_add_columns_schema, elem_of_app, list_elem_of_filter.
    destruct (decide (c ∈ columns db)); intuition. }
  rewrite exec_update_cases.
  assert (∀ c, c ∈ ADDED_COLUMNS.*1 → c ∈ columns db1) as Hadded
    by (intros c Hc; apply Hcols; by right).
  assert (∀ c, c ∉ ADDED_COLUMNS.*1 → c ∈ columns db1 ↔ c ∈ columns db) as Hother
    by (intros c Hc; rewrite Hcols; intuition).
  assert (Forall (fun c => c ∈ columns db1)
            [ "wants_exam_iaido"; "wants_exam"; "target_grade_iaido"; "target_grade";
              "wants_exam_jodo" ]
          ↔ "wants_exam" ∈ columns db ∧ "target_grade" ∈ columns db) as Hexam.
  { rewrite !Forall_cons, Forall_nil.
    rewrite (Hother "wants_exam"), (Hother "target_grade")
      by (apply (bool_decide_unpack _); by vm_compute).
    assert ("wants_exam_iaido" ∈ columns db1)
      by (apply Hadded, (bool_decide_unpack _); by vm_compute).
    assert ("target_grade_iaido" ∈ columns db1)
      by (apply Hadded, (bool_decide_unpack _); by vm_compute).
    assert ("wants_exam_jodo" ∈ columns db1)
      by (apply Hadded, (bool_decide_unpack _); by vm_compute).
    tauto. }
  assert (Forall (fun c => c ∈ columns db1) [ "current_grade_iaido"; "current_grade" ]
          ↔ "current_grade" ∈ columns db) as Hgrade.
  { rewrite !Forall_cons, Forall_nil.
    rewrite (Hother "current_grade") by (apply (bool_decide_unpack _); by vm_compute).
    assert ("current_grade_iaido" ∈ columns db1)
      by (apply Hadded, (bool_decide_unpack _); by vm_compute).
    tauto. }
  rewrite (bool_decide_ext _ _ Hexam).
  destruct (bool_decide ("wants_exam" ∈ columns db)) eqn:H1;
    [apply bool_decide_eq_true in H1 | apply bool_decide_eq_false in H1];
    (destruct (bool_decide ("target_grade" ∈ columns db)) eqn:H2;
     [apply bool_decide_eq_true in H2 | apply bool_decide_eq_false in H2]); simpl andb; cbv iota.
  - rewrite bool_decide_eq_true_2 by done.
    rewrite exec_update_cases. cbn [sql_update columns].
    rewrite (bool_decide_ext _ _ Hgrade). by destruct (bool_decide _).
  - rewrite bool_decide_eq_false_2; [done | tauto].
  - rewrite bool_decide_eq_false_2; [done | tauto].
  - rewrite bool_decide_eq_false_2; [done | tauto].
Qed.

(** What a run of the migration leaves in a row, column by column. *)
Lemma ensureRegistrationColumns_row (db : table) (i : nat) (r : gmap string sqlval) :
  rows db !! i = Some r →
  let has c := bool_decide (c ∈ columns db) in
  let exam_runs := has "wants_exam" && has "target_grade" in
  let grade_runs := exam_runs && has "current_grade" in
  let before := value_before (columns db) r in
  let selected :=
    exam_runs && bool_decide (before "wants_exam" = SqlInt 1)
    && bool_decide (before "wants_exam_iaido" = SqlInt 0)
    && bool_decide (before "wants_exam_jodo" = SqlInt 0) in
  ∃ r', rows (ensureRegistrationColumns db).1 !! i = Some r'
    ∧ (∀ c, c ∈ columns db ∨ c ∈ ADDED_COLUMNS.*1 →
            c ∉ ["wants_exam_iaido"; "target_grade_iaido"; "current_grade_iaido"] →
            col r' c = before c)
    ∧ col r' "wants_exam_iaido" = (if selected then SqlInt 1 else before "wants_exam_iaido")
    ∧ col r' "target_grade_iaido"
      = (if selected && blank (before "target_grade_iaido")
         then COALESCE (before "target_grade") (SqlText [])
         else before "target_grade_iaido")
    ∧ col r' "current_grade_iaido"
      = (if grade_runs && blank (before "current_grade_iaido")
         then COALESCE (before "current_grade") (SqlText [])
         else before "current_grade_iaido").
Proof.
  intros Hr. cbv zeta.
  destruct (fold_add_columns_before db i r Hr) as (r1 & Hr1 & Hbefore).
  assert (∀ c, c ∈ ADDED_COLUMNS.*1 → col r1 c = value_before (columns db) r c) as Hadded
    by (intros c Hc; apply Hbefore; by right).
  assert (col r1 "wants_exam_iaido" = value_before (columns db) r "wants_exam_iaido") as Ewei
    by (apply Hadded, (bool_decide_unpack _); by vm_compute).
  assert (col r1 "wants_exam_jodo" = value_before (columns db) r "wants_exam_jodo") as Ewej
    by (apply Hadded, (bool_decide_unpack _); by vm_compute).
  assert (col r1 "target_grade_iaido" = value_before (columns db) r "target_grade_iaido")
    as Etgi by (apply Hadded, (bool_decide_unpack _); by vm_compute).
  assert (col r1 "current_grade_iaido" = value_before (columns db) r "current_grade_iaido")
    as Ecgi by (apply Hadded, (bool_decide_unpack _); by vm_compute).
  rewrite ensureRegistrationColumns_steps. cbv zeta.
  set (db1 := fold_left (add_column_if_missing (columns db)) ADDED_COLUMNS db) in *.
  destruct (bool_decide ("wants_exam" ∈ columns db)) eqn:H1; simpl andb; cbv iota.
  2:{ exists r1. cbn [fst]. split; [done|]. split; [intros c Hc _; by apply Hbefore|].
      by rewrite Ewei, Etgi, Ecgi. }
  destruct (bool_decide ("target_grade" ∈ columns db)) eqn:H2; simpl andb; cbv iota.
  2:{ exists r1. cbn [fst]. split; [done|]. split; [intros c Hc _; by apply Hbefore|].
      by rewrite Ewei, Etgi, Ecgi. }
  apply bool_decide_eq_true in H1, H2.
  assert (col r1 "wants_exam" = value_before (columns db) r "wants_exam") as Ewe
    by (apply Hbefore; by left).
  assert (col r1 "target_grade" = value_before (columns db) r "target_grade") as Etg
    by (apply Hbefore; by left).
  pose proof (backfill_exam_columns r1) as Hexam. cbv zeta in Hexam.
  set (r2 := if backfill_exam_where r1 then backfill_exam_set r1 else r1) in *.
  destruct Hexam as (Hkeep2 & Hwei2 & Htgi2).
  rewrite Ewe, Ewei, Ewej in Hwei2. rewrite Ewe, Ewei, Ewej, Etgi, Etg in Htgi2.
  assert (rows (sql_update backfill_exam_where backfill_exam_set db1) !! i = Some r2) as Hr2
    by (by rewrite sql_update_lookup, Hr1).
  destruct (bool_decide ("current_grade" ∈ columns db)) eqn:H3; cbn [fst].
  - apply bool_decide_eq_true in H3.
    assert (col r1 "current_grade" = value_before (columns db) r "current_grade") as Ecg
      by (apply Hbefore; by left).
    pose proof (backfill_grade_columns r2) as Hgrade. cbv zeta in Hgrade.
    set (r3 := if backfill_grade_where r2 then backfill_grade_set r2 else r2) in *.
    destruct Hgrade as (Hkeep3 & Hcgi3).
    rewrite !Hkeep2, Ecgi, Ecg in Hcgi3
      by (apply (bool_decide_unpack _); by vm_compute).
    exists r3. split; [by rewrite sql_update_lookup, Hr2|].
    split.
    { intros c Hc Hnot. apply not_elem_of_cons in Hnot as [? Hnot].
      apply not_elem_of_cons in Hnot as [? Hnot]. apply not_elem_of_cons in Hnot as [? _].
      rewrite Hkeep3 by done. rewrite Hkeep2; [by apply Hbefore|].
      by repeat (apply not_elem_of_cons; split); [..|apply not_elem_of_nil]. }
    split; [by rewrite Hkeep3|]. split; [by rewrite Hkeep3|]. done.
  - exists r2. split; [done|].
    split.
    { intros c Hc Hnot. apply not_elem_of_cons in Hnot as [? Hnot].
      apply not_elem_of_cons in Hnot as [? Hnot].
      rewrite Hkeep2; [by apply Hbefore|].
      by repeat (apply not_elem_of_cons; split); [..|apply not_elem_of_nil]. }
    split; [done|]. split; [done|].
    rewrite Hkeep2 by (apply (bool_decide_unpack _); by vm_compute). done.
Qed.

(** C9. The migration is idempotent: run on the store a first run left, it
    leaves that store and ends the same way.  A run keeps the columns the
    table had, in their order, and appends those of the fourteen added
    columns that were absent; it keeps the rows in place.  In each row a
    column the table had keeps its value and an added column holds its
    default, but for the three backfilled columns: where the combined
    exam flag is 1 and both discipline flags are 0, the Iaido flag becomes
    1 and the Iaido target grade, if empty, the combined target grade;
    where the current Iaido grade is empty, it becomes the combined
    current grade.  So a value that is not empty is never overwritten.
    The first backfill needs the combined exam columns and the second the
    combined grade too: without them the run raises, and what ran before
    stays. *)
Theorem ensureRegistrationColumns_idempotent (db : table) :
  ensureRegistrationColumns (ensureRegistrationColumns db).1 = ensureRegistrationColumns db
  ∧ let db' := (ensureRegistrationColumns db).1 in
    let has c := bool_decide (c ∈ columns db) in
    let exam_runs := has "wants_exam" && has "target_grade" in
    let grade_runs := exam_runs && has "current_grade" in
    columns db' = columns db ++ filter (fun c => c ∉ columns db) ADDED_COLUMNS.*1
    ∧ length (rows db') = length (rows db)
    ∧ ((ensureRegistrationColumns db).2 = None ↔ grade_runs = true)
    ∧ ∀ i r, rows db !! i = Some r →
        let before := value_before (columns db) r in
        let selected :=
          exam_runs && bool_decide (before "wants_exam" = SqlInt 1)
          && bool_decide (before "wants_exam_iaido" = SqlInt 0)
          && bool_decide (before "wants_exam_jodo" = SqlInt 0) in
        ∃ r', rows db' !! i = Some r'
          ∧ backfill_respects (columns db) r r'
          ∧ (∀ c, c ∈ columns db' →
                  c ∉ ["wants_exam_iaido"; "target_grade_iaido"; "current_grade_iaido"] →
                  col r' c = before c)
          ∧ col r' "wants_exam_iaido"
            = (if selected then SqlInt 1 else before "wants_exam_iaido")
          ∧ col r' "target_grade_iaido"
            = (if selected && blank (before "target_grade_iaido")
               then COALESCE (before "target_grade") (SqlText [])
               else before "target_grade_iaido")
          ∧ col r' "current_grade_iaido"
            = (if grade_runs && blank (before "current_grade_iaido")
               then COALESCE (before "current_grade") (SqlText [])
               else before "current_grade_iaido").
Proof.
  split; [apply ensureRegistrationColumns_twice|].
  cbv zeta.
  destruct (ensureRegistrationColumns_respects db) as (Hcols & Hlen & Hrows).
  split; [done|]. split; [done|].
  split.
  { rewrite ensureRegistrationColumns_steps. cbv zeta.
    destruct (bool_decide ("wants_exam" ∈ columns db)),
      (bool_decide ("target_grade" ∈ columns db)),
      (bool_decide ("current_grade" ∈ columns db)); simpl; split; done. }
  intros i r Hr.
  destruct (Hrows i r Hr) as (r' & Hr' & Hrespects).
  destruct (ensureRegistrationColumns_row db i r Hr) as (r'' & Hr'' & Hother & Hrest).
  rewrite Hr' in Hr''. injection Hr'' as <-.
  exists r'. split; [done|]. split; [done|]. split; [|done].
  intros c Hc. apply Hother. rewrite Hcols in Hc.
  apply elem_of_app in Hc as [Hc|Hc]; [by left|].
  apply list_elem_of_filter in Hc as [_ Hc]. by right.
Qed.

(** ** Legacy import *)

Example legacy_import_two_entries :
  let '(db, error) :=
    migrateLegacyJsonIfNeeded sample_gen
      (LegacyArray [Some (legacy_entry "reg_x" "2 dan" "3 dan"); Some empty_item])
      empty_store in
  error = None
  ∧ (fun r => (col r "id", col r "status", col r "current_grade_iaido",
               col r "current_grade_jodo", col r "wants_exam_iaido",
               col r "target_grade_iaido", col r "wants_exam_jodo",
               col r "target_grade_jodo", col r "amount_huf")) <$> rows db
    = [ (SqlText (js "reg_x"), SqlText (js "PAID"), SqlText (js "2 dan"), SqlText [],
         SqlInt 1, SqlText (js "3 dan"), SqlInt 0, SqlText [], SqlInt 149);
        (SqlText (js "reg_00000000-0000-4000-8000-000000000001"),
         SqlText (js "PENDING_PAYMENT"), SqlText [], SqlText [],
         SqlInt 0, SqlText [], SqlInt 0, SqlText [], SqlInt 149) ].
Proof. vm_compute. repeat split; reflexivity. Qed.

Example legacy_import_duplicate_id :
  migrateLegacyJsonIfNeeded sample_gen
    (LegacyArray [ Some (legacy_entry "reg_x" "2 dan" "3 dan"); Some empty_item;
                   Some (legacy_entry "reg_x" "1 kyu" "1 dan") ])
    empty_store
  = (empty_store, Some (Error "Legacy JSON migration failed.")).
Proof. vm_compute. reflexivity. Qed.

Example legacy_import_skipped_on_rows :
  migrateLegacyJsonIfNeeded sample_gen
    (LegacyArray [Some (legacy_entry "reg_x" "2 dan" "3 dan")]) store_with_deleted
  = (store_with_deleted, None).
Proof. vm_compute. reflexivity. Qed.

Lemma insert_row_returned db values db' :
  insert_row db values = Returned db' →
  columns db' = columns db ∧ rows db' = rows db ++ [list_to_map values].
Proof.
  unfold insert_row. intros H.
  repeat match type of H with (if ?b then _ else _) = _ => destruct b; try discriminate H end.
  by injection H as <-.
Qed.

(** When an insert returns: the table has the columns, no [NOT NULL]
    column is given NULL, and no row holds the id. *)
Lemma insert_row_returns db values :
  (∃ db', insert_row db values = Returned db')
  ↔ (∀ c, c ∈ values.*1 → c ∈ columns db)
    ∧ (∀ c, c ∈ NOT_NULL_COLUMNS → col (list_to_map values) c ≠ SqlNull)
    ∧ (∀ r, r ∈ rows db →
         sql_true (sql_eq (col r "id") (col (list_to_map values) "id")) = false).
Proof.
  unfold insert_row. cbv zeta.
  assert (forallb (fun c => bool_decide (c ∈ columns db)) values.*1 = true
          ↔ ∀ c, c ∈ values.*1 → c ∈ columns db) as Hcols.
  { rewrite forallb_forall. split.
    - intros H c Hc. apply list_elem_of_In in Hc. specialize (H c Hc).
      by apply bool_decide_eq_true in H.
    - intros H c Hc. apply bool_decide_eq_true_2, H. by apply list_elem_of_In. }
  assert (existsb (fun c => bool_decide (col (list_to_map values) c = SqlNull))
            NOT_NULL_COLUMNS = false
          ↔ ∀ c, c ∈ NOT_NULL_COLUMNS → col (list_to_map values) c ≠ SqlNull) as Hnull.
  { split.
    - intros H c Hc Heq. apply not_true_iff_false in H. apply H.
      apply existsb_exists. exists c. split; [by apply list_elem_of_In|].
      by apply bool_decide_eq_true.
    - intros H. apply not_true_is_false. intros (c & Hc & Heq)%existsb_exists.
      apply bool_decide_eq_true in Heq. apply list_elem_of_In in Hc. by apply (H c). }
  assert (existsb (fun r' => sql_true (sql_eq (col r' "id") (col (list_to_map values) "id")))
            (rows db) = false
          ↔ ∀ r, r ∈ rows db →
              sql_true (sql_eq (col r "id") (col (list_to_map values) "id")) = false)
    as Hfresh.
  { split.
    - intros H r Hr. apply not_true_is_false. intros Heq.
      apply not_true_iff_false in H. apply H.
      apply existsb_exists. exists r. split; [by apply list_elem_of_In | done].
    - intros H. apply not_true_is_false. intros (r & Hr & Heq)%existsb_exists.
      apply list_elem_of_In in Hr. rewrite (H r Hr) in Heq. done. }
  destruct (forallb _ values.*1) eqn:Ec; cbn [negb].
  - destruct (existsb _ NOT_NULL_COLUMNS) eqn:En.
    + split; [intros [? [=]]|]. intros (_ & Hn & _). apply Hnull in Hn. congruence.
    + destruct (existsb _ (rows db)) eqn:Ef.
      * split; [intros [? [=]]|]. intros (_ & _ & Hf). apply Hfresh in Hf. congruence.
      * split; [|intros _; eexists; reflexivity]. intros _.
        split; [by apply Hcols|]. split; [by apply Hnull | by apply Hfresh].
  - split; [intros [? [=]]|]. intros (Hc & _). apply Hcols in Hc. congruence.
Qed.

Lemma id_taken (r : gmap string sqlval) (id : jsstring) :
  sql_true (sql_eq (col r "id") (SqlText id)) = true ↔ col r "id" = SqlText id.
Proof.
  destruct (col r "id") as [|z|s]; simpl; split; try done.
  - intros H. f_equal. by case_bool_decide.
  - intros [= ->]. by rewrite bool_decide_eq_true_2.
Qed.

(** The values bound for an entry: one for every column of the statement,
    none of them NULL where the column refuses it, the id being the one of
    the entry or a generated one. *)
Lemma legacy_values_bound (env : import_env) (item : legacy_item) :
  ∃ values,
    legacy_values env item = Some values
    ∧ values.*1 = INSERT_COLUMNS
    ∧ col (list_to_map values) "id" = SqlText (legacy_id env item)
    ∧ ∀ c, c ∈ NOT_NULL_COLUMNS → col (list_to_map values) c ≠ SqlNull.
Proof.
  unfold legacy_values.
  destruct (calculatePricing_strings (str_or (opt_str (l_campType item)) (js "iaido"))
              (str_or (opt_str (l_mealPlan item)) (js "none"))
              (str_or (opt_str (l_accommodation item)) (js "none")))
    as (p & -> & _ & _ & _ & x & y & z & _ & _ & _ & _ & Htotal & _).
  cbn [mbind option_bind]. cbv zeta.
  eexists. split; [reflexivity|]. split; [reflexivity|].
  unfold list_to_map. cbn [foldr fst snd].
  split; [by read_col|].
  refine (proj1 (Forall_forall _ NOT_NULL_COLUMNS) _).
  unfold NOT_NULL_COLUMNS.
  repeat (apply Forall_cons; split); [..|by apply Forall_nil]; read_col; try discriminate.
  rewrite Htotal. destruct (l_amountHuf item) as [amount|]; [|discriminate].
  destruct (amount =? 0); discriminate.
Qed.

(** The ids of the entries from number [n] on. *)
Lemma legacy_ids_cons gen n item (entries : list legacy_item) :
  imap (fun k => legacy_id (gen (n + k)%nat)) (item :: entries)
  = legacy_id (gen n) item :: imap (fun k => legacy_id (gen (S n + k)%nat)) entries.
Proof.
  rewrite imap_cons, Nat.add_0_r. f_equal. apply imap_ext. intros k x _. simpl.
  by rewrite Nat.add_succ_r.
Qed.

(** What the loop leaves when it returns: the rows it found, followed by
    one row for every entry, in order. *)
Lemma import_items_returned gen n legacy db db' :
  import_items gen n legacy db = Returned db' →
  columns db' = columns db
  ∧ Forall is_Some legacy
  ∧ ∃ new,
      rows db' = rows db ++ new
      ∧ length new = length legacy
      ∧ ∀ k item, legacy !! k = Some (Some item) →
          ∃ values, legacy_values (gen (n + k)%nat) item = Some values
            ∧ new !! k = Some (list_to_map values)
            ∧ col (list_to_map values) "id" = SqlText (legacy_id (gen (n + k)%nat) item).
Proof.
  revert n db. induction legacy as [|[item|] legacy IH]; intros n db H; simpl in *.
  - injection H as <-. split; [done|]. split; [constructor|].
    exists []. rewrite app_nil_r. repeat split. intros k item Hk.
    by rewrite lookup_nil in Hk.
  - destruct (legacy_values_bound (gen n) item) as (values & Hv & _ & Hid & _).
    rewrite Hv in H.
    destruct (insert_row db values) as [db1|e] eqn:E; [|done].
    apply insert_row_returned in E as [Hc Hr].
    apply IH in H as (Hc' & Hall & new & Hrows & Hlen & Hnew).
    split; [congruence|].
    split; [constructor; [by eexists | done]|].
    exists (list_to_map values :: new).
    split; [by rewrite Hrows, Hr, <- app_assoc|].
    split; [simpl; by rewrite Hlen|].
    intros [|k] item' Hk; simpl in Hk.
    + injection Hk as <-. exists values. by rewrite !Nat.add_0_r.
    + destruct (Hnew k item' Hk) as (values' & Hv' & Hrow & Hid').
      exists values'. by rewrite Nat.add_succ_r.
  - done.
Qed.

(** The loop returns when no two entries have one id and no row holds the
    id of an entry. *)
Lemma import_items_returns gen n (entries : list legacy_item) db :
  (∀ c, c ∈ INSERT_COLUMNS → c ∈ columns db) →
  NoDup (imap (fun k => legacy_id (gen (n + k)%nat)) entries) →
  (∀ r id, r ∈ rows db → id ∈ imap (fun k => legacy_id (gen (n + k)%nat)) entries →
           col r "id" ≠ SqlText id) →
  ∃ db', import_items gen n (Some <$> entries) db = Returned db'.
Proof.
  revert n db. induction entries as [|item entries IH]; intros n db Hcols Hnodup Hfresh.
  - by eexists.
  - rewrite legacy_ids_cons in Hnodup, Hfresh. apply NoDup_cons in Hnodup as [Hhead Htail].
    cbn [fmap list_fmap import_items].
    destruct (legacy_values_bound (gen n) item) as (values & -> & Hnames & Hid & Hnull).
    destruct (proj2 (insert_row_returns db values)) as [db1 E].
    { split; [by rewrite Hnames|]. split; [done|].
      intros r Hr. rewrite Hid. apply not_true_is_false. intros Heq%id_taken.
      apply (Hfresh r (legacy_id (gen n) item)); [done | by left | done]. }
    rewrite E. apply insert_row_returned in E as [Hc Hr].
    apply IH; [by rewrite Hc | done |].
    intros r id Hin Hid'. rewrite Hr in Hin. apply elem_of_app in Hin as [Hin|Hin].
    + apply (Hfresh r id); [done | by right].
    + apply list_elem_of_singleton in Hin as ->. rewrite Hid. intros [= <-]. done.
Qed.

(** The loop returns only then. *)
Lemma import_items_complete gen n legacy db db' :
  import_items gen n legacy db = Returned db' →
  ∃ entries,
    legacy = Some <$> entries
    ∧ NoDup (imap (fun k => legacy_id (gen (n + k)%nat)) entries)
    ∧ ∀ r id, r ∈ rows db → id ∈ imap (fun k => legacy_id (gen (n + k)%nat)) entries →
              col r "id" ≠ SqlText id.
Proof.
  revert n db. induction legacy as [|[item|] legacy IH]; intros n db H; simpl in *.
  - exists []. split; [done|]. split; [constructor|]. by intros r id _ ?%elem_of_nil.
  - destruct (legacy_values_bound (gen n) item) as (values & Hv & _ & Hid & _).
    rewrite Hv in H.
    destruct (insert_row db values) as [db1|e] eqn:E; [|done].
    pose proof (proj1 (insert_row_returns db values) (ex_intro _ db1 E)) as (_ & _ & Hnew).
    apply insert_row_returned in E as [Hc Hr].
    apply IH in H as (entries & -> & Hnodup & Hfresh).
    exists (item :: entries). split; [done|]. rewrite legacy_ids_cons.
    split.
    + apply NoDup_cons. split; [|done]. intros Hin.
      apply (Hfresh (list_to_map values) (legacy_id (gen n) item)); [|done..].
      rewrite Hr. apply elem_of_app. right. by left.
    + intros r id Hin Hid'. apply elem_of_cons in Hid' as [->|Hid'].
      * intros Heq. apply id_taken in Heq. rewrite <- Hid in Heq.
        rewrite (Hnew r Hin) in Heq. done.
      * apply (Hfresh r id); [|done]. rewrite Hr. apply elem_of_app. by left.
  - done.
Qed.

(** C3. The import changes nothing and raises nothing when the legacy file
    is absent or the table holds a row, and when there is nothing to
    import: the file cannot be read, holds no array or holds an empty one.
    Otherwise, on an empty table that has the columns of the insert
    statement, it is all or nothing.  All: when every entry of the array
    is an object and no two entries come under one id, the import ends
    without error and the table holds one row for every entry, in the
    order of the array, each with the values bound for its entry, under
    the id of the entry.  Nothing: in every other case (an entry is
    [null], or comes under the id of an earlier one) the store is rolled
    back to the empty table and 'Legacy JSON migration failed.' is raised.
    Whenever the import raises, the store is as it was. *)
Theorem legacy_import_all_or_nothing (gen : nat → import_env) (file : legacy_file)
    (db : table) :
  let '(db', error) := migrateLegacyJsonIfNeeded gen file db in
  (file = LegacyAbsent ∨ rows db ≠ [] → db' = db ∧ error = None)
  ∧ (file = LegacyUnreadable ∨ file = LegacyNotArray ∨ file = LegacyArray [] →
       db' = db ∧ error = None)
  ∧ (error ≠ None → db' = db)
  ∧ ∀ items,
      file = LegacyArray items → items ≠ [] → rows db = [] →
      (∀ c, c ∈ INSERT_COLUMNS → c ∈ columns db) →
      ((∃ entries,
          items = Some <$> entries
          ∧ NoDup (imap (fun k => legacy_id (gen k)) entries))
       ∧ error = None
       ∧ columns db' = columns db
       ∧ length (rows db') = length items
       ∧ ∀ k item, items !! k = Some (Some item) →
           ∃ values, legacy_values (gen k) item = Some values
             ∧ rows db' !! k = Some (list_to_map values)
             ∧ col (list_to_map values) "id" = SqlText (legacy_id (gen k) item))
      ∨ ((¬ ∃ entries,
            items = Some <$> entries
            ∧ NoDup (imap (fun k => legacy_id (gen k)) entries))
         ∧ db' = db
         ∧ error = Some (Error "Legacy JSON migration failed.")).
Proof.
  destruct (migrateLegacyJsonIfNeeded gen file db) as [db' error] eqn:E.
  unfold migrateLegacyJsonIfNeeded in E.
  destruct (rows db) as [|r0 rs] eqn:Hrows.
  - (* the table is empty *)
    destruct file as [| | |items].
    + injection E as <- <-. repeat split; try done; by intros items [=].
    + simpl in E. injection E as <- <-. repeat split; try done; by intros items [=].
    + simpl in E. injection E as <- <-. repeat split; try done; by intros items [=].
    + cbn [length Nat.ltb Nat.leb] in E.
      destruct (length items =? 0)%nat eqn:Hlen0.
      { injection E as <- <-. repeat split; try done.
        intros items0 [= <-] Hne. apply Nat.eqb_eq in Hlen0. by destruct items. }
      assert (items ≠ []) as Hne by (by destruct items).
      destruct (forallb _ INSERT_COLUMNS) eqn:Hprep; simpl in E.
      * destruct (import_items gen 0 items db) as [db1|e] eqn:Himport.
        -- injection E as <- <-.
           pose proof (import_items_complete _ _ _ _ _ Himport) as (entries & Hitems & Hnodup & _).
           apply import_items_returned in Himport as (Hc & Hall & new & Hnew & Hlen & Hvalues).
           rewrite Hrows in Hnew. simpl in Hnew.
           split; [by intros [?|?]|]. split; [by intros [?|[?|[= ->]]]|]. split; [done|].
           intros items0 [= <-] _ _ _. left.
           split; [by exists entries|]. split; [done|]. split; [done|].
           split; [by rewrite Hnew|]. rewrite Hnew. exact Hvalues.
        -- injection E as <- <-.
           split; [by intros [?|?]|]. split; [by intros [?|[?|[= ->]]]|]. split; [done|].
           intros items0 [= <-] _ _ Hcols. right. split; [|done].
           intros (entries & -> & Hnodup).
           destruct (import_items_returns gen 0 entries db Hcols Hnodup) as [db1 H1];
             [|congruence].
           intros r id Hr. rewrite Hrows in Hr. by apply elem_of_nil in Hr.
      * injection E as <- <-.
        split; [by intros [?|?]|]. split; [by intros [?|[?|[= ->]]]|]. split; [done|].
        intros items0 [= <-] _ _ Hcols. exfalso.
        apply not_true_iff_false in Hprep. apply Hprep.
        apply forallb_forall. intros c Hc. apply bool_decide_eq_true.
        apply Hcols. by apply list_elem_of_In.
  - (* the table holds a row *)
    assert (db' = db ∧ error = None) as [-> ->].
    { destruct file; simpl in E; by injection E as <- <-. }
    repeat split; try done.
Qed.

(** ** Admin session tokens *)

(** A string of ASCII characters is the only string with its UTF-8 bytes. *)
Lemma utf8_encode_ascii_inj s t :
  Forall is_ascii t → utf8_encode s = utf8_encode t → s = t.
Proof.
  intros Ht. revert s. induction Ht as [|c t Hc Ht IH]; intros s Heq.
  - destruct s as [|d s]; [done|]. exfalso. simpl in Heq.
    repeat match type of Heq with
           | context [if ?b then _ else _] => destruct b
           | context [match ?l with [] => _ | _ :: _ => _ end] => destruct l
           end; discriminate.
  - unfold is_ascii in Hc. simpl in Heq.
    apply N.ltb_lt in Hc as Hc'. rewrite Hc' in Heq.
    destruct s as [|d s]; [done|]. simpl in Heq.
    destruct (d <? 128)%N eqn:Hd.
    + injection Heq as -> Heq. f_equal. by apply IH.
    + exfalso. apply N.ltb_ge in Hd.
      repeat match type of Heq with
             | context [if ?b then _ else _] => destruct b
             | context [match ?l with [] => _ | _ :: _ => _ end] => destruct l
             end;
        (assert (128 <= c)%N; [|lia]);
        injection Heq; intros; subst c;
        first [ lia | etrans; [|apply N.le_add_r]; lia ].
Qed.

Lemma safeEqualStrings_ascii signature expected :
  Forall is_ascii expected →
  safeEqualStrings signature expected = true ↔ signature = expected.
Proof.
  intros Hascii. unfold safeEqualStrings. split.
  - destruct (negb _); [done|]. intros H%bool_decide_eq_true.
    by apply utf8_encode_ascii_inj.
  - intros ->. rewrite Nat.eqb_refl. simpl. by apply bool_decide_eq_true.
Qed.

Lemma base64url_digit_alphabet n : base64url_digit n ∈ BASE64URL_ALPHABET.
Proof.
  unfold base64url_digit. apply list_elem_of_In, nth_In.
  change (length BASE64URL_ALPHABET) with 64%nat.
  pose proof (N.mod_upper_bound n 64). lia.
Qed.

Lemma base64url_digit_plain n : is_ascii (base64url_digit n) ∧ base64url_digit n ≠ DOT.
Proof.
  assert (Forall (fun c => is_ascii c ∧ c ≠ DOT) BASE64URL_ALPHABET) as H.
  { apply (bool_decide_unpack _). vm_compute. exact I. }
  rewrite Forall_forall in H. apply H, base64url_digit_alphabet.
Qed.

Lemma base64url_plain bytes : Forall (fun c => is_ascii c ∧ c ≠ DOT) (base64url bytes).
Proof.
  assert (∀ n bytes, (length bytes ≤ n)%nat →
            Forall (fun c => is_ascii c ∧ c ≠ DOT) (base64url bytes)) as H.
  { clear bytes. induction n as [|n IH]; intros bytes Hlen.
    - destruct bytes; [constructor | simpl in Hlen; lia].
    - destruct bytes as [|a [|b [|c rest]]]; simpl;
        repeat (constructor; [apply base64url_digit_plain|]); try constructor.
      apply IH. simpl in Hlen. lia. }
  by apply (H (length bytes)).
Qed.

Lemma base64url_ascii bytes : Forall is_ascii (base64url bytes).
Proof. eapply Forall_impl; [apply base64url_plain|]. by intros c [? _]. Qed.

Lemma base64url_no_dot bytes : DOT ∉ base64url bytes.
Proof.
  intros Hin. pose proof (base64url_plain bytes) as H.
  rewrite Forall_forall in H. by destruct (H _ Hin).
Qed.

Lemma split_on_nonempty sep s : split_on sep s ≠ [].
Proof.
  destruct s as [|c s]; simpl; [done|].
  destruct (c =? sep)%N; [done|]. by destruct (split_on sep s).
Qed.

Lemma join_with_cons_head (sep : jsstring) c segment segments :
  join_with sep ((c :: segment) :: segments) = c :: join_with sep (segment :: segments).
Proof. by destruct segments. Qed.

(** Joining the segments with the separator gives the string back. *)
Lemma join_split_on sep s : join_with [sep] (split_on sep s) = s.
Proof.
  induction s as [|c s IH]; simpl; [done|].
  destruct (c =? sep)%N eqn:Hc.
  - apply N.eqb_eq in Hc as ->.
    destruct (split_on sep s) as [|segment segments] eqn:Hs;
      [by apply split_on_nonempty in Hs|].
    change (join_with [sep] ([] :: segment :: segments))
      with (sep :: join_with [sep] (segment :: segments)).
    by rewrite IH.
  - destruct (split_on sep s) as [|segment segments] eqn:Hs;
      [by apply split_on_nonempty in Hs|].
    by rewrite join_with_cons_head, IH.
Qed.

Lemma split_on_segments sep s segment :
  segment ∈ split_on sep s → sep ∉ segment.
Proof.
  revert segment. induction s as [|c s IH]; intros segment; simpl.
  - intros ->%list_elem_of_singleton. apply not_elem_of_nil.
  - destruct (c =? sep)%N eqn:Hc.
    + intros [->|H]%elem_of_cons; [apply not_elem_of_nil | by apply IH].
    + apply N.eqb_neq in Hc.
      destruct (split_on sep s) as [|first others].
      * intros ->%list_elem_of_singleton. intros [?|?%elem_of_nil]%elem_of_cons; done.
      * intros [->|H]%elem_of_cons.
        -- intros [?|H]%elem_of_cons; [done|]. revert H. apply IH. by left.
        -- apply IH. by right.
Qed.

(** A string with one separator is cut in one way only. *)
Lemma cut_unique (sep : N) p1 s1 p2 s2 :
  sep ∉ s1 → sep ∉ s2 → p1 ++ [sep] ++ s1 = p2 ++ [sep] ++ s2 → p1 = p2 ∧ s1 = s2.
Proof.
  intros H1 H2. revert p2. induction p1 as [|c p1 IH]; intros [|d p2]; simpl; intros Heq.
  - by injection Heq as ->.
  - injection Heq as <- ->. exfalso. apply H1. apply elem_of_app. right. by left.
  - injection Heq as -> <-. exfalso. apply H2. apply elem_of_app. right. by left.
  - injection Heq as -> Heq. destruct (IH _ Heq) as [-> ->]. done.
Qed.

(** What an accepted token is. *)
Lemma verifyAdminSessionToken_accepts hmac decode username secret now token :
  verifyAdminSessionToken hmac decode username secret now (Some token) = true →
  ∃ p sig payload e,
    token = p ++ [DOT] ++ sig
    ∧ split_on DOT token = [p; sig]
    ∧ p ≠ [] ∧ sig ≠ []
    ∧ sig = signSessionPayload hmac secret p
    ∧ decode p = Some payload
    ∧ get_prop payload "username" = Some (JStr username)
    ∧ get_prop payload "exp" = Some (JNum e)
    ∧ now / 1000 ≤ e.
Proof.
  unfold verifyAdminSessionToken. intros H.
  destruct (negb (existsb _ token)); [done|].
  pose proof (join_split_on DOT token) as Hjoin.
  destruct (split_on DOT token) as [|p [|sig rest]]; try done.
  destruct (bool_decide (p = [])) eqn:Hp; [done|].
  destruct (bool_decide (sig = [])) eqn:Hsig; [done|].
  destruct rest as [|extra rest]; [|done]. simpl in H.
  destruct (safeEqualStrings sig _) eqn:Hsafe; [|done]. simpl in H.
  apply safeEqualStrings_ascii in Hsafe; [|apply base64url_ascii].
  destruct (decode p) as [payload|] eqn:Hdecode; [|done].
  destruct (get_prop payload "username") as [user|] eqn:Huser; [|done].
  destruct (get_prop payload "exp") as [exp|] eqn:Hexp; [|done].
  destruct (strict_eq_string user username) eqn:Heq; [|done]. simpl in H.
  destruct exp as [| | |e| | |]; try done.
  destruct (e <? now / 1000) eqn:Hlt; [done|].
  apply Z.ltb_ge in Hlt. apply bool_decide_eq_false in Hp, Hsig.
  destruct user as [| | | |u| |]; try done. apply bool_decide_eq_true in Heq as ->.
  exists p, sig, payload, e. repeat split; try done.
Qed.

Example session_token_accepted_within_lifetime :
  let token := buildAdminSessionToken toy_hmac toy_encode (js "admin") (js "s3cret")
                 1770000000000 in
  verifyAdminSessionToken toy_hmac toy_decode (js "admin") (js "s3cret")
    (1770000000000 + 43200 * 1000) (Some token) = true
  ∧ verifyAdminSessionToken toy_hmac toy_decode (js "admin") (js "s3cret")
      (1770000000000 + 43201 * 1000) (Some token) = false
  ∧ verifyAdminSessionToken toy_hmac toy_decode (js "admin") (js "other-secret")
      1770000000000 (Some token) = false
  ∧ verifyAdminSessionToken toy_hmac toy_decode (js "root") (js "s3cret")
      1770000000000 (Some token) = false
  ∧ verifyAdminSessionToken toy_hmac toy_decode (js "admin") (js "s3cret")
      1770000000000 (Some (token ++ js ".x")) = false
  ∧ verifyAdminSessionToken toy_hmac toy_decode (js "admin") (js "s3cret")
      1770000000000 None = false.
Proof. vm_compute. repeat split; reflexivity. Qed.

(** C7. Verification rejects a token that is not made of two segments; it
    rejects a token whose second segment is not the signature of the first
    under the server's secret, so a token built under another secret is
    rejected whenever the two signatures of its payload differ; it rejects
    a token whose payload carries an expiry before the current second,
    whatever its signature, a token built more than the lifetime ago
    included; and a token it accepts is made of a non-empty payload segment
    and its signature under the server's secret, the payload naming the
    configured administrator and an expiry that has not passed. *)
Theorem verifyAdminSessionToken_sound
    (hmac : jsstring → jsstring → list N) (encode : jsstring → Z → jsstring)
    (decode : jsstring → option jsval) (username secret : jsstring) (now : Z) :
  let verify := verifyAdminSessionToken hmac decode username secret now in
  let sign := signSessionPayload hmac secret in
  verify None = false
  ∧ (∀ token, length (split_on DOT token) ≠ 2%nat → verify (Some token) = false)
  ∧ (∀ token p sig rest,
       split_on DOT token = p :: sig :: rest → sig ≠ sign p → verify (Some token) = false)
  ∧ (∀ secret' built,
       let p := encode username (built / 1000 + ADMIN_SESSION_TTL_SECONDS) in
       signSessionPayload hmac secret' p ≠ sign p →
       verify (Some (buildAdminSessionToken hmac encode username secret' built)) = false)
  ∧ (∀ token p sig payload e,
       split_on DOT token = [p; sig] → decode p = Some payload →
       get_prop payload "exp" = Some (JNum e) → e < now / 1000 →
       verify (Some token) = false)
  ∧ (∀ built payload,
       let exp := built / 1000 + ADMIN_SESSION_TTL_SECONDS in
       decode (encode username exp) = Some payload →
       get_prop payload "exp" = Some (JNum exp) → exp < now / 1000 →
       verify (Some (buildAdminSessionToken hmac encode username secret built)) = false)
  ∧ (∀ token, verify (Some token) = true →
       ∃ p sig payload e,
         token = p ++ [DOT] ++ sig
         ∧ split_on DOT token = [p; sig]
         ∧ p ≠ [] ∧ sig ≠ []
         ∧ sig = sign p
         ∧ decode p = Some payload
         ∧ get_prop payload "username" = Some (JStr username)
         ∧ get_prop payload "exp" = Some (JNum e)
         ∧ now / 1000 ≤ e).
Proof.
  intros verify sign.
  assert (Haccept : ∀ token, verify (Some token) = true →
            ∃ p sig payload e,
              token = p ++ [DOT] ++ sig
              ∧ split_on DOT token = [p; sig]
              ∧ p ≠ [] ∧ sig ≠ []
              ∧ sig = sign p
              ∧ decode p = Some payload
              ∧ get_prop payload "username" = Some (JStr username)
              ∧ get_prop payload "exp" = Some (JNum e)
              ∧ now / 1000 ≤ e)
    by apply verifyAdminSessionToken_accepts.
  assert (Hbuilt : ∀ secret' built p1 sig1,
            buildAdminSessionToken hmac encode username secret' built = p1 ++ [DOT] ++ sig1 →
            split_on DOT (p1 ++ [DOT] ++ sig1) = [p1; sig1] →
            p1 = encode username (built / 1000 + ADMIN_SESSION_TTL_SECONDS)
            ∧ sig1 = signSessionPayload hmac secret' p1).
  { intros secret' built p1 sig1 Heq Hsplit. unfold buildAdminSessionToken in Heq.
    symmetry in Heq. apply cut_unique in Heq as [-> ->]; [done| |apply base64url_no_dot].
    apply (split_on_segments DOT (p1 ++ [DOT] ++ sig1)). rewrite Hsplit.
    apply elem_of_cons. right. by left. }
  split; [done|].
  split.
  { intros token Hlen. destruct (verify (Some token)) eqn:Hv; [|done].
    destruct (Haccept token Hv) as (p & sig & _ & _ & _ & Hsplit & _).
    by rewrite Hsplit in Hlen. }
  split.
  { intros token p sig rest Hsplit Hsig. destruct (verify (Some token)) eqn:Hv; [|done].
    destruct (Haccept token Hv) as (p' & sig' & _ & _ & _ & Hsplit' & _ & _ & Hsig' & _).
    rewrite Hsplit in Hsplit'. injection Hsplit' as -> -> _. done. }
  split.
  { intros secret' built p Hdiff.
    destruct (verify (Some _)) eqn:Hv; [|done].
    destruct (Haccept _ Hv) as (p1 & sig1 & _ & _ & Htoken & Hsplit & _ & _ & Hsig & _).
    rewrite Htoken in Hsplit.
    destruct (Hbuilt _ _ _ _ Htoken Hsplit) as [Hp1 Hsig1]. fold p in Hp1. subst p1.
    congruence. }
  split.
  { intros token p sig payload e Hsplit Hdecode Hexp Hlt.
    destruct (verify (Some token)) eqn:Hv; [|done].
    destruct (Haccept token Hv)
      as (p' & sig' & payload' & e' & _ & Hsplit' & _ & _ & _ & Hdecode' & _ & Hexp' & Hle).
    rewrite Hsplit in Hsplit'. injection Hsplit' as <- <-.
    rewrite Hdecode in Hdecode'. injection Hdecode' as <-.
    rewrite Hexp in Hexp'. injection Hexp' as <-. lia. }
  split; [|done].
  intros built payload exp Hdecode Hexp Hlt.
  destruct (verify (Some _)) eqn:Hv; [|done].
  destruct (Haccept _ Hv)
    as (p1 & sig1 & payload' & e' & Htoken & Hsplit & _ & _ & _ & Hdecode' & _ & Hexp' & Hle).
  rewrite Htoken in Hsplit.
  destruct (Hbuilt _ _ _ _ Htoken Hsplit) as [Hp1 _]. fold exp in Hp1. subst p1.
  rewrite Hdecode in Hdecode'. injection Hdecode' as <-.
  rewrite Hexp in Hexp'. injection Hexp' as <-. lia.
Qed.

(** ** CSV export *)

Example escapeCsvValue_smith_john :
  escapeCsvValue (JStr (js "Smith, John")) = [QUOTE] ++ js "Smith, John" ++ [QUOTE]
  ∧ escapeCsvValue (JStr (js "say " ++ [QUOTE] ++ js "hi" ++ [QUOTE]))
    = [QUOTE] ++ js "say " ++ [QUOTE; QUOTE] ++ js "hi" ++ [QUOTE; QUOTE; QUOTE]
  ∧ escapeCsvValue (JStr (js "Budapest")) = js "Budapest"
  ∧ escapeCsvValue (JNum 182) = js "182"
  ∧ escapeCsvValue JNull = []
  ∧ parse_csv (escapeCsvValue (JStr (js "Smith, John")) ++ [COMMA]
               ++ escapeCsvValue (JStr (js "Budapest")) ++ [LF])
    = Some [[js "Smith, John"; js "Budapest"]].
Proof. vm_compute. repeat split; reflexivity. Qed.

Example export_smith_john :
  (parse_csv <$> (drop 1 <$> buildCsvExport [smith_john]))
  = Some (Some [ js <$> CSV_HEADERS;
                 [ js "reg_7"; js "2026-03-05T07:30:00.000Z"; js "PENDING_PAYMENT";
                   js "Smith, John"; js "john@example.org"; js "+44 20 7946 0000";
                   js "London"; js "1 dan"; []; js "iaido"; js "lunch"; js "none";
                   js "false"; []; js "false"; []; js "149"; js "33"; js "0"; js "182";
                   js "EUR"; js "Smith, John"; js "1011"; js "Budapest"; js "Fo utca 5.";
                   js "Hungary"; js "no " ++ [QUOTE] ++ js "hot" ++ [QUOTE; LF] ++ js "food";
                   js "true"; js "true"; js "2026-02-26"; js "2026-02-26";
                   js "2026-03-05T07:30:00.000Z"; [] ] ]).
Proof. vm_compute. reflexivity. Qed.

Lemma test_search_class p s :
  test_search (RClass p) s = true ↔ ∃ c, c ∈ s ∧ p c = true.
Proof.
  rewrite test_search_lang. split.
  - intros (pre & mid & post & -> & Hmid). lang_inv.
    eexists; split; [|done]. apply elem_of_app. right. by left.
  - intros (c & (pre & post & ->)%list_elem_of_split & Hc).
    exists pre, [c], post. split; [done | by constructor].
Qed.

Lemma csv_read_plain f field record records rest :
  Forall (fun c => csv_special c = false) f →
  csv_read Plain field record records (f ++ rest)
  = csv_read Plain (field ++ f) record records rest.
Proof.
  intros Hf. revert field. induction Hf as [|c f Hc _ IH]; intros field; simpl.
  - by rewrite app_nil_r.
  - unfold csv_special in Hc.
    apply orb_false_iff in Hc as [Hc Hcr]. apply orb_false_iff in Hc as [Hc Hlf].
    apply orb_false_iff in Hc as [Hq Hcomma].
    rewrite Hcomma, Hlf, Hcr, Hq, IH. by rewrite <- app_assoc.
Qed.

Lemma csv_read_quoted f field record records rest :
  csv_read Quoted field record records (double_quotes f ++ QUOTE :: rest)
  = csv_read AfterQuote (field ++ f) record records rest.
Proof.
  revert field. induction f as [|c f IH]; intros field; simpl.
  - by rewrite app_nil_r.
  - destruct (c =? QUOTE)%N eqn:Hc.
    + apply N.eqb_eq in Hc as ->. simpl. rewrite IH. by rewrite <- app_assoc.
    + simpl. rewrite Hc, IH. by rewrite <- app_assoc.
Qed.

(** How a value is written: in double quotes with its double quotes doubled
    when it holds a double quote, a comma or a line break, as it is
    otherwise. *)
Lemma escapeCsvValue_cases value :
  ((∃ c, c ∈ csv_text value ∧ c ∈ [QUOTE; COMMA; LF; CR])
   ∧ escapeCsvValue value = [QUOTE] ++ double_quotes (csv_text value) ++ [QUOTE])
  ∨ ((∀ c, c ∈ csv_text value → c ∉ [QUOTE; COMMA; LF; CR])
     ∧ Forall (fun c => csv_special c = false) (csv_text value)
     ∧ escapeCsvValue value = csv_text value).
Proof.
  assert (Hspecial : ∀ c, csv_special c = true ↔ c ∈ [QUOTE; COMMA; LF; CR]).
  { intros c. unfold csv_special. rewrite !orb_true_iff, !N.eqb_eq.
    rewrite !elem_of_cons, elem_of_nil. tauto. }
  unfold escapeCsvValue. fold (csv_text value).
  destruct (test_search (RClass csv_special) (csv_text value)) eqn:E.
  - left. split; [|done]. apply test_search_class in E as (c & Hc & Hs).
    exists c. split; [done | by apply Hspecial].
  - right. assert (∀ c, c ∈ csv_text value → csv_special c = false) as Hno.
    { intros c Hc. destruct (csv_special c) eqn:Hs; [|done].
      assert (test_search (RClass csv_special) (csv_text value) = true) as Ht
        by (apply test_search_class; eauto).
      congruence. }
    split; [|split; [|done]].
    + intros c Hc Hin. apply Hspecial in Hin. rewrite Hno in Hin by done. done.
    + by apply Forall_forall.
Qed.

(** The reader, at the start of a field, reads a written value followed by
    a comma as that field. *)
Lemma csv_read_value_comma value record records rest :
  csv_read Plain [] record records (escapeCsvValue value ++ COMMA :: rest)
  = csv_read Plain [] (record ++ [csv_text value]) records rest.
Proof.
  destruct (escapeCsvValue_cases value) as [[_ ->]|(_ & Hplain & ->)].
  - rewrite <- !app_assoc. simpl. by rewrite csv_read_quoted.
  - by rewrite csv_read_plain.
Qed.

(** ... and followed by a line feed as the last field of the record. *)
Lemma csv_read_value_lf value record records rest :
  csv_read Plain [] record records (escapeCsvValue value ++ LF :: rest)
  = csv_read Plain [] [] (records ++ [record ++ [csv_text value]]) rest.
Proof.
  destruct (escapeCsvValue_cases value) as [[_ ->]|(_ & Hplain & ->)].
  - rewrite <- !app_assoc. simpl. by rewrite csv_read_quoted.
  - by rewrite csv_read_plain.
Qed.

Lemma csv_read_line (row : list jsval) record records rest :
  row ≠ [] →
  csv_read Plain [] record records (csv_line row ++ LF :: rest)
  = csv_read Plain [] [] (records ++ [record ++ csv_texts row]) rest.
Proof.
  unfold csv_line, csv_texts. revert record. induction row as [|value row IH]; intros record Hrow;
    [done|].
  destruct row as [|value' row].
  - simpl. apply csv_read_value_lf.
  - change (join_with [COMMA] (escapeCsvValue <$> value :: value' :: row))
      with (escapeCsvValue value ++ [COMMA]
            ++ join_with [COMMA] (escapeCsvValue <$> value' :: row)).
    rewrite <- !app_assoc. simpl app at 2.
    rewrite csv_read_value_comma, IH by done.
    by rewrite fmap_cons, <- app_assoc.
Qed.

Lemma csv_read_lines (lines : list (list jsval)) (records : list (list jsstring)) :
  Forall (fun row => row ≠ []) lines →
  csv_read Plain [] [] records (concat ((fun row => csv_line row ++ [LF]) <$> lines))
  = Some (records ++ (csv_texts <$> lines)).
Proof.
  intros Hlines. revert records.
  induction Hlines as [|row lines Hrow _ IH]; intros records; simpl.
  - by rewrite app_nil_r.
  - rewrite <- app_assoc. simpl. rewrite csv_read_line by done.
    rewrite IH. simpl. by rewrite <- app_assoc.
Qed.

Lemma join_lines (lines : list jsstring) :
  lines ≠ [] →
  join_with [LF] lines ++ [LF] = concat ((fun line => line ++ [LF]) <$> lines).
Proof.
  induction lines as [|line lines IH]; [done|]. intros _.
  destruct lines as [|line' lines].
  - simpl. by rewrite app_nil_r.
  - change (join_with [LF] (line :: line' :: lines))
      with (line ++ [LF] ++ join_with [LF] (line' :: lines)).
    rewrite (fmap_cons _ line), concat_cons, <- IH by done.
    by rewrite <- !app_assoc.
Qed.

Lemma csv_row_nonempty registration row : csv_row registration = Some row → row ≠ [].
Proof.
  unfold csv_row. intros H.
  destruct (find_amount "campType" _); [|done].
  destruct (find_amount "mealPlan" _); [|done].
  destruct (find_amount "accommodation" _); [|done].
  simpl in H. by injection H as <-.
Qed.

Lemma csv_rows_nonempty registrations rows :
  csv_rows registrations = Some rows → Forall (fun row => row ≠ []) rows.
Proof.
  unfold csv_rows. intros H%mapM_Some_1.
  induction H as [|registration row registrations rows Hrow _ IH]; constructor; [|done].
  by eapply csv_row_nonempty.
Qed.

(** C8. A value is written in double quotes, its double quotes doubled,
    when its text holds a double quote, a comma, a line feed or a carriage
    return, and as it is otherwise.  The export starts with the byte-order
    mark, and reading what follows the mark as CSV gives back the header
    and, for every registration, the texts of its cells, whatever
    characters they hold. *)
Theorem buildCsvExport_round_trip (registrations : list mapped_registration) :
  (∀ value,
     ((∃ c, c ∈ csv_text value ∧ c ∈ [QUOTE; COMMA; LF; CR])
      ∧ escapeCsvValue value = [QUOTE] ++ double_quotes (csv_text value) ++ [QUOTE])
     ∨ ((∀ c, c ∈ csv_text value → c ∉ [QUOTE; COMMA; LF; CR])
        ∧ escapeCsvValue value = csv_text value))
  ∧ (∀ value, parse_csv (escapeCsvValue value ++ [LF]) = Some [[csv_text value]])
  ∧ match buildCsvExport registrations with
    | Some csv =>
        ∃ rows body,
          csv_rows registrations = Some rows
          ∧ length rows = length registrations
          ∧ csv = BOM :: body
          ∧ parse_csv body = Some ((js <$> CSV_HEADERS) :: (csv_texts <$> rows))
    | None => csv_rows registrations = None
    end.
Proof.
  split.
  { intros value. destruct (escapeCsvValue_cases value) as [H|(H1 & _ & H2)];
      [by left | by right]. }
  split.
  { intros value. unfold parse_csv. by rewrite csv_read_value_lf. }
  unfold buildCsvExport.
  destruct (csv_rows registrations) as [rows|] eqn:Hrows; [|done].
  cbn [mbind option_bind].
  eexists rows, _. split; [done|]. split.
  { unfold csv_rows in Hrows. apply mapM_Some_1, Forall2_length in Hrows. done. }
  split; [reflexivity|].
  unfold parse_csv.
  rewrite join_lines by done.
  change (((fun line : jsstring => line ++ [LF]) <$>
           csv_line ((fun h => JStr (js h)) <$> CSV_HEADERS) :: (csv_line <$> rows)))
    with (((fun row => csv_line row ++ [LF]) <$>
           (((fun h => JStr (js h)) <$> CSV_HEADERS) :: [])) ++
          ((fun line : jsstring => line ++ [LF]) <$> (csv_line <$> rows))).
  rewrite <- list_fmap_compose.
  rewrite <- (fmap_app (fun row => csv_line row ++ [LF])).
  rewrite csv_read_lines.
  - rewrite fmap_app. reflexivity.
  - apply Forall_app. split; [by repeat constructor | by eapply csv_rows_nonempty].
Qed.
(* ===================================================================== *)
(** * Part II, continued                                                  *)
(* ===================================================================== *)

(** ** Store: unknown ids and the primary key *)

Lemma sql_changes_zero (where_ : gmap string sqlval → bool) (db : table) :
  sql_changes where_ db = 0 ↔ ∀ r, r ∈ rows db → where_ r = false.
Proof.
  unfold sql_changes. destruct db as [cs rs]; simpl. split.
  - intros H r Hr. destruct (where_ r) eqn:Hw; [|done].
    assert (r ∈ filter (fun r => where_ r = true) rs) as Hin by (by apply list_elem_of_filter).
    destruct (filter _ rs); [by apply elem_of_nil in Hin | simpl in H; lia].
  - intros H. induction rs as [|r rs IH]; [done|].
    rewrite filter_cons, decide_False.
    + apply IH. intros r' Hr'. apply H. by right.
    + rewrite H; [done | by left].
Qed.

Lemma sql_update_none (where_ : gmap string sqlval → bool)
    (set : gmap string sqlval → gmap string sqlval) (db : table) :
  (∀ r, r ∈ rows db → where_ r = false) → sql_update where_ set db = db.
Proof.
  intros H. apply sql_update_fixed. intros r Hr. by rewrite H.
Qed.

(** X1. The count a status update or an anonymization returns is 0 exactly
    when no row holds the id, and then the store is left as it is: the
    not-found case of the two admin operations changes nothing. *)
Theorem unknown_id_changes_nothing (db : table) (registrationId status : jsstring) :
  let updated := updateRegistrationStatus db registrationId status in
  let anonymized := anonymizeRegistration db registrationId in
  updated.2 = anonymized.2
  ∧ 0 ≤ updated.2 ≤ Z.of_nat (length (rows db))
  ∧ (updated.2 = 0 ↔ ∀ r, r ∈ rows db → col r "id" ≠ SqlText registrationId)
  ∧ (updated.2 = 0 → updated.1 = db ∧ anonymized.1 = db).
Proof.
  cbv zeta. unfold updateRegistrationStatus, anonymizeRegistration. cbn [fst snd].
  split; [done|]. split.
  { unfold sql_changes. split; [lia|]. apply inj_le, length_filter. }
  split.
  - rewrite sql_changes_zero. split.
    + intros H r Hr Hid. specialize (H r Hr). unfold id_is in H. rewrite Hid in H.
      simpl in H. by rewrite bool_decide_eq_true_2 in H.
    + intros H r Hr. specialize (H r Hr). unfold id_is.
      destruct (col r "id") as [|z|s]; simpl; try done.
      case_bool_decide; [congruence | done].
  - intros H. pose proof (proj1 (sql_changes_zero _ _) H) as Hnone.
    split; by apply sql_update_none.
Qed.

Lemma sql_eq_sym a b : sql_eq a b = sql_eq b a.
Proof.
  destruct a as [|x|s], b as [|y|t]; simpl; try done.
  - by rewrite Z.eqb_sym.
  - f_equal. apply bool_decide_ext. split; congruence.
Qed.

Lemma sql_update_unique_ids (where_ : gmap string sqlval → bool)
    (set : gmap string sqlval → gmap string sqlval) (db : table) :
  (∀ r, col (set r) "id" = col r "id") → unique_ids db → unique_ids (sql_update where_ set db).
Proof.
  intros Hid Huniq i j r1 r2 H1 H2 Heq.
  rewrite sql_update_lookup in H1, H2.
  destruct (rows db !! i) as [x1|] eqn:E1; [|done].
  destruct (rows db !! j) as [x2|] eqn:E2; [|done].
  simpl in H1, H2. injection H1 as <-. injection H2 as <-.
  apply (Huniq i j x1 x2 E1 E2).
  by destruct (where_ x1), (where_ x2); rewrite ?Hid in Heq.
Qed.

Lemma insert_row_unique_ids db values db' :
  insert_row db values = Returned db' → unique_ids db → unique_ids db'.
Proof.
  unfold insert_row. intros H Huniq.
  destruct (negb _); [done|]. destruct (existsb _ NOT_NULL_COLUMNS); [done|].
  destruct (existsb _ (rows db)) eqn:Hfresh; [done|]. injection H as <-.
  assert (∀ k r', rows db !! k = Some r' →
            sql_true (sql_eq (col r' "id") (col (list_to_map values) "id")) = false) as Hnew.
  { intros k r' Hk. destruct (sql_true _) eqn:E; [|done].
    assert (existsb (fun r' => sql_true (sql_eq (col r' "id")
                                          (col (list_to_map values) "id"))) (rows db) = true)
      as Hex.
    { apply existsb_exists. exists r'. split; [|done].
      apply list_elem_of_In, list_elem_of_lookup. eauto. }
    congruence. }
  intros i j r1 r2 H1 H2 Heq. simpl in H1, H2.
  apply lookup_app_Some in H1 as [H1|[Hi H1]], H2 as [H2|[Hj H2]].
  - by eapply Huniq.
  - apply list_lookup_singleton_Some in H2 as [_ <-].
    by rewrite (Hnew _ _ H1) in Heq.
  - apply list_lookup_singleton_Some in H1 as [_ <-].
    rewrite sql_eq_sym in Heq. by rewrite (Hnew _ _ H2) in Heq.
  - apply list_lookup_singleton_Some in H1 as [Hi' _], H2 as [Hj' _]. lia.
Qed.

Lemma handle_unique_ids `{Runtime} rq db : unique_ids db → unique_ids (handle rq db).
Proof.
  intros Huniq. destruct rq as [env body|body|body]; unfold handle.
  - match goal with
    | |- context [mbind ?f ?x] => destruct (mbind f x) as [cleanBody|]
    end; [|done].
    destruct (validateRegistration cleanBody); [|done].
    destruct (calculatePricing _) as [pricing|]; [|done].
    cbv zeta.
    destruct (insertRegistration db _) as [db'|e] eqn:E; [|done].
    by eapply insert_row_unique_ids.
  - match goal with
    | |- context [mbind ?f ?x] => destruct (mbind f x) as [[|c registrationId]|]
    end; try done.
    apply sql_update_unique_ids; [|done]. intros r. by apply col_insert_ne.
  - match goal with
    | |- context [mbind ?f ?x] => destruct (mbind f x) as [[|c registrationId]|]
    end; try done.
    apply sql_update_unique_ids; [|done]. intros r. by read_col.
Qed.

Lemma filter_at_most_one {A} (P : A → bool) (l : list A) :
  (∀ i j x y, l !! i = Some x → l !! j = Some y → P x = true → P y = true → i = j) →
  (length (filter (fun x => P x = true) l) ≤ 1)%nat.
Proof.
  induction l as [|x l IH]; intros H; [simpl; lia|].
  rewrite filter_cons. destruct (decide (P x = true)) as [Hx|Hx].
  - assert (filter (fun x => P x = true) l = []) as ->; [|simpl; lia].
    destruct (filter (fun x => P x = true) l) as [|y ys] eqn:Hf; [done|].
    assert (y ∈ filter (fun x => P x = true) l) as Hy by (rewrite Hf; by left).
    apply list_elem_of_filter in Hy as [Hpy Hy].
    apply list_elem_of_lookup in Hy as [j Hj].
    specialize (H 0%nat (S j) x y eq_refl Hj Hx Hpy). lia.
  - apply IH. intros i j a b Ha Hb Hpa Hpb.
    specialize (H (S i) (S j) a b Ha Hb Hpa Hpb). lia.
Qed.

(** X2. The requests keep the primary key: in a store where no two rows
    hold the same id, no two rows hold the same id after any sequence of
    registrations, mark-deleted and anonymize calls; and there a status
    update or an anonymization changes at most one row. *)
Theorem serve_keeps_unique_ids `{Runtime} (requests : list request) (db : table) :
  unique_ids db →
  unique_ids (serve requests db)
  ∧ ∀ registrationId status,
      (updateRegistrationStatus (serve requests db) registrationId status).2 ≤ 1
      ∧ (anonymizeRegistration (serve requests db) registrationId).2 ≤ 1.
Proof.
  intros Huniq.
  assert (unique_ids (serve requests db)) as Hserved.
  { revert db Huniq. unfold serve. induction requests as [|rq requests IH]; intros db Huniq;
      simpl; [done|]. apply IH. by apply handle_unique_ids. }
  split; [done|]. intros registrationId status.
  assert (sql_changes (id_is registrationId) (serve requests db) ≤ 1) as Hone.
  { unfold sql_changes.
    pose proof (filter_at_most_one (id_is registrationId) (rows (serve requests db))) as Hle.
    apply inj_le in Hle; [done|].
    intros i j x y Hx Hy Hpx Hpy. apply (Hserved i j x y Hx Hy).
    unfold id_is in Hpx, Hpy.
    destruct (col x "id") as [|zx|sx], (col y "id") as [|zy|sy]; simpl in *; try done.
    repeat case_bool_decide; try done. congruence. }
  done.
Qed.

(** X2 on the table with one registration, through a second registration
    with the same generated id, which the primary key refuses. *)
Lemma serve_keeps_unique_ids_witness :
  unique_ids (@serve sample_runtime [PostRegister sample_env (sent valid_body)] store_with_one)
  ∧ ∀ registrationId status,
      (updateRegistrationStatus
         (@serve sample_runtime [PostRegister sample_env (sent valid_body)] store_with_one)
         registrationId status).2 ≤ 1
      ∧ (anonymizeRegistration
           (@serve sample_runtime [PostRegister sample_env (sent valid_body)] store_with_one)
           registrationId).2 ≤ 1.
Proof.
  apply (@serve_keeps_unique_ids sample_runtime
           [PostRegister sample_env (sent valid_body)] store_with_one).
  intros i j r1 r2 H1 H2 _.
  destruct i as [|i]; [|vm_compute in H1; discriminate H1].
  destruct j as [|j]; [|vm_compute in H2; discriminate H2].
  reflexivity.
Defined.

(** ** Validation: what an accepted body looks like *)

Lemma lang_star_class p s :
  lang (RStar (RClass p)) s ↔ Forall (fun c => p c = true) s.
Proof.
  split.
  - intros H. remember (RStar (RClass p)) as r eqn:Er.
    induction H as [| | | | | |r0 s1 s2 H1 _ H2 IH2]; try discriminate; [constructor|].
    injection Er as ->. inversion H1; subst. constructor; [done | by apply IH2].
  - induction 1 as [|c s Hc _ IH]; [constructor|].
    apply (lang_star_app _ [c] s); [by constructor | done].
Qed.

Lemma lang_plus_class p s :
  lang (RPlus (RClass p)) s ↔ s ≠ [] ∧ Forall (fun c => p c = true) s.
Proof.
  unfold RPlus. split.
  - intros H. lang_inv. lang_inv.
    match goal with H : lang (RStar _) _ |- _ => apply lang_star_class in H end.
    split; [done | by constructor].
  - intros [Hne Hall]. destruct Hall as [|c s Hc Hs]; [done|].
    apply (lang_cat _ _ [c] s); [by constructor | by apply lang_star_class].
Qed.

Lemma lang_repeat_class n p s :
  lang (RRepeat n (RClass p)) s ↔ length s = n ∧ Forall (fun c => p c = true) s.
Proof.
  revert s. induction n as [|n IH]; intros s; simpl.
  - split.
    + intros H. by lang_inv.
    + intros [Hlen _]. destruct s; [constructor | done].
  - split.
    + intros H. lang_inv. lang_inv.
      match goal with H : lang (RRepeat _ _) _ |- _ => apply IH in H as [Hlen Hall] end.
      simpl. split; [by rewrite Hlen | by constructor].
    + intros [Hlen Hall]. destruct Hall as [|c s Hc Hs]; [done|].
      apply (lang_cat _ _ [c] s); [by constructor|]. apply IH. simpl in Hlen. split; [lia|done].
Qed.

Lemma lang_upto_class n p s :
  lang (RUpTo n (RClass p)) s ↔ (length s ≤ n)%nat ∧ Forall (fun c => p c = true) s.
Proof.
  revert s. induction n as [|n IH]; intros s; simpl.
  - split.
    + intros H. by lang_inv.
    + intros [Hlen _]. destruct s; [constructor | simpl in Hlen; lia].
  - split.
    + intros H. lang_inv.
      * lang_inv. split; [simpl; lia | constructor].
      * lang_inv. lang_inv.
        match goal with H : lang (RUpTo _ _) _ |- _ => apply IH in H as [Hlen Hall] end.
        simpl. split; [lia | by constructor].
    + intros [Hlen Hall]. destruct Hall as [|c s Hc Hs].
      * apply lang_alt_l. constructor.
      * apply lang_alt_r. apply (lang_cat _ _ [c] s); [by constructor|].
        apply IH. simpl in Hlen. split; [lia|done].
Qed.

Lemma lang_range_class lo hi p s :
  (lo ≤ hi)%nat →
  lang (RRange lo hi (RClass p)) s
  ↔ (lo ≤ length s ≤ hi)%nat ∧ Forall (fun c => p c = true) s.
Proof.
  intros Hle. unfold RRange. split.
  - intros H. lang_inv.
    match goal with
    | H1 : lang (RRepeat _ _) _, H2 : lang (RUpTo _ _) _ |- _ =>
        apply lang_repeat_class in H1 as [Hl1 Ha1];
        apply lang_upto_class in H2 as [Hl2 Ha2]
    end.
    rewrite length_app. split; [lia | by apply Forall_app].
  - intros [Hlen Hall]. rewrite <- (take_drop lo s). constructor.
    + apply lang_repeat_class. split; [rewrite length_take; lia | by apply Forall_take].
    + apply lang_upto_class. split; [rewrite length_drop; lia | by apply Forall_drop].
Qed.

Lemma lang_char c s : lang (RChar c) s ↔ ∃ x, s = [x] ∧ [x] = js c.
Proof.
  unfold RChar. split.
  - intros H. lang_inv. eexists; split; [done|].
    match goal with H : bool_decide _ = true |- _ => by apply bool_decide_eq_true in H end.
  - intros (x & -> & Hx). constructor. by apply bool_decide_eq_true.
Qed.

(** The email pattern: a local part, an at sign, a domain, a dot and a
    last label, none of them empty or holding white space or an at sign. *)
Lemma isValidEmail_shape s :
  isValidEmail s = true
  ↔ ∃ local domain label,
      s = local ++ js "@" ++ domain ++ js "." ++ label
      ∧ local ≠ [] ∧ domain ≠ [] ∧ label ≠ []
      ∧ Forall (fun c => not_space_or_at c = true) (local ++ domain ++ label).
Proof.
  unfold isValidEmail, test_anchored. rewrite matches_all_lang. unfold email_regex. split.
  - intros H. do 4 lang_inv.
    repeat match goal with
           | H : lang (RPlus _) _ |- _ => apply lang_plus_class in H as [? ?]
           | H : lang (RChar _) _ |- _ => apply lang_char in H as (? & -> & ->)
           end.
    eexists _, _, _. split; [reflexivity|]. repeat split; try done.
    by repeat (apply Forall_app; split).
  - intros (local & domain & label & -> & Hl & Hd & Hb & Hall).
    apply Forall_app in Hall as [Hal Hall]. apply Forall_app in Hall as [Had Hab].
    constructor; [by apply lang_plus_class|].
    constructor; [apply lang_char; by eexists|].
    constructor; [by apply lang_plus_class|].
    constructor; [apply lang_char; by eexists | by apply lang_plus_class].
Qed.

Lemma isValidPhone_shape s :
  isValidPhone s = true
  ↔ (7 ≤ length (trim s) ≤ 20)%nat ∧ Forall (fun c => phone_char c = true) (trim s).
Proof.
  unfold isValidPhone, test_anchored, phone_regex. rewrite matches_all_lang.
  apply lang_range_class. lia.
Qed.

Lemma zip_shape s :
  test_anchored zip_regex s = true
  ↔ length s = 4%nat ∧ Forall (fun c => is_digit c = true) s.
Proof.
  unfold test_anchored, zip_regex. rewrite matches_all_lang. apply lang_repeat_class.
Qed.

Lemma push_if_nil_iff cond m errors : push_if cond m errors = [] ↔ cond = false ∧ errors = [].
Proof.
  split; [apply push_if_nil_inv|]. by intros [-> ->].
Qed.

Lemma isNonEmptyString_true s : isNonEmptyString s = true ↔ trim s ≠ [].
Proof. unfold isNonEmptyString. destruct (trim s); simpl; split; done. Qed.

Lemma required_field s : negb (isNonEmptyString s) = false ↔ trim s ≠ [].
Proof. rewrite negb_false_iff. apply isNonEmptyString_true. Qed.

Lemma allowed_code (table : list (jsstring * price_option)) k :
  negb (hasOwnProperty table k) = false ↔ k ∈ table.*1.
Proof. rewrite negb_false_iff. apply hasOwnProperty_keys. Qed.

(** X3. What validation accepts.  [validateRegistration] reports no error
    exactly when the name, the city and the billing fields are not blank,
    the email has the shape local@domain.label without white space, the
    phone has 7 to 20 characters of a phone number, the ZIP has four
    digits, the three codes are in the price table, a grade is given for
    every discipline of the camp type, an exam comes with its target grade
    and with a camp type that includes its discipline, the note has at
    most 4000 characters and both consents are given. *)
Theorem validateRegistration_accepts (data : registration_data) :
  validateRegistration data = []
  ↔ trim (d_fullName data) ≠ []
    ∧ (∃ local domain label,
         d_email data = local ++ js "@" ++ domain ++ js "." ++ label
         ∧ local ≠ [] ∧ domain ≠ [] ∧ label ≠ []
         ∧ Forall (fun c => not_space_or_at c = true) (local ++ domain ++ label))
    ∧ ((7 ≤ length (trim (d_phone data)) ≤ 20)%nat
       ∧ Forall (fun c => phone_char c = true) (trim (d_phone data)))
    ∧ trim (d_city data) ≠ []
    ∧ d_campType data ∈ [js "iaido"; js "jodo"; js "both"]
    ∧ d_mealPlan data ∈ [js "none"; js "lunch"; js "full"]
    ∧ d_accommodation data ∈ [js "none"; js "dojo"; js "guesthouse"]
    ∧ (d_campType data ≠ js "jodo" → trim (d_currentGradeIaido data) ≠ [])
    ∧ (d_campType data ≠ js "iaido" → trim (d_currentGradeJodo data) ≠ [])
    ∧ (d_wantsExamIaido data = true →
       d_campType data ≠ js "jodo" ∧ trim (d_targetGradeIaido data) ≠ [])
    ∧ (d_wantsExamJodo data = true →
       d_campType data ≠ js "iaido" ∧ trim (d_targetGradeJodo data) ≠ [])
    ∧ trim (d_billingFullName data) ≠ []
    ∧ (length (d_billingZip data) = 4%nat
       ∧ Forall (fun c => is_digit c = true) (d_billingZip data))
    ∧ trim (d_billingCity data) ≠ []
    ∧ trim (d_billingAddress data) ≠ []
    ∧ trim (d_billingCountry data) ≠ []
    ∧ (length (d_foodNotes data) ≤ 4000)%nat
    ∧ d_privacyConsent data = true
    ∧ d_termsConsent data = true.
Proof.
  split.
  - intros H. unfold validateRegistration in H. cbv zeta in H.
    repeat (apply push_if_nil_inv in H as [? H]).
    repeat match goal with
           | H : negb _ = false |- _ => apply negb_false_iff in H
           | H : _ && _ = false |- _ => apply andb_false_iff in H
           end.
    clear H.
    repeat match goal with
           | H : isNonEmptyString _ = true |- _ => apply isNonEmptyString_true in H
           | H : hasOwnProperty _ _ = true |- _ => apply hasOwnProperty_keys in H
           | H : isValidEmail _ = true |- _ => apply isValidEmail_shape in H
           | H : isValidPhone _ = true |- _ => apply isValidPhone_shape in H
           | H : test_anchored zip_regex _ = true |- _ => apply zip_shape in H
           | H : (_ <? _)%nat = false |- _ => apply Nat.ltb_ge in H
           | H : _ ∨ negb (isNonEmptyString _) = false |- _ => rewrite required_field in H
           | H : _ ∨ bool_decide _ = false |- _ => rewrite bool_decide_eq_false in H
           | H : _ || _ = false ∨ _ |- _ => rewrite !orb_false_iff, !bool_decide_eq_false in H
           end.
    assert (d_campType data = js "iaido" ∨ d_campType data = js "jodo"
            ∨ d_campType data = js "both") as Hcamp.
    { match goal with H : d_campType data ∈ _ |- _ =>
        apply elem_of_cons in H as [?|H]; [by left|];
        apply elem_of_cons in H as [?|H]; [by right; left|];
        apply elem_of_cons in H as [?|H]; [by right; right|];
        by apply elem_of_nil in H
      end. }
    repeat match goal with H : _ ∧ _ |- _ => destruct H end.
    repeat match goal with |- _ ∧ _ => split end; try assumption.
    + intros Hne.
      match goal with H : _ ∨ trim (d_currentGradeIaido data) ≠ [] |- _ =>
        destruct H as [[[? ?] _]|?]; [|done] end.
      destruct Hcamp as [?|[?|?]]; done.
    + intros Hne.
      match goal with H : _ ∨ trim (d_currentGradeJodo data) ≠ [] |- _ =>
        destruct H as [[[? ?] _]|?]; [|done] end.
      destruct Hcamp as [?|[?|?]]; done.
    + intros Hw.
      repeat match goal with H : d_wantsExamIaido data = false ∨ _ |- _ =>
        destruct H as [H|H]; [by rewrite Hw in H|] end.
      done.
    + intros Hw.
      repeat match goal with H : d_wantsExamJodo data = false ∨ _ |- _ =>
        destruct H as [H|H]; [by rewrite Hw in H|] end.
      done.
  - intros (Hname & Hemail & Hphone & Hcity & Hcamp & Hmeal & Hacc & Hgi & Hgj & Hei & Hej
            & Hbname & Hzip & Hbcity & Haddress & Hcountry & Hnotes & Hprivacy & Hterms).
    unfold validateRegistration. cbv zeta.
    repeat (apply push_if_nil_iff; split); try reflexivity;
      rewrite ?required_field, ?negb_false_iff; try assumption;
      try (by apply hasOwnProperty_keys); try (by apply zip_shape);
      try (by apply Nat.ltb_ge); try (by apply isValidEmail_shape);
      try (by apply isValidPhone_shape).
    + destruct (d_wantsExamJodo data); [|done].
      apply bool_decide_eq_false. by apply Hej.
    + destruct (d_wantsExamIaido data); [|done].
      apply bool_decide_eq_false. by apply Hei.
    + destruct (d_wantsExamJodo data); [|done].
      apply required_field. by apply Hej.
    + destruct (d_wantsExamIaido data); [|done].
      apply required_field. by apply Hei.
    + destruct (decide (d_campType data = js "iaido")) as [Hc|Hc].
      * destruct (d_wantsExamJodo data); [by destruct (Hej eq_refl)|]. by rewrite Hc.
      * apply andb_false_iff. right. apply required_field. by apply Hgj.
    + destruct (decide (d_campType data = js "jodo")) as [Hc|Hc].
      * destruct (d_wantsExamIaido data); [by destruct (Hei eq_refl)|]. by rewrite Hc.
      * apply andb_false_iff. right. apply required_field. by apply Hgi.
Qed.

(** ** Pricing of a selection that is already canonical *)

Lemma toEnumValue_key k (table : list (jsstring * price_option)) fallback :
  k ∈ table.*1 → trim k = k → toEnumValue (JStr k) table fallback = Some k.
Proof.
  intros Hk Htrim. rewrite toEnumValue_string, Htrim. by rewrite decide_True.
Qed.

Lemma price_codes_trimmed :
  Forall (fun k => trim k = k)
    ((po_campType PRICE_OPTIONS).*1 ++ (po_mealPlan PRICE_OPTIONS).*1
     ++ (po_accommodation PRICE_OPTIONS).*1).
Proof. repeat constructor. Qed.

Lemma toEnumValue_fixed value (table : list (jsstring * price_option)) fallback code :
  Forall (fun k => trim k = k) table.*1 → fallback ∈ table.*1 →
  toEnumValue value table fallback = Some code →
  toEnumValue (JStr code) table fallback = Some code.
Proof.
  intros Htrim Hfb Hcode.
  assert (code ∈ table.*1) as Hin.
  { apply hasOwnProperty_keys. eapply toEnumValue_allowed; [|exact Hcode].
    by apply hasOwnProperty_keys. }
  apply toEnumValue_key; [done|]. by apply (proj1 (Forall_forall _ _) Htrim).
Qed.

(** X4. Pricing the selection of a pricing gives the same pricing: the
    codes [calculatePricing] returns are canonical, so the endpoint, which
    prices the sanitized codes a second time, stores a breakdown for the
    very codes it stores in the row.  The function raises only on a
    selection that holds a value [String] cannot convert. *)
Theorem calculatePricing_selection_fixed (sel : selection_in) :
  match calculatePricing sel with
  | Some p =>
      calculatePricing
        {| in_campType := JStr (sel_campType (pr_selection p));
           in_mealPlan := JStr (sel_mealPlan (pr_selection p));
           in_accommodation := JStr (sel_accommodation (pr_selection p)) |}
      = Some p
  | None =>
      String_raises (in_campType sel) = true ∨ String_raises (in_mealPlan sel) = true
      ∨ String_raises (in_accommodation sel) = true
  end.
Proof.
  pose proof price_codes_trimmed as H.
  apply Forall_app in H as [Hcamp H]. apply Forall_app in H as [Hmeal Hacc].
  unfold calculatePricing.
  destruct (toEnumValue (in_campType sel) _ _) as [camp|] eqn:Ec;
    [|left; by eapply toEnumValue_None].
  destruct (toEnumValue (in_mealPlan sel) _ _) as [meal|] eqn:Em;
    [|right; left; by eapply toEnumValue_None].
  destruct (toEnumValue (in_accommodation sel) _ _) as [acc|] eqn:Ea;
    [|right; right; by eapply toEnumValue_None].
  cbn [mbind option_bind pr_selection sel_campType sel_mealPlan sel_accommodation
       in_campType in_mealPlan in_accommodation].
  rewrite (toEnumValue_fixed _ _ _ _ Hcamp) by (try done; apply hasOwnProperty_keys; reflexivity).
  rewrite (toEnumValue_fixed _ _ _ _ Hmeal) by (try done; apply hasOwnProperty_keys; reflexivity).
  rewrite (toEnumValue_fixed _ _ _ _ Hacc) by (try done; apply hasOwnProperty_keys; reflexivity).
  reflexivity.
Qed.

(** ** The registration endpoint *)

Lemma insertRegistration_returns_iff (db : table) (reg : registration) :
  (∃ db', insertRegistration db reg = Returned db')
  ↔ (∀ c, c ∈ INSERT_COLUMNS → c ∈ columns db)
    ∧ r_amountHuf reg ≠ None
    ∧ ∀ r, r ∈ rows db → col r "id" ≠ SqlText (r_id reg).
Proof.
  unfold insertRegistration. cbv zeta.
  match goal with |- context [insert_row db ?v] => set (values := v) end.
  assert (col (list_to_map values) "id" = SqlText (r_id reg)) as Hid.
  { unfold values, list_to_map. cbn [foldr fst snd]. by read_col. }
  assert (existsb (fun c => bool_decide (col (list_to_map values) c = SqlNull))
            NOT_NULL_COLUMNS = true ↔ r_amountHuf reg = None) as Hnull.
  { rewrite existsb_exists. split.
    - intros (c & Hc & Hn). apply bool_decide_eq_true in Hn. apply list_elem_of_In in Hc.
      revert c Hc Hn.
      refine (proj1 (Forall_forall (fun c => col (list_to_map values) c = SqlNull →
                                            r_amountHuf reg = None) NOT_NULL_COLUMNS) _).
      unfold NOT_NULL_COLUMNS.
      repeat (apply Forall_cons; split); [..|apply Forall_nil];
        unfold values, list_to_map; cbn [foldr fst snd]; read_col; try done.
      by destruct (r_amountHuf reg).
    - intros Hnone. exists "amount_huf". split; [simpl; tauto|].
      apply bool_decide_eq_true. unfold values, list_to_map. cbn [foldr fst snd]. read_col.
      by rewrite Hnone. }
  assert (forallb (fun c => bool_decide (c ∈ columns db)) values.*1 = true
          ↔ ∀ c, c ∈ INSERT_COLUMNS → c ∈ columns db) as Hcols.
  { change (values.*1) with INSERT_COLUMNS. rewrite forallb_forall. split.
    - intros H c Hc. apply list_elem_of_In in Hc. specialize (H c Hc).
      by apply bool_decide_eq_true in H.
    - intros H c Hc. apply bool_decide_eq_true_2, H. by apply list_elem_of_In. }
  assert (existsb (fun r' => sql_true (sql_eq (col r' "id") (col (list_to_map values) "id")))
            (rows db) = false
          ↔ ∀ r, r ∈ rows db → col r "id" ≠ SqlText (r_id reg)) as Hfresh.
  { rewrite Hid. split.
    - intros H r Hr Heq. apply id_taken in Heq.
      assert (existsb (fun r' => sql_true (sql_eq (col r' "id") (SqlText (r_id reg))))
                (rows db) = true) as Hex; [|congruence].
      apply existsb_exists. exists r. split; [by apply list_elem_of_In | done].
    - intros H. apply not_true_is_false. intros Hex.
      apply existsb_exists in Hex as (r & Hr & Heq).
      apply id_taken in Heq. apply list_elem_of_In in Hr. by apply (H r). }
  unfold insert_row. cbv zeta.
  destruct (forallb _ values.*1) eqn:Ec; cbn [negb].
  - destruct (existsb _ NOT_NULL_COLUMNS) eqn:En.
    + split; [intros [? [=]]|]. intros (_ & Hn & _). destruct Hn. by apply Hnull.
    + destruct (existsb _ (rows db)) eqn:Ef.
      * split; [intros [? [=]]|]. intros (_ & _ & Hf). apply Hfresh in Hf. congruence.
      * split; [|intros _; eexists; reflexivity]. intros _. split; [by apply Hcols|].
        split; [|by apply Hfresh]. intros Hn. apply Hnull in Hn. congruence.
  - split; [intros [? [=]]|]. intros (Hc & _). apply Hcols in Hc. congruence.
Qed.


Lemma validated_consents (data : registration_data) :
  validateRegistration data = [] → d_privacyConsent data = true ∧ d_termsConsent data = true.
Proof.
  unfold validateRegistration. cbv zeta. intros H.
  apply push_if_nil_inv in H as [Ht H]. apply push_if_nil_inv in H as [Hp _].
  by rewrite negb_false_iff in Ht, Hp.
Qed.

Lemma valid_codes_priced (data : registration_data) :
  hasOwnProperty (po_campType PRICE_OPTIONS) (d_campType data) = true
  ∧ hasOwnProperty (po_mealPlan PRICE_OPTIONS) (d_mealPlan data) = true
  ∧ hasOwnProperty (po_accommodation PRICE_OPTIONS) (d_accommodation data) = true →
  ∃ camp meal acc pricing,
    assoc (d_campType data) (po_campType PRICE_OPTIONS) = Some camp
    ∧ assoc (d_mealPlan data) (po_mealPlan PRICE_OPTIONS) = Some meal
    ∧ assoc (d_accommodation data) (po_accommodation PRICE_OPTIONS) = Some acc
    ∧ calculatePricing {| in_campType := JStr (d_campType data);
                          in_mealPlan := JStr (d_mealPlan data);
                          in_accommodation := JStr (d_accommodation data) |}
      = Some pricing
    ∧ totalHuf pricing = Some (amountHuf camp + amountHuf meal + amountHuf acc)
    ∧ currency pricing = js "EUR".
Proof.
  intros (Hcamp & Hmeal & Hacc). apply hasOwnProperty_keys in Hcamp, Hmeal, Hacc.
  pose proof price_codes_trimmed as H.
  apply Forall_app in H as [Tcamp H]. apply Forall_app in H as [Tmeal Tacc].
  destruct (proj1 (hasOwnProperty_assoc (po_campType PRICE_OPTIONS) (d_campType data)))
    as [camp Ecamp]; [by apply hasOwnProperty_keys|].
  destruct (proj1 (hasOwnProperty_assoc (po_mealPlan PRICE_OPTIONS) (d_mealPlan data)))
    as [meal Emeal]; [by apply hasOwnProperty_keys|].
  destruct (proj1 (hasOwnProperty_assoc (po_accommodation PRICE_OPTIONS)
                     (d_accommodation data)))
    as [acc Eacc]; [by apply hasOwnProperty_keys|].
  exists camp, meal, acc.
  unfold calculatePricing. cbn [in_campType in_mealPlan in_accommodation].
  rewrite !toEnumValue_key; try done;
    try (by apply (proj1 (Forall_forall _ _) Tcamp));
    try (by apply (proj1 (Forall_forall _ _) Tmeal));
    try (by apply (proj1 (Forall_forall _ _) Tacc)).
  cbn [mbind option_bind]. eexists. do 3 (split; [done|]). split; [reflexivity|].
  cbn [totalHuf currency]. split; [|done].
  unfold mk_line_item. cbn [fold_left li_amountHuf]. rewrite Ecamp, Emeal, Eacc.
  simpl. f_equal.
Qed.



(** The registration endpoint on a body it can read, sanitize and accept. *)
Lemma register_accepted `{Runtime} (env : register_env) (body : request_body) (db : table)
    (payload : jsval) (data : registration_data) :
  parseJsonBody body = Some payload →
  sanitizePayload payload = Some data →
  validateRegistration data = [] →
  ∃ camp meal acc pricing,
    assoc (d_campType data) (po_campType PRICE_OPTIONS) = Some camp
    ∧ assoc (d_mealPlan data) (po_mealPlan PRICE_OPTIONS) = Some meal
    ∧ assoc (d_accommodation data) (po_accommodation PRICE_OPTIONS) = Some acc
    ∧ totalHuf pricing = Some (amountHuf camp + amountHuf meal + amountHuf acc)
    ∧ currency pricing = js "EUR"
    ∧ handle (PostRegister env body) db
      = match insertRegistration db
                {| r_id := js "reg_" ++ env_uuid env;
                   r_createdAt := env_createdAt env;
                   r_status := js "PENDING_PAYMENT";
                   r_amountHuf := totalHuf pricing;
                   r_currency := currency pricing;
                   r_priceBreakdown := pricing;
                   r_privacyPolicyVersion := PRIVACY_POLICY_VERSION;
                   r_termsVersion := TERMS_VERSION;
                   r_privacyConsentAt :=
                     if d_privacyConsent data then env_privacyConsentAt env else [];
                   r_termsConsentAt :=
                     if d_termsConsent data then env_termsConsentAt env else [];
                   r_body := data |} with
        | Returned db' => db'
        | Thrown _ => db
        end.
Proof.
  intros Hp Hs Hv.
  destruct (valid_codes_priced data (sanitizePayload_enums payload data Hs))
    as (camp & meal & acc & pricing & Ecamp & Emeal & Eacc & Epricing & Et & Ecur).
  exists camp, meal, acc, pricing. do 5 (split; [done|]).
  unfold handle. rewrite Hp. cbn [mbind option_bind]. by rewrite Hs, Hv, Epricing.
Qed.

(** The registration endpoint on any other body. *)
Lemma register_refused `{Runtime} (env : register_env) (body : request_body) (db : table) :
  (∀ payload data,
     parseJsonBody body = Some payload → sanitizePayload payload = Some data →
     validateRegistration data ≠ []) →
  handle (PostRegister env body) db = db.
Proof.
  intros Hno. unfold handle.
  destruct (parseJsonBody body) as [payload|] eqn:Hp; [|done]. cbn [mbind option_bind].
  destruct (sanitizePayload payload) as [data|] eqn:Hs; [|done].
  specialize (Hno payload data eq_refl Hs).
  by destruct (validateRegistration data).
Qed.

(** X6. The registration endpoint either leaves the table as it is, or
    appends one row to it: a row for a body that was read and that
    validation accepts, with a new id made of [reg_] and the generated
    UUID, the status PENDING_PAYMENT, the sum of the three prices of the
    chosen options in EUR, the sanitized personal and billing data, both
    consents recorded with their versions and times, and the two legacy
    columns filled from the discipline columns. *)
Theorem register_appends_pending_row `{Runtime} (env : register_env) (body : request_body)
    (db : table) :
  handle (PostRegister env body) db = db
  ∨ ∃ payload data camp meal acc r,
      parseJsonBody body = Some payload
      ∧ sanitizePayload payload = Some data
      ∧ validateRegistration data = []
      ∧ assoc (d_campType data) (po_campType PRICE_OPTIONS) = Some camp
      ∧ assoc (d_mealPlan data) (po_mealPlan PRICE_OPTIONS) = Some meal
      ∧ assoc (d_accommodation data) (po_accommodation PRICE_OPTIONS) = Some acc
      ∧ columns (handle (PostRegister env body) db) = columns db
      ∧ rows (handle (PostRegister env body) db) = rows db ++ [r]
      ∧ (∀ r0, r0 ∈ rows db → col r0 "id" ≠ col r "id")
      ∧ col r "id" = SqlText (js "reg_" ++ env_uuid env)
      ∧ col r "created_at" = SqlText (env_createdAt env)
      ∧ col r "status" = SqlText (js "PENDING_PAYMENT")
      ∧ col r "amount_huf" = SqlInt (amountHuf camp + amountHuf meal + amountHuf acc)
      ∧ col r "currency" = SqlText (js "EUR")
      ∧ col r "full_name" = SqlText (d_fullName data)
      ∧ col r "email" = SqlText (d_email data)
      ∧ col r "phone" = SqlText (d_phone data)
      ∧ col r "date_of_birth" = SqlText (d_dateOfBirth data)
      ∧ col r "city" = SqlText (d_city data)
      ∧ col r "camp_type" = SqlText (d_campType data)
      ∧ col r "meal_plan" = SqlText (d_mealPlan data)
      ∧ col r "accommodation" = SqlText (d_accommodation data)
      ∧ col r "current_grade_iaido" = SqlText (d_currentGradeIaido data)
      ∧ col r "current_grade_jodo" = SqlText (d_currentGradeJodo data)
      ∧ col r "current_grade"
        = SqlText (str_or (d_currentGradeIaido data) (d_currentGradeJodo data))
      ∧ col r "wants_exam_iaido" = sql_flag (d_wantsExamIaido data)
      ∧ col r "wants_exam_jodo" = sql_flag (d_wantsExamJodo data)
      ∧ col r "wants_exam" = sql_flag (d_wantsExamIaido data || d_wantsExamJodo data)
      ∧ col r "target_grade_iaido" = SqlText (d_targetGradeIaido data)
      ∧ col r "target_grade_jodo" = SqlText (d_targetGradeJodo data)
      ∧ col r "target_grade"
        = SqlText (str_or (d_targetGradeIaido data) (d_targetGradeJodo data))
      ∧ col r "billing_full_name" = SqlText (d_billingFullName data)
      ∧ col r "billing_zip" = SqlText (d_billingZip data)
      ∧ col r "billing_city" = SqlText (d_billingCity data)
      ∧ col r "billing_address" = SqlText (d_billingAddress data)
      ∧ col r "billing_country" = SqlText (d_billingCountry data)
      ∧ col r "food_notes" = SqlText (d_foodNotes data)
      ∧ col r "privacy_consent" = SqlInt 1
      ∧ col r "terms_consent" = SqlInt 1
      ∧ col r "privacy_policy_version" = SqlText PRIVACY_POLICY_VERSION
      ∧ col r "terms_version" = SqlText TERMS_VERSION
      ∧ col r "privacy_consent_at" = SqlText (env_privacyConsentAt env)
      ∧ col r "terms_consent_at" = SqlText (env_termsConsentAt env).
Proof.
  destruct (parseJsonBody body) as [payload|] eqn:Hp;
    [|left; apply register_refused; intros ? ? ?; congruence].
  destruct (sanitizePayload payload) as [data|] eqn:Es;
    [|left; apply register_refused; intros ? ? ? ?; congruence].
  destruct (validateRegistration data) eqn:Ev;
    [|left; apply register_refused; intros ? ? ? ?; congruence].
  destruct (register_accepted env body db payload data Hp Es Ev)
    as (camp & meal & acc & pricing & Ecamp & Emeal & Eacc & Et & Ecur & ->).
  destruct (insertRegistration db _) as [db'|e] eqn:Ei; [|by left].
  right.
  destruct (sanitizePayload_grades_trimmed payload data Es) as (Tci & Tcj & _ & _).
  destruct (validated_consents data Ev) as [Hpc Htc].
  pose proof (proj1 (insertRegistration_returns_iff db _) (ex_intro _ db' Ei))
    as (_ & _ & Hfresh).
  cbn [r_id] in Hfresh.
  unfold insertRegistration in Ei. cbv zeta in Ei.
  cbn [r_id r_createdAt r_status r_amountHuf r_currency r_priceBreakdown
       r_privacyPolicyVersion r_termsVersion r_privacyConsentAt r_termsConsentAt r_body] in Ei.
  rewrite Et, Ecur, Tci, Tcj, Hpc, Htc in Ei.
  apply insert_row_returned in Ei as [Hc Hr].
  exists payload, data, camp, meal, acc. eexists.
  do 7 (split; [done|]). split; [exact Hr|].
  assert (∀ a : jsstring, str_or a [] = a) as Hor by (by intros []).
  unfold list_to_map. cbn [foldr fst snd].
  split.
  { intros r0 Hr0. read_col. by apply Hfresh. }
  repeat split; read_col; rewrite ?Hor; reflexivity.
Qed.


(** ** Sanitization: the canonical form *)

Lemma lowered_text `{Runtime} (v : jsval) (t : jsstring) :
  toLowerCase <$> (trim <$> String_of v) = Some t →
  trim t = t ∧ Forall (fun c => ¬ (65 ≤ c ≤ 90)%N) t.
Proof.
  destruct (String_of v) as [text|]; [|done]. intros [= <-]. split.
  - apply toLowerCase_trimmed, trim_idem.
  - apply Forall_forall, toLowerCase_no_upper.
Qed.

(** X8. What [sanitizePayload] returns is canonical: no text field has
    white space at either end, the email has no upper case ASCII letter,
    and a target grade is kept only with its exam flag. *)
Theorem sanitizePayload_canonical `{Runtime} (payload : jsval) (data : registration_data) :
  sanitizePayload payload = Some data →
  Forall (fun field => trim field = field)
    [ d_fullName data; d_email data; d_phone data; d_dateOfBirth data; d_city data;
      d_currentGradeIaido data; d_currentGradeJodo data; d_campType data; d_mealPlan data;
      d_accommodation data; d_targetGradeIaido data; d_targetGradeJodo data;
      d_billingFullName data; d_billingZip data; d_billingCity data; d_billingAddress data;
      d_billingCountry data; d_foodNotes data ]
  ∧ Forall (fun c => ¬ (65 ≤ c ≤ 90)%N) (d_email data)
  ∧ (d_wantsExamIaido data = false → d_targetGradeIaido data = [])
  ∧ (d_wantsExamJodo data = false → d_targetGradeJodo data = []).
Proof.
  intros Hs.
  pose proof (sanitizePayload_enums payload data Hs) as (Hcamp & Hmeal & Hacc).
  pose proof price_codes_trimmed as Hcodes.
  apply Forall_app in Hcodes as [Tcamp Hcodes]. apply Forall_app in Hcodes as [Tmeal Tacc].
  apply hasOwnProperty_keys in Hcamp, Hmeal, Hacc.
  pose proof (proj1 (Forall_forall _ _) Tcamp _ Hcamp) as Ecamp.
  pose proof (proj1 (Forall_forall _ _) Tmeal _ Hmeal) as Emeal.
  pose proof (proj1 (Forall_forall _ _) Tacc _ Hacc) as Eacc.
  sanitized Hs.
  cbn [d_fullName d_email d_phone d_dateOfBirth d_city d_currentGradeIaido d_currentGradeJodo
       d_campType d_mealPlan d_accommodation d_wantsExamIaido d_targetGradeIaido
       d_wantsExamJodo d_targetGradeJodo d_billingFullName d_billingZip d_billingCity
       d_billingAddress d_billingCountry d_foodNotes] in *.
  split; [|split; [|split]].
  - repeat (apply Forall_cons; split); try (by apply Forall_nil); try assumption;
      first [ by eapply trimmed_text
            | by eapply optional_text
            | by eapply lowered_text ].
  - by eapply lowered_text.
  - by eapply optional_text.
  - by eapply optional_text.
Qed.

(** X8 on the body of a complete registration. *)
Lemma sanitizePayload_canonical_witness :
  ∃ data,
    @sanitizePayload sample_runtime valid_body = Some data
    ∧ Forall (fun field => trim field = field)
        [ d_fullName data; d_email data; d_phone data; d_dateOfBirth data; d_city data;
          d_currentGradeIaido data; d_currentGradeJodo data; d_campType data;
          d_mealPlan data; d_accommodation data; d_targetGradeIaido data;
          d_targetGradeJodo data; d_billingFullName data; d_billingZip data;
          d_billingCity data; d_billingAddress data; d_billingCountry data;
          d_foodNotes data ]
    ∧ Forall (fun c => ¬ (65 ≤ c ≤ 90)%N) (d_email data)
    ∧ (d_wantsExamIaido data = false → d_targetGradeIaido data = [])
    ∧ (d_wantsExamJodo data = false → d_targetGradeJodo data = []).
Proof.
  eexists. split; [reflexivity|].
  apply (@sanitizePayload_canonical sample_runtime valid_body). reflexivity.
Defined.

(** ** The reader and the migration *)

Lemma row_object_insert (r : gmap string sqlval) c v c' :
  row_object (<[c := v]> r) c' = if String.eqb c c' then to_js v else row_object r c'.
Proof.
  unfold row_object. destruct (String.eqb_spec c c') as [->|Hne].
  - by rewrite lookup_insert_eq.
  - by rewrite lookup_insert_ne.
Qed.

(** The reader looks at a row object through its properties only. *)
Lemma mapRegistrationRow_ext JSON_parse (row row' : string → jsval) :
  (∀ c, row' c = row c) →
  mapRegistrationRow JSON_parse row' = mapRegistrationRow JSON_parse row.
Proof. intros H. unfold mapRegistrationRow. by rewrite !H. Qed.

(** Evaluates the reader on a row object given by cases on the name. *)
Ltac read_row :=
  unfold mapRegistrationRow; lazy beta iota zeta delta [String.eqb Ascii.eqb Bool.eqb].

Lemma view_add_column JSON_parse (r : gmap string sqlval) c d :
  (c, d) ∈ ADDED_COLUMNS → r !! c = None →
  mapRegistrationRow JSON_parse (row_object (<[c := d]> r))
  = mapRegistrationRow JSON_parse (row_object r).
Proof.
  intros Hin Hnone.
  rewrite (mapRegistrationRow_ext _ _ _ (row_object_insert r c d)).
  assert (row_object r c = JUndefined) as Hc by (unfold row_object; by rewrite Hnone).
  unfold ADDED_COLUMNS in Hin.
  repeat (apply elem_of_cons in Hin as [[= -> ->]|Hin]);
    [..|by apply elem_of_nil in Hin];
    read_row; rewrite Hc; reflexivity.
Qed.

Lemma sql_and_true a b : sql_and a b = Some true → a = Some true ∧ b = Some true.
Proof. by destruct a as [[|]|], b as [[|]|]. Qed.

Lemma sql_true_inv t : sql_true t = true → t = Some true.
Proof. by destruct t as [[|]|]. Qed.

Lemma col_is_int (r : gmap string sqlval) c z :
  sql_eq (col r c) (SqlInt z) = Some true → r !! c = Some (SqlInt z).
Proof.
  unfold col. destruct (r !! c) as [[|x|s]|]; simpl; try done.
  intros [= H]. apply Z.eqb_eq in H. by subst.
Qed.

Lemma row_object_insert2 (r : gmap string sqlval) a x b y c :
  row_object (<[a := x]> (<[b := y]> r)) c
  = if String.eqb a c then to_js x
    else if String.eqb b c then to_js y else row_object r c.
Proof. by rewrite !row_object_insert. Qed.

Lemma view_backfill_exam JSON_parse (r : gmap string sqlval) :
  mapRegistrationRow JSON_parse
    (row_object (if backfill_exam_where r then backfill_exam_set r else r))
  = mapRegistrationRow JSON_parse (row_object r).
Proof.
  destruct (backfill_exam_where r) eqn:Hw; [|done].
  unfold backfill_exam_where in Hw.
  apply sql_true_inv, sql_and_true in Hw as [Hw E3]. apply sql_and_true in Hw as [E1 E2].
  unfold backfill_exam_set. rewrite E1. unfold wants_exam_is_1 in E1.
  apply col_is_int in E1, E2, E3.
  rewrite (mapRegistrationRow_ext _ _ _ (row_object_insert2 r _ _ _ _)).
  read_row. unfold is_blank, col, row_object. rewrite E1, E2, E3.
  cbn [to_js strict_eq_number orb andb negb Z.eqb Pos.eqb sql_true].
  f_equal; [f_equal|];
    destruct (r !! "target_grade_iaido") as [[|z|s]|], (r !! "target_grade") as [[|z'|s']|];
    try destruct s; try destruct s'; try destruct z'; reflexivity.
Qed.

Lemma view_backfill_grade JSON_parse (r : gmap string sqlval) :
  mapRegistrationRow JSON_parse
    (row_object (if backfill_grade_where r then backfill_grade_set r else r))
  = mapRegistrationRow JSON_parse (row_object r).
Proof.
  destruct (backfill_grade_where r) eqn:Hw; [|done].
  unfold backfill_grade_where in Hw. unfold backfill_grade_set. rewrite Hw.
  rewrite (mapRegistrationRow_ext _ _ _ (row_object_insert r _ _)).
  read_row. unfold is_blank, col in Hw. unfold col, row_object.
  f_equal; [f_equal|];
    destruct (r !! "current_grade_iaido") as [[|z|s]|], (r !! "current_grade") as [[|z'|s']|];
    try destruct s; try destruct s'; try destruct z'; try discriminate Hw; reflexivity.
Qed.

Lemma mapped_rows_fmap JSON_parse (f : gmap string sqlval → gmap string sqlval) cs (db : table) :
  (∀ r, r ∈ rows db →
        mapRegistrationRow JSON_parse (row_object (f r))
        = mapRegistrationRow JSON_parse (row_object r)) →
  mapped_rows JSON_parse {| columns := cs; rows := f <$> rows db |} = mapped_rows JSON_parse db.
Proof.
  intros H. unfold mapped_rows. cbn [rows]. rewrite <- list_fmap_compose.
  apply list_fmap_ext. intros i r Hr. apply H. by eapply list_elem_of_lookup_2.
Qed.

Lemma fold_add_columns_views JSON_parse columnNames added db :
  NoDup added.*1 →
  (∀ column, column ∈ added → column ∈ ADDED_COLUMNS) →
  (∀ r c, r ∈ rows db → c ∈ added.*1 → c ∉ columnNames → r !! c = None) →
  mapped_rows JSON_parse (fold_left (add_column_if_missing columnNames) added db)
  = mapped_rows JSON_parse db.
Proof.
  revert db. induction added as [|[c0 d0] added IH]; intros db Hnodup Hadded Hnone; [done|].
  cbn [fold_left]. apply NoDup_cons in Hnodup as [Hfresh Hnodup].
  unfold add_column_if_missing at 2. cbn [fst snd]. case_bool_decide as Hin.
  - apply IH; [done| |].
    + intros column Hc. apply Hadded. by right.
    + intros r c Hr Hc. apply Hnone; [done|]. by right.
  - rewrite IH; [|done| |].
    + apply mapped_rows_fmap. intros r Hr. apply view_add_column.
      * apply Hadded. by left.
      * apply Hnone; [done| by left |done].
    + intros column Hc. apply Hadded. by right.
    + intros r' c Hr' Hc Hno. cbn [add_column rows] in Hr'.
      apply list_elem_of_fmap in Hr' as (r & -> & Hr).
      rewrite lookup_insert_ne.
      * apply Hnone; [done| by right |done].
      * intros ->. by apply Hfresh.
Qed.

(** X9. The migration is invisible to the reader: whatever columns it adds
    and whatever rows its two backfills fill, also when one of its
    statements is refused, every registration reads after it as it read
    before. *)
Theorem ensureRegistrationColumns_keeps_views
    (JSON_parse : jsstring → option jsval) (db : table) :
  rows_within_columns db →
  mapped_rows JSON_parse (ensureRegistrationColumns db).1 = mapped_rows JSON_parse db.
Proof.
  intros Hwithin. unfold ensureRegistrationColumns. cbv zeta.
  set (db1 := fold_left (add_column_if_missing (columns db)) ADDED_COLUMNS db).
  assert (mapped_rows JSON_parse db1 = mapped_rows JSON_parse db) as H1.
  { apply fold_add_columns_views; [| done |].
    - apply (bool_decide_unpack _). by vm_compute.
    - intros r c Hr _ Hc. by apply Hwithin. }
  assert (∀ X, mapped_rows JSON_parse (sql_update backfill_exam_where backfill_exam_set X)
               = mapped_rows JSON_parse X) as H2.
  { intros X. apply mapped_rows_fmap. intros r _. apply view_backfill_exam. }
  assert (∀ X, mapped_rows JSON_parse (sql_update backfill_grade_where backfill_grade_set X)
               = mapped_rows JSON_parse X) as H3.
  { intros X. apply mapped_rows_fmap. intros r _. apply view_backfill_grade. }
  destruct (exec_update _ backfill_exam_where _ db1) as [db2|e] eqn:E2; [|done].
  apply exec_update_returned in E2 as ->.
  destruct (exec_update _ backfill_grade_where _ _) as [db3|e] eqn:E3; cbn [fst].
  - apply exec_update_returned in E3 as ->. by rewrite H3, H2.
  - by rewrite H2.
Qed.

(** X9 on a table of the first schema, which gets all the columns and
    both backfills. *)
Lemma ensureRegistrationColumns_keeps_views_witness :
  mapped_rows (fun _ => None) (ensureRegistrationColumns old_store).1
  = mapped_rows (fun _ => None) old_store.
Proof.
  apply (ensureRegistrationColumns_keeps_views (fun _ => None) old_store).
  intros r c Hr Hc. destruct (r !! c) as [v|] eqn:E; [|reflexivity].
  exfalso. apply Hc.
  apply elem_of_cons in Hr as [->|Hr];
    [|apply elem_of_cons in Hr as [->|Hr]; [|by apply elem_of_nil in Hr]];
    apply elem_of_list_to_map_2 in E; apply (list_elem_of_fmap_2 fst) in E; exact E.
Defined.

(** ** Reading back what the endpoint stored *)

Lemma row_object_list_to_map (values : list (string * sqlval)) c :
  row_object (list_to_map values) c = inserted_object values c.
Proof.
  induction values as [|[k v] values IH]; [done|].
  change (list_to_map ((k, v) :: values)) with (<[k := v]> (list_to_map values : gmap string sqlval)).
  rewrite row_object_insert. simpl. by rewrite IH.
Qed.

Lemma validated_exam_targets (data : registration_data) :
  validateRegistration data = [] →
  (d_wantsExamIaido data = true → d_targetGradeIaido data ≠ [])
  ∧ (d_wantsExamJodo data = true → d_targetGradeJodo data ≠ []).
Proof.
  unfold validateRegistration. cbv zeta. intros H.
  repeat (apply push_if_nil_inv in H as [? H]).
  split; intros Hw.
  - match goal with
    | H : d_wantsExamIaido data && negb (isNonEmptyString (d_targetGradeIaido data)) = false
      |- _ => rewrite Hw in H; simpl in H; apply negb_false_iff, isNonEmptyString_true in H;
              intros Hnil; rewrite Hnil in H; by apply H
    end.
  - match goal with
    | H : d_wantsExamJodo data && negb (isNonEmptyString (d_targetGradeJodo data)) = false
      |- _ => rewrite Hw in H; simpl in H; apply negb_false_iff, isNonEmptyString_true in H;
              intros Hnil; rewrite Hnil in H; by apply H
    end.
Qed.

Lemma price_code_not_empty (table : list (jsstring * price_option)) k :
  table = po_campType PRICE_OPTIONS ∨ table = po_mealPlan PRICE_OPTIONS
  ∨ table = po_accommodation PRICE_OPTIONS →
  hasOwnProperty table k = true → k ≠ [].
Proof.
  intros Ht Hk. apply hasOwnProperty_keys in Hk. intros ->.
  destruct Ht as [-> | [-> | ->]];
    repeat (apply elem_of_cons in Hk as [Hk|Hk]; [discriminate Hk|]);
    by apply elem_of_nil in Hk.
Qed.

(** X10. What the reader returns for the registration the endpoint has just
    stored: the sanitized body, the generated id, the pending status, the
    price and the consents.  The email reads as the sanitizer left it,
    lowered by the [toLowerCase] of the runtime.  The Iaido grade reads as
    the Jodo grade when the registrant gave no Iaido grade. *)
Theorem registration_reads_back `{Runtime} (env : register_env) (body : request_body)
    (db : table) (payload : jsval) (data : registration_data) :
  parseJsonBody body = Some payload →
  sanitizePayload payload = Some data →
  length (rows (handle (PostRegister env body) db)) = S (length (rows db)) →
  ∃ v camp meal acc,
    last (mapped_rows JSON_parse (handle (PostRegister env body) db)) = Some v
    ∧ assoc (d_campType data) (po_campType PRICE_OPTIONS) = Some camp
    ∧ assoc (d_mealPlan data) (po_mealPlan PRICE_OPTIONS) = Some meal
    ∧ assoc (d_accommodation data) (po_accommodation PRICE_OPTIONS) = Some acc
    ∧ m_id (exported v) = JStr (js "reg_" ++ env_uuid env)
    ∧ m_createdAt (exported v) = JStr (env_createdAt env)
    ∧ m_status (exported v) = JStr (js "PENDING_PAYMENT")
    ∧ m_amountHuf (exported v) = JNum (amountHuf camp + amountHuf meal + amountHuf acc)
    ∧ m_currency (exported v) = JStr (js "EUR")
    ∧ m_fullName (exported v) = JStr (d_fullName data)
    ∧ m_email (exported v) = JStr (d_email data)
    ∧ m_phone (exported v) = JStr (d_phone data)
    ∧ m_dateOfBirth v = JStr (d_dateOfBirth data)
    ∧ m_city (exported v) = JStr (d_city data)
    ∧ m_campType (exported v) = JStr (d_campType data)
    ∧ m_mealPlan (exported v) = JStr (d_mealPlan data)
    ∧ m_accommodation (exported v) = JStr (d_accommodation data)
    ∧ m_currentGradeIaido (exported v)
      = JStr (str_or (d_currentGradeIaido data) (d_currentGradeJodo data))
    ∧ m_currentGradeJodo (exported v) = JStr (d_currentGradeJodo data)
    ∧ m_wantsExamIaido (exported v) = d_wantsExamIaido data
    ∧ m_targetGradeIaido (exported v) = JStr (d_targetGradeIaido data)
    ∧ m_wantsExamJodo (exported v) = d_wantsExamJodo data
    ∧ m_targetGradeJodo (exported v) = JStr (d_targetGradeJodo data)
    ∧ m_wantsExam v = d_wantsExamIaido data || d_wantsExamJodo data
    ∧ m_billingFullName (exported v) = JStr (d_billingFullName data)
    ∧ m_billingZip (exported v) = JStr (d_billingZip data)
    ∧ m_billingCity (exported v) = JStr (d_billingCity data)
    ∧ m_billingAddress (exported v) = JStr (d_billingAddress data)
    ∧ m_billingCountry (exported v) = JStr (d_billingCountry data)
    ∧ m_foodNotes (exported v) = JStr (d_foodNotes data)
    ∧ m_privacyConsent (exported v) = true
    ∧ m_termsConsent (exported v) = true
    ∧ m_privacyPolicyVersion (exported v) = JStr PRIVACY_POLICY_VERSION
    ∧ m_termsVersion (exported v) = JStr TERMS_VERSION
    ∧ m_privacyConsentAt (exported v) = JStr (env_privacyConsentAt env)
    ∧ m_termsConsentAt (exported v) = JStr (env_termsConsentAt env).
Proof.
  intros Hbody Es Hstored.
  destruct (validateRegistration data) eqn:Ev;
    [|rewrite register_refused in Hstored by (intros ? ? ? ?; congruence); lia].
  destruct (register_accepted env body db payload data Hbody Es Ev)
    as (camp & meal & acc & pricing & Ecamp & Emeal & Eacc & Et & Ecur & Hh).
  rewrite Hh in *. clear Hh.
  destruct (insertRegistration db _) as [db'|e] eqn:Ei; [|lia]. clear Hstored.
  pose proof (sanitizePayload_enums payload data Es) as (Hcamp & Hmeal & Hacc).
  apply price_code_not_empty in Hcamp, Hmeal, Hacc; [|tauto..].
  destruct (sanitizePayload_grades_trimmed payload data Es) as (Tci & Tcj & _ & _).
  destruct (validated_consents data Ev) as [Hp Ht].
  destruct (validated_exam_targets data Ev) as [Hti Htj].
  unfold insertRegistration in Ei. cbv zeta in Ei.
  cbn [r_id r_createdAt r_status r_amountHuf r_currency r_priceBreakdown
       r_privacyPolicyVersion r_termsVersion r_privacyConsentAt r_termsConsentAt r_body] in Ei.
  rewrite Et, Ecur, Tci, Tcj, Hp, Ht in Ei.
  apply insert_row_returned in Ei as [_ Hr].
  unfold mapped_rows. rewrite Hr, fmap_app.
  change (?f <$> [?x]) with [f x]. rewrite last_snoc.
  eexists. exists camp, meal, acc. split; [reflexivity|]. do 3 (split; [assumption|]).
  rewrite (mapRegistrationRow_ext _ _ _ (row_object_list_to_map _)).
  unfold mapRegistrationRow.
  lazy beta iota zeta delta [inserted_object String.eqb Ascii.eqb Bool.eqb exported
    m_id m_createdAt m_status m_fullName m_email m_phone m_city m_currentGradeIaido
    m_currentGradeJodo m_campType m_mealPlan m_accommodation m_wantsExamIaido
    m_targetGradeIaido m_wantsExamJodo m_targetGradeJodo m_priceBreakdown m_amountHuf
    m_currency m_billingFullName m_billingZip m_billingCity m_billingAddress
    m_billingCountry m_foodNotes m_privacyConsent m_termsConsent m_privacyPolicyVersion
    m_termsVersion m_privacyConsentAt m_termsConsentAt m_dateOfBirth m_currentGrade
    m_wantsExam m_targetGrade].
  assert (∀ s t, js_or (JStr s) (JStr t) = JStr (str_or s t)) as Hjs by (by intros []).
  assert (∀ s : jsstring, str_or s [] = s) as Hnil by (by intros []).
  assert (∀ s t : jsstring, s ≠ [] → str_or s t = s) as Hne by (by intros []).
  assert (∀ s t : jsstring, str_or s (str_or s t) = str_or s t) as Habs by (by intros []).
  cbn [to_js sql_number sql_flag].
  rewrite !Hjs, !Hnil, !Habs, (Hne _ _ Hcamp), (Hne _ _ Hmeal), (Hne _ _ Hacc).
  destruct (d_wantsExamIaido data), (d_wantsExamJodo data);
    cbn [strict_eq_number orb andb negb Z.eqb Pos.eqb];
    rewrite ?Hjs, ?Hnil, ?Habs, ?(Hne _ _ (Hti eq_refl)), ?(Hne _ _ (Htj eq_refl));
    repeat split; reflexivity.
Qed.

(** X10 on a complete registration sent to an empty table. *)
Lemma registration_reads_back_witness :
  ∃ data,
    @sanitizePayload sample_runtime valid_body = Some data ∧
    ∃ v camp meal acc,
      last (mapped_rows (@JSON_parse sample_runtime)
              (@handle sample_runtime (PostRegister sample_env (sent valid_body)) empty_store))
      = Some v
      ∧ assoc (d_campType data) (po_campType PRICE_OPTIONS) = Some camp
      ∧ assoc (d_mealPlan data) (po_mealPlan PRICE_OPTIONS) = Some meal
      ∧ assoc (d_accommodation data) (po_accommodation PRICE_OPTIONS) = Some acc
      ∧ m_id (exported v) = JStr (js "reg_" ++ env_uuid sample_env)
      ∧ m_createdAt (exported v) = JStr (env_createdAt sample_env)
      ∧ m_status (exported v) = JStr (js "PENDING_PAYMENT")
      ∧ m_amountHuf (exported v) = JNum (amountHuf camp + amountHuf meal + amountHuf acc)
      ∧ m_currency (exported v) = JStr (js "EUR")
      ∧ m_fullName (exported v) = JStr (d_fullName data)
      ∧ m_email (exported v) = JStr (d_email data)
      ∧ m_phone (exported v) = JStr (d_phone data)
      ∧ m_dateOfBirth v = JStr (d_dateOfBirth data)
      ∧ m_city (exported v) = JStr (d_city data)
      ∧ m_campType (exported v) = JStr (d_campType data)
      ∧ m_mealPlan (exported v) = JStr (d_mealPlan data)
      ∧ m_accommodation (exported v) = JStr (d_accommodation data)
      ∧ m_currentGradeIaido (exported v)
        = JStr (str_or (d_currentGradeIaido data) (d_currentGradeJodo data))
      ∧ m_currentGradeJodo (exported v) = JStr (d_currentGradeJodo data)
      ∧ m_wantsExamIaido (exported v) = d_wantsExamIaido data
      ∧ m_targetGradeIaido (exported v) = JStr (d_targetGradeIaido data)
      ∧ m_wantsExamJodo (exported v) = d_wantsExamJodo data
      ∧ m_targetGradeJodo (exported v) = JStr (d_targetGradeJodo data)
      ∧ m_wantsExam v = d_wantsExamIaido data || d_wantsExamJodo data
      ∧ m_billingFullName (exported v) = JStr (d_billingFullName data)
      ∧ m_billingZip (exported v) = JStr (d_billingZip data)
      ∧ m_billingCity (exported v) = JStr (d_billingCity data)
      ∧ m_billingAddress (exported v) = JStr (d_billingAddress data)
      ∧ m_billingCountry (exported v) = JStr (d_billingCountry data)
      ∧ m_foodNotes (exported v) = JStr (d_foodNotes data)
      ∧ m_privacyConsent (exported v) = true
      ∧ m_termsConsent (exported v) = true
      ∧ m_privacyPolicyVersion (exported v) = JStr PRIVACY_POLICY_VERSION
      ∧ m_termsVersion (exported v) = JStr TERMS_VERSION
      ∧ m_privacyConsentAt (exported v) = JStr (env_privacyConsentAt sample_env)
      ∧ m_termsConsentAt (exported v) = JStr (env_termsConsentAt sample_env).
Proof.
  eexists. split; [reflexivity|].
  apply (@registration_reads_back sample_runtime sample_env (sent valid_body) empty_store
           valid_body);
    reflexivity.
Defined.

(** ** Statistics *)

Lemma count_if_cons {A} (f : A → bool) x l :
  count_if f (x :: l) = (if f x then 1 else 0) + count_if f l.
Proof. unfold count_if. simpl. destruct (f x); simpl; lia. Qed.

Lemma count_if_nonneg {A} (f : A → bool) l : 0 ≤ count_if f l.
Proof. unfold count_if. lia. Qed.

Lemma count_if_filter {A} (a f : A → bool) l :
  count_if f (List.filter a l) = count_if (fun x => a x && f x) l.
Proof.
  induction l as [|x l IH]; [done|]. simpl. rewrite count_if_cons.
  destruct (a x); simpl; [by rewrite count_if_cons, IH | done].
Qed.

Lemma count_if_le {A} (f g : A → bool) l :
  (∀ x, f x = true → g x = true) → count_if f l ≤ count_if g l.
Proof.
  intros H. induction l as [|x l IH]; [done|]. rewrite !count_if_cons.
  destruct (f x) eqn:Ef; [rewrite (H x Ef); lia|]. destruct (g x); lia.
Qed.

Lemma count_if_length {A} (f : A → bool) l : count_if f l ≤ Z.of_nat (length l).
Proof.
  induction l as [|x l IH]; [done|]. rewrite count_if_cons.
  cbn [length]. destruct (f x); lia.
Qed.

Lemma count_if_or {A} (f g : A → bool) l :
  count_if (fun x => f x || g x) l ≤ count_if f l + count_if g l.
Proof.
  induction l as [|x l IH]; [done|]. rewrite !count_if_cons.
  destruct (f x), (g x); simpl; lia.
Qed.

Lemma count_if_disjoint {A} (f g : A → bool) l :
  (∀ x, f x = true → g x = true → False) →
  count_if f l + count_if g l ≤ Z.of_nat (length l).
Proof.
  intros H. induction l as [|x l IH]; [done|]. rewrite !count_if_cons. cbn [length].
  destruct (f x) eqn:Ef, (g x) eqn:Eg; try lia. destruct (H x Ef Eg).
Qed.

Lemma strict_eq_string_exclusive v s t :
  s ≠ t → strict_eq_string v s = true → strict_eq_string v t = true → False.
Proof.
  unfold strict_eq_string. destruct v; try done.
  intros Hne H1 H2. apply bool_decide_eq_true in H1, H2. congruence.
Qed.

(** X11. The counters of the statistics are consistent: every
    registration is counted once, as active, deleted or anonymized; the
    exam counters and the payment counters count active registrations
    only, and a registrant with both exams once in the exam total. *)
Theorem getStats_counters (StringToNumber : jsstring → option Z)
    (native_text : jsstring → jsstring) (registrations : list registration_view) :
  let s := getStats StringToNumber native_text registrations in
  s_total s + s_deletedCount s + s_anonymizedCount s = Z.of_nat (length registrations)
  ∧ 0 ≤ s_wantsExamIaido s ≤ s_wantsExamTotal s
  ∧ 0 ≤ s_wantsExamJodo s ≤ s_wantsExamTotal s
  ∧ s_wantsExamTotal s ≤ s_wantsExamIaido s + s_wantsExamJodo s
  ∧ s_wantsExamTotal s ≤ s_total s
  ∧ 0 ≤ s_pendingPayment s ∧ 0 ≤ s_paid s
  ∧ s_pendingPayment s + s_paid s ≤ s_total s.
Proof.
  cbv zeta. unfold getStats. cbv zeta.
  cbn [s_total s_deletedCount s_anonymizedCount s_wantsExamIaido s_wantsExamJodo
       s_wantsExamTotal s_pendingPayment s_paid].
  split; [|repeat split].
  - induction registrations as [|r rs IH]; [done|].
    rewrite !count_if_cons. cbn [List.filter length]. unfold is_active at 1.
    destruct (strict_eq_string (m_status (exported r)) (js "DELETED")) eqn:Ed,
             (strict_eq_string (m_status (exported r)) (js "ANONYMIZED")) eqn:Ea;
      cbn [negb andb length]; try lia.
    by destruct (strict_eq_string_exclusive _ (js "DELETED") (js "ANONYMIZED")
                   ltac:(discriminate) Ed Ea).
  - apply count_if_nonneg.
  - apply count_if_le. by intros x ->.
  - apply count_if_nonneg.
  - apply count_if_le. intros x ->. apply orb_true_r.
  - apply count_if_or.
  - apply count_if_length.
  - apply count_if_nonneg.
  - apply count_if_nonneg.
  - apply count_if_disjoint. intros x.
    by apply strict_eq_string_exclusive.
Qed.

Lemma acc_bump_tally (native_text : jsstring → jsstring) (acc : gmap jsstring acc_value) (key : jsval) k n :
  k ∉ OBJECT_PROTOTYPE_KEYS →
  (n = 0 ∧ acc !! k = None) ∨ (0 < n ∧ acc !! k = Some (Count n)) →
  let n' := n + if bool_decide (ToString key = k) then 1 else 0 in
  (n' = 0 ∧ acc_bump native_text acc key !! k = None)
  ∨ (0 < n' ∧ acc_bump native_text acc key !! k = Some (Count n')).
Proof.
  intros Hk Hacc. cbv zeta. unfold acc_bump. cbv zeta.
  assert (k ≠ js "__proto__") as Hproto.
  { intros ->. apply Hk. apply (bool_decide_unpack _). by vm_compute. }
  case_bool_decide as Hkey.
  - rewrite Hkey. rewrite bool_decide_eq_false_2 by done. rewrite lookup_insert_eq.
    right. unfold acc_get. destruct Hacc as [[-> ->]|[Hn ->]].
    + rewrite bool_decide_eq_false_2 by done. split; [lia | done].
    + simpl. destruct (Z.eqb_spec n 0) as [?|_]; [lia|]. simpl. split; [lia | done].
  - rewrite Z.add_0_r.
    case_bool_decide; [done|]. by rewrite lookup_insert_ne.
Qed.

Lemma fold_acc_bump_tally (native_text : jsstring → jsstring) (keys : list jsval) (acc : gmap jsstring acc_value) k n :
  k ∉ OBJECT_PROTOTYPE_KEYS →
  (n = 0 ∧ acc !! k = None) ∨ (0 < n ∧ acc !! k = Some (Count n)) →
  let n' := n + count_if (fun key => bool_decide (ToString key = k)) keys in
  (n' = 0 ∧ fold_left (acc_bump native_text) keys acc !! k = None)
  ∨ (0 < n' ∧ fold_left (acc_bump native_text) keys acc !! k = Some (Count n')).
Proof.
  intros Hk. revert acc n. induction keys as [|key keys IH]; intros acc n Hacc; cbv zeta.
  - unfold count_if. simpl. by rewrite Z.add_0_r.
  - cbn [fold_left]. rewrite count_if_cons, Z.add_assoc.
    apply IH. by apply acc_bump_tally.
Qed.

(** X12. A counting accumulator holds, under every name that
    [Object.prototype] does not define, the number of the keys that print
    as that name, and no property when there is none. *)
Theorem histogram_counts (native_text : jsstring → jsstring) (keys : list jsval)
    (k : jsstring) :
  k ∉ OBJECT_PROTOTYPE_KEYS →
  histogram native_text keys !! k
  = let n := count_if (fun key => bool_decide (ToString key = k)) keys in
    if n =? 0 then None else Some (Count n).
Proof.
  intros Hk. cbv zeta. unfold histogram.
  pose proof (fold_acc_bump_tally native_text keys ∅ k 0 Hk
                (or_introl (conj eq_refl (lookup_empty k)))) as H.
  cbv zeta in H. rewrite Z.add_0_l in H. destruct H as [[Hn ->]|[Hn ->]].
  - by rewrite Hn.
  - destruct (Z.eqb_spec (count_if (fun key => bool_decide (ToString key = k)) keys) 0);
      [lia | done].
Qed.

(** X12 on three camp types, two of them the same. *)
Lemma histogram_counts_witness :
  histogram (fun _ => js "function") [JStr (js "iaido"); JStr (js "both"); JStr (js "iaido")]
    !! js "iaido"
  = Some (Count 2).
Proof.
  apply (histogram_counts (fun _ => js "function")
           [JStr (js "iaido"); JStr (js "both"); JStr (js "iaido")] (js "iaido")).
  apply (bool_decide_unpack _). by vm_compute.
Defined.

Lemma count_if_fmap {A B} (g : A → B) (f : B → bool) (l : list A) :
  count_if f (g <$> l) = count_if (fun x => f (g x)) l.
Proof.
  induction l as [|x l IH]; [done|]. cbn [fmap list_fmap].
  change (list_fmap A B g l) with (g <$> l). by rewrite !count_if_cons, IH.
Qed.

Lemma histogram_read (native_text : jsstring → jsstring) (keys : list jsval) (k : jsstring) :
  k ∉ OBJECT_PROTOTYPE_KEYS →
  or_zero (acc_get (histogram native_text keys) k)
  = Count (count_if (fun key => bool_decide (ToString key = k)) keys).
Proof.
  intros Hk. unfold histogram, acc_get.
  pose proof (fold_acc_bump_tally native_text keys ∅ k 0 Hk
                (or_introl (conj eq_refl (lookup_empty k)))) as H.
  cbv zeta in H. rewrite Z.add_0_l in H. destruct H as [[Hn ->]|[Hn ->]].
  - rewrite bool_decide_eq_false_2 by done. by rewrite Hn.
  - simpl. by destruct (Z.eqb_spec (count_if (fun key => bool_decide (ToString key = k)) keys) 0);
      [lia|].
Qed.

(** X13. The two applicant numbers of the statistics are numbers: the
    active registrations of the seminar, plus those of both seminars. *)
Theorem getStats_applicants (StringToNumber : jsstring → option Z)
    (native_text : jsstring → jsstring) (registrations : list registration_view) :
  let s := getStats StringToNumber native_text registrations in
  let active_with code :=
    count_if (fun r => is_active r
                       && bool_decide (ToString (m_campType (exported r)) = js code))
      registrations in
  s_iaidoApplicants s = Count (active_with "iaido" + active_with "both")
  ∧ s_jodoApplicants s = Count (active_with "jodo" + active_with "both").
Proof.
  cbv zeta. unfold getStats. cbv zeta. cbn [s_iaidoApplicants s_jodoApplicants].
  rewrite !histogram_read by (intros H; apply (bool_decide_pack _) in H; by vm_compute in H).
  rewrite !count_if_fmap, !count_if_filter. done.
Qed.

Lemma revenue_fold (StringToNumber : jsstring → option Z) (l : list registration_view) a :
  (∀ r, r ∈ l → ∃ z, m_amountHuf (exported r) = JNum z) →
  fold_left (fun sum current =>
               num_add sum (ToNumber StringToNumber
                              (js_or (m_amountHuf (exported current)) (JNum 0))))
    l (Some a)
  = Some (a + foldr (fun r rest =>
                       match m_amountHuf (exported r) with JNum z => z | _ => 0 end + rest)
                0 l).
Proof.
  revert a. induction l as [|r l IH]; intros a H; simpl.
  - by rewrite Z.add_0_r.
  - destruct (H r) as [z Hz]; [by left|]. rewrite Hz.
    assert (ToNumber StringToNumber (js_or (JNum z) (JNum 0)) = Some z) as ->.
    { unfold js_or. simpl. by destruct (Z.eqb_spec z 0) as [->|]. }
    simpl. rewrite IH by (intros r' Hr'; apply H; by right). f_equal. lia.
Qed.

(** X14. When the amount of every active registration is a number, the
    projected revenue is their sum; deleted and anonymized registrations
    add nothing to it. *)
Theorem getStats_revenue (StringToNumber : jsstring → option Z)
    (native_text : jsstring → jsstring) (registrations : list registration_view) :
  (∀ r, r ∈ registrations → is_active r = true → ∃ z, m_amountHuf (exported r) = JNum z) →
  s_projectedRevenueHuf (getStats StringToNumber native_text registrations)
  = Some (foldr (fun r rest =>
                   (if is_active r
                    then match m_amountHuf (exported r) with JNum z => z | _ => 0 end
                    else 0) + rest)
            0 registrations).
Proof.
  intros H. unfold getStats. cbv zeta. cbn [s_projectedRevenueHuf].
  rewrite revenue_fold.
  - f_equal. rewrite Z.add_0_l. clear H.
    induction registrations as [|r rs IH]; [done|]. simpl.
    destruct (is_active r); simpl; rewrite IH; lia.
  - intros r Hr. apply list_elem_of_In, filter_In in Hr as [Hr Ha].
    apply H; [by apply list_elem_of_In | done].
Qed.

(** X14 on a deleted and a pending registration. *)
Lemma getStats_revenue_witness :
  s_projectedRevenueHuf (getStats (fun _ => None) (fun _ => []) sample_registrations)
  = Some (foldr (fun r rest =>
                   (if is_active r
                    then match m_amountHuf (exported r) with JNum z => z | _ => 0 end
                    else 0) + rest)
            0 sample_registrations).
Proof.
  apply (getStats_revenue (fun _ => None) (fun _ => []) sample_registrations).
  intros r Hr _.
  assert (forallb (fun r => match m_amountHuf (exported r) with JNum _ => true | _ => false end)
            sample_registrations = true) as Hall by (vm_compute; reflexivity).
  rewrite forallb_forall in Hall. apply list_elem_of_In in Hr. specialize (Hall r Hr).
  destruct (m_amountHuf (exported r)); try discriminate Hall. by eexists.
Defined.

Lemma count_if_ext {A} (f g : A → bool) l : (∀ x, f x = g x) → count_if f l = count_if g l.
Proof.
  intros H. induction l as [|x l IH]; [done|]. by rewrite !count_if_cons, H, IH.
Qed.

Lemma status_after_assignment JSON_parse (r : gmap string sqlval) (status : jsstring) :
  m_status (exported (mapRegistrationRow JSON_parse
                        (row_object (<["status" := SqlText status]> r))))
  = JStr status.
Proof. unfold mapRegistrationRow. cbn [exported m_status]. by rewrite row_object_insert. Qed.

(** X15. A status update to DELETED and an anonymization take the
    registration out of the statistics: the total afterwards counts the
    active registrations with another id, and the registrations with the
    id are all counted as deleted, or as anonymized. *)
Theorem removed_registrations_leave_statistics (JSON_parse : jsstring → option jsval)
    (StringToNumber : jsstring → option Z) (native_text : jsstring → jsstring)
    (db : table) (registrationId : jsstring) :
  let stats_of X := getStats StringToNumber native_text (mapped_rows JSON_parse X) in
  let view r := mapRegistrationRow JSON_parse (row_object r) in
  let others :=
    count_if (fun r => negb (id_is registrationId r) && is_active (view r)) (rows db) in
  let deleted := (updateRegistrationStatus db registrationId (js "DELETED")).1 in
  let anonymized := (anonymizeRegistration db registrationId).1 in
  s_total (stats_of deleted) = others
  ∧ s_total (stats_of anonymized) = others
  ∧ others ≤ s_total (stats_of db)
  ∧ s_deletedCount (stats_of deleted)
    = count_if (fun r => id_is registrationId r
                         || strict_eq_string (m_status (exported (view r))) (js "DELETED"))
        (rows db)
  ∧ s_anonymizedCount (stats_of anonymized)
    = count_if (fun r => id_is registrationId r
                         || strict_eq_string (m_status (exported (view r))) (js "ANONYMIZED"))
        (rows db).
Proof.
  cbv zeta. unfold updateRegistrationStatus, anonymizeRegistration. cbn [fst].
  unfold getStats. cbv zeta. cbn [s_total s_deletedCount s_anonymizedCount].
  unfold mapped_rows, sql_update. cbn [rows].
  rewrite <- !list_fmap_compose.
  change (Z.of_nat (length (List.filter ?f ?l))) with (count_if f l).
  rewrite !count_if_fmap.
  repeat split.
  - apply count_if_ext. intros r. cbn [compose]. destruct (id_is registrationId r); [|done].
    unfold is_active. by rewrite status_after_assignment.
  - apply count_if_ext. intros r. cbn [compose]. destruct (id_is registrationId r); [|done].
    unfold is_active. by rewrite status_after_assignment.
  - apply count_if_le. intros r. by destruct (id_is registrationId r).
  - apply count_if_ext. intros r. cbn [compose]. destruct (id_is registrationId r); [|done].
    by rewrite status_after_assignment.
  - apply count_if_ext. intros r. cbn [compose]. destruct (id_is registrationId r); [|done].
    by rewrite status_after_assignment.
Qed.

(** ** Escaping for HTML *)

Lemma replace_all_app c replacement (s t : jsstring) :
  replace_all c replacement (s ++ t)
  = replace_all c replacement s ++ replace_all c replacement t.
Proof. apply flat_map_app. Qed.

Lemma replace_all_singleton c replacement (x : N) :
  replace_all c replacement [x] = if bool_decide ([x] = js c) then js replacement else [x].
Proof. unfold replace_all. simpl. by rewrite app_nil_r. Qed.

Lemma escape_character (x : N) :
  replace_all "'" "&#39;"
    (replace_all (String (Ascii.ascii_of_nat 34) EmptyString) "&quot;"
       (replace_all ">" "&gt;"
          (replace_all "<" "&lt;" (replace_all "&" "&amp;" [x]))))
  = html_entity x.
Proof.
  destruct (decide (x = 38%N)) as [->|H1]; [reflexivity|].
  destruct (decide (x = 60%N)) as [->|H2]; [reflexivity|].
  destruct (decide (x = 62%N)) as [->|H3]; [reflexivity|].
  destruct (decide (x = 34%N)) as [->|H4]; [reflexivity|].
  destruct (decide (x = 39%N)) as [->|H5]; [reflexivity|].
  unfold html_entity. rewrite !bool_decide_eq_false_2 by done.
  repeat (rewrite replace_all_singleton, bool_decide_eq_false_2 by (intros [= ?]; done)).
  reflexivity.
Qed.

Lemma escapeHtml_entities (value : jsval) :
  escapeHtml value = flat_map html_entity (ToString (js_nullish value (JStr []))).
Proof.
  unfold escapeHtml. generalize (ToString (js_nullish value (JStr []))). intros s.
  induction s as [|x s IH]; [done|].
  change (x :: s) with ([x] ++ s).
  rewrite !replace_all_app, IH, (flat_map_app html_entity [x] s).
  cbn [flat_map]. rewrite app_nil_r. f_equal.
  apply escape_character.
Qed.

Lemma html_entity_cases (x : N) :
  (html_special x = false ∧ html_entity x = [x])
  ∨ (x = 38%N ∧ html_entity x = js "&amp;")
  ∨ (x = 60%N ∧ html_entity x = js "&lt;")
  ∨ (x = 62%N ∧ html_entity x = js "&gt;")
  ∨ (x = 34%N ∧ html_entity x = js "&quot;")
  ∨ (x = 39%N ∧ html_entity x = js "&#39;").
Proof.
  destruct (decide (x = 38%N)) as [->|H1]; [by right; left|].
  destruct (decide (x = 60%N)) as [->|H2]; [by right; right; left|].
  destruct (decide (x = 62%N)) as [->|H3]; [by right; right; right; left|].
  destruct (decide (x = 34%N)) as [->|H4]; [by right; right; right; right; left|].
  destruct (decide (x = 39%N)) as [->|H5]; [by right; right; right; right; right|].
  left. unfold html_entity, html_special. rewrite !bool_decide_eq_false_2; try done.
  rewrite !elem_of_cons, elem_of_nil. tauto.
Qed.

Lemma html_entity_inj (x y : N) (s t : jsstring) :
  html_entity x ++ s = html_entity y ++ t → x = y ∧ s = t.
Proof.
  destruct (html_entity_cases x) as [[Hx ->]|[[-> ->]|[[-> ->]|[[-> ->]|[[-> ->]|[-> ->]]]]]],
           (html_entity_cases y) as [[Hy ->]|[[-> ->]|[[-> ->]|[[-> ->]|[[-> ->]|[-> ->]]]]]];
    simpl; intros H; injection H as; subst; try done.
Qed.

Lemma escaped_text_inj (s t : jsstring) :
  flat_map html_entity s = flat_map html_entity t → s = t.
Proof.
  revert t. induction s as [|x s IH]; intros [|y t] H; simpl in H.
  - done.
  - destruct (html_entity_cases y) as [[_ Hy]|[[_ Hy]|[[_ Hy]|[[_ Hy]|[[_ Hy]|[_ Hy]]]]]];
      rewrite Hy in H; discriminate H.
  - destruct (html_entity_cases x) as [[_ Hx]|[[_ Hx]|[[_ Hx]|[[_ Hx]|[[_ Hx]|[_ Hx]]]]]];
      rewrite Hx in H; discriminate H.
  - apply html_entity_inj in H as [-> H]. f_equal. by apply IH.
Qed.

(** X16. [escapeHtml] writes a text that holds no angle bracket and no
    quote, leaves a text without the five special characters as it is,
    and loses nothing: two values with the same escaped text have the
    same text. *)
Theorem escapeHtml_safe_and_faithful (value other : jsval) :
  Forall (fun c => c ∉ [60; 62; 34; 39]%N) (escapeHtml value)
  ∧ (Forall (fun c => html_special c = false) (ToString (js_nullish value (JStr []))) →
     escapeHtml value = ToString (js_nullish value (JStr [])))
  ∧ (escapeHtml value = escapeHtml other →
     ToString (js_nullish value (JStr [])) = ToString (js_nullish other (JStr []))).
Proof.
  rewrite !escapeHtml_entities.
  generalize (ToString (js_nullish value (JStr []))) as s.
  generalize (ToString (js_nullish other (JStr []))) as t. intros t s.
  split; [|split].
  - induction s as [|x s IH]; [constructor|]. simpl. apply Forall_app. split; [|done].
    destruct (html_entity_cases x) as [[Hx ->]|[[_ ->]|[[_ ->]|[[_ ->]|[[_ ->]|[_ ->]]]]]].
    + constructor; [|constructor]. unfold html_special in Hx.
      apply bool_decide_eq_false in Hx. rewrite !elem_of_cons in *. tauto.
    + apply (bool_decide_unpack _). by vm_compute.
    + apply (bool_decide_unpack _). by vm_compute.
    + apply (bool_decide_unpack _). by vm_compute.
    + apply (bool_decide_unpack _). by vm_compute.
    + apply (bool_decide_unpack _). by vm_compute.
  - induction 1 as [|x s Hx _ IH]; [done|]. simpl. rewrite IH. 
    destruct (html_entity_cases x) as [[_ ->]|[[-> _]|[[-> _]|[[-> _]|[[-> _]|[-> _]]]]]];
      done.
  - apply escaped_text_inj.
Qed.

(** ** Admin session: the token the server builds *)

Lemma split_on_no_sep (sep : N) (s : jsstring) : sep ∉ s → split_on sep s = [s].
Proof.
  induction s as [|c s IH]; intros Hs; simpl; [done|].
  apply not_elem_of_cons in Hs as [Hc Hs].
  destruct (N.eqb_spec c sep) as [->|_]; [done|]. by rewrite IH.
Qed.

Lemma split_on_cut (sep : N) (p s : jsstring) :
  sep ∉ p → split_on sep (p ++ [sep] ++ s) = p :: split_on sep s.
Proof.
  induction p as [|c p IH]; intros Hp; simpl.
  - by rewrite N.eqb_refl.
  - apply not_elem_of_cons in Hp as [Hc Hp].
    destruct (N.eqb_spec c sep) as [->|_]; [done|]. simpl in IH. by rewrite IH.
Qed.

Lemma base64url_not_empty (bytes : list N) : bytes ≠ [] → base64url bytes ≠ [].
Proof. by destruct bytes as [|a [|b [|c rest]]]. Qed.

Lemma safeEqualStrings_refl (s : jsstring) : safeEqualStrings s s = true.
Proof.
  unfold safeEqualStrings. cbv zeta. rewrite Nat.eqb_refl. simpl.
  by apply bool_decide_eq_true.
Qed.

Lemma signed_payload_verdict
    (hmac : jsstring → jsstring → list N) (decode : jsstring → option jsval)
    (username secret : jsstring) (now e : Z) (p : jsstring) (payload : jsval) :
  p ≠ [] → DOT ∉ p → hmac secret p ≠ [] →
  decode p = Some payload →
  get_prop payload "username" = Some (JStr username) →
  get_prop payload "exp" = Some (JNum e) →
  verifyAdminSessionToken hmac decode username secret now
    (Some (p ++ [DOT] ++ signSessionPayload hmac secret p))
  = bool_decide (now / 1000 ≤ e).
Proof.
  intros Hne Hdot Hmac Hdecode Huser Hexp.
  unfold verifyAdminSessionToken.
  set (sig := signSessionPayload hmac secret p).
  assert (existsb (N.eqb DOT) (p ++ [DOT] ++ sig) = true) as ->.
  { apply existsb_exists. exists DOT. split; [|apply N.eqb_refl].
    apply in_or_app. right. by left. }
  cbn [negb].
  rewrite split_on_cut by done.
  rewrite split_on_no_sep by apply base64url_no_dot.
  rewrite (bool_decide_eq_false_2 (p = [])) by done.
  rewrite (bool_decide_eq_false_2 (sig = [])) by (by apply base64url_not_empty).
  cbn [orb length Nat.ltb Nat.leb].
  fold sig. rewrite safeEqualStrings_refl. cbn [negb].
  rewrite Hdecode, Huser, Hexp.
  assert (strict_eq_string (JStr username) username = true) as ->.
  { unfold strict_eq_string. by apply bool_decide_eq_true. }
  cbn [negb].
  destruct (Z.ltb_spec e (now / 1000)).
  - by rewrite bool_decide_eq_false_2 by lia.
  - by rewrite bool_decide_eq_true_2 by lia.
Qed.

(** X17. The token the server builds is accepted exactly until its
    expiry, twelve hours after it was built: with primitives that decode
    what they encode, verification answers whether the second of the
    check is not after the second of expiry. *)
Theorem built_token_accepted_until_expiry
    (hmac : jsstring → jsstring → list N) (encode : jsstring → Z → jsstring)
    (decode : jsstring → option jsval) (username secret : jsstring)
    (built now : Z) (payload : jsval) :
  let exp := built / 1000 + ADMIN_SESSION_TTL_SECONDS in
  encode username exp ≠ [] →
  DOT ∉ encode username exp →
  hmac secret (encode username exp) ≠ [] →
  decode (encode username exp) = Some payload →
  get_prop payload "username" = Some (JStr username) →
  get_prop payload "exp" = Some (JNum exp) →
  verifyAdminSessionToken hmac decode username secret now
    (Some (buildAdminSessionToken hmac encode username secret built))
  = bool_decide (now / 1000 ≤ exp).
Proof.
  cbv zeta. intros Hne Hdot Hmac Hdecode Huser Hexp.
  unfold buildAdminSessionToken. cbv zeta.
  by apply signed_payload_verdict with (payload := payload).
Qed.

(** X17 with the stand-in primitives, one second after the login. *)
Lemma built_token_accepted_until_expiry_witness :
  verifyAdminSessionToken toy_hmac toy_decode (js "admin") (js "secret") 1700000001000
    (Some (buildAdminSessionToken toy_hmac toy_encode (js "admin") (js "secret")
             1700000000000))
  = bool_decide (1700000001000 / 1000 ≤ 1700000000000 / 1000 + ADMIN_SESSION_TTL_SECONDS).
Proof.
  apply (built_token_accepted_until_expiry toy_hmac toy_encode toy_decode
           (js "admin") (js "secret") 1700000000000 1700000001000
           (JObj [ (js "username", JStr (js "admin")); (js "exp", JNum 1700043200) ])).
  - by vm_compute.
  - apply (bool_decide_unpack _). by vm_compute.
  - by vm_compute.
  - by vm_compute.
  - by vm_compute.
  - by vm_compute.
Defined.

(** ** A restart after a registration *)

Lemma added_columns_inserted :
  Forall (fun c => c ∈ INSERT_COLUMNS)
    (ADDED_COLUMNS.*1 ++ [ "wants_exam"; "target_grade"; "current_grade" ]).
Proof. apply (bool_decide_unpack _). by vm_compute. Qed.

Lemma exec_update_runs used (where_ : gmap string sqlval → bool)
    (set : gmap string sqlval → gmap string sqlval) (db : table) :
  (∀ c, c ∈ used → c ∈ columns db) →
  exec_update used where_ set db = Returned (sql_update where_ set db).
Proof.
  intros H. unfold exec_update.
  assert (forallb (fun c => bool_decide (c ∈ columns db)) used = true) as ->; [|done].
  apply forallb_forall. intros c Hc. apply bool_decide_eq_true_2, H. by apply list_elem_of_In.
Qed.

(** X18. A restart after a registration: the migration runs without
    error and leaves the stored row as it is, except that an empty Iaido
    grade is overwritten with the Jodo grade of the registrant. *)
Theorem restart_rewrites_blank_iaido_grade `{Runtime} (env : register_env)
    (body : request_body) (db : table) (payload : jsval) (data : registration_data) :
  parseJsonBody body = Some payload →
  sanitizePayload payload = Some data →
  length (rows (handle (PostRegister env body) db)) = S (length (rows db)) →
  let stored := handle (PostRegister env body) db in
  let restarted := ensureRegistrationColumns stored in
  restarted.2 = None
  ∧ ∃ r r',
      last (rows stored) = Some r
      ∧ last (rows restarted.1) = Some r'
      ∧ col r "current_grade_iaido" = SqlText (d_currentGradeIaido data)
      ∧ col r' "current_grade_iaido"
        = SqlText (str_or (d_currentGradeIaido data) (d_currentGradeJodo data))
      ∧ ∀ c, c ≠ "current_grade_iaido" → col r' c = col r c.
Proof.
  intros Hbody Es Hstored. cbv zeta.
  destruct (validateRegistration data) eqn:Ev;
    [|rewrite register_refused in Hstored by (intros ? ? ? ?; congruence); lia].
  destruct (register_accepted env body db payload data Hbody Es Ev)
    as (camp & meal & acc & pricing & _ & _ & _ & _ & _ & Hh).
  rewrite Hh in *. clear Hh.
  destruct (insertRegistration db _) as [db'|e] eqn:Ei; [|lia]. clear Hstored.
  pose proof (proj1 (insertRegistration_returns_iff db _) (ex_intro _ db' Ei))
    as (Hcols & _ & _).
  destruct (sanitizePayload_grades_trimmed payload data Es) as (Tci & Tcj & _ & _).
  unfold insertRegistration in Ei. cbv zeta in Ei. cbn [r_body] in Ei.
  rewrite Tci, Tcj in Ei.
  apply insert_row_returned in Ei as [Hc Hr].
  match type of Hr with _ = _ ++ [?row] => set (r := row) in * end.
  assert (col r "wants_exam" = sql_flag (d_wantsExamIaido data || d_wantsExamJodo data)
          ∧ col r "wants_exam_iaido" = sql_flag (d_wantsExamIaido data)
          ∧ col r "wants_exam_jodo" = sql_flag (d_wantsExamJodo data)
          ∧ col r "current_grade_iaido" = SqlText (d_currentGradeIaido data)
          ∧ col r "current_grade"
            = SqlText (str_or (d_currentGradeIaido data)
                         (str_or (d_currentGradeJodo data) [])))
    as (Hwe & Hwei & Hwej & Hcgi & Hcg).
  { unfold r, list_to_map. cbn [foldr fst snd]. repeat split; by read_col. }
  clearbody r.
  pose proof added_columns_inserted as Hadded.
  rewrite Forall_forall in Hadded.
  assert (∀ c, c ∈ ADDED_COLUMNS.*1 ++ ["wants_exam"; "target_grade"; "current_grade"] →
               c ∈ columns db') as Hall.
  { intros c Hin. rewrite Hc. by apply Hcols, Hadded. }
  unfold ensureRegistrationColumns. cbv zeta.
  rewrite fold_add_columns_present
    by (intros c Hin; apply Hall, elem_of_app; by left).
  rewrite exec_update_runs.
  2:{ intros c Hin. apply Hall. revert c Hin. apply Forall_forall.
      apply (bool_decide_unpack _). by vm_compute. }
  rewrite exec_update_runs.
  2:{ intros c Hin. cbn [sql_update columns]. apply Hall. revert c Hin. apply Forall_forall.
      apply (bool_decide_unpack _). by vm_compute. }
  cbn [fst snd]. split; [done|].
  assert (backfill_exam_where r = false) as Hexam.
  { unfold backfill_exam_where, wants_exam_is_1. rewrite Hwe, Hwei, Hwej.
    by destruct (d_wantsExamIaido data), (d_wantsExamJodo data). }
  exists r. eexists. split; [by rewrite Hr, last_snoc|].
  split.
  { unfold sql_update. cbn [rows]. rewrite Hr, <- list_fmap_compose, fmap_app.
    change (?f <$> [?x]) with [f x]. rewrite last_snoc. cbn [compose].
    rewrite Hexam. reflexivity. }
  unfold backfill_grade_where, backfill_grade_set, is_blank. rewrite Hcgi, Hcg.
  cbn [COALESCE sql_eq sql_true].
  split; [done|].
  destruct (d_currentGradeIaido data) as [|c0 s0] eqn:Eg.
  - rewrite bool_decide_eq_true_2 by done. split.
    + rewrite col_insert_eq. by destruct (d_currentGradeJodo data).
    + intros c Hne. by apply col_insert_ne.
  - rewrite bool_decide_eq_false_2 by done. by split.
Qed.

(** X18 on a registration for the Jodo seminar without an Iaido grade. *)
Lemma restart_rewrites_blank_iaido_grade_witness :
  ∃ data,
    @sanitizePayload sample_runtime jodo_only_body = Some data
    ∧ (ensureRegistrationColumns
         (@handle sample_runtime (PostRegister sample_env (sent jodo_only_body))
            empty_store)).2 = None
    ∧ ∃ r r',
        last (rows (@handle sample_runtime (PostRegister sample_env (sent jodo_only_body))
                      empty_store)) = Some r
        ∧ last (rows (ensureRegistrationColumns
                        (@handle sample_runtime
                           (PostRegister sample_env (sent jodo_only_body)) empty_store)).1)
          = Some r'
        ∧ col r "current_grade_iaido" = SqlText (d_currentGradeIaido data)
        ∧ col r' "current_grade_iaido"
          = SqlText (str_or (d_currentGradeIaido data) (d_currentGradeJodo data))
        ∧ ∀ c, c ≠ "current_grade_iaido" → col r' c = col r c.
Proof.
  eexists. split; [reflexivity|].
  apply (@restart_rewrites_blank_iaido_grade sample_runtime sample_env
           (sent jodo_only_body) empty_store jodo_only_body);
    reflexivity.
Defined.

(** ** The retry wrapper: how long it can take *)

Lemma invocations_app {A} (l1 l2 : list (retry_event A)) :
  invocations (l1 ++ l2) = (invocations l1 + invocations l2)%nat.
Proof. unfold invocations. by rewrite List.filter_app, length_app. Qed.

Lemma total_delay_app {A} (l1 l2 : list (retry_event A)) :
  total_delay (l1 ++ l2) = total_delay l1 + total_delay l2.
Proof.
  unfold total_delay. induction l1 as [|[n r|ms] l1 IH]; simpl; [done|done|].
  rewrite IH. lia.
Qed.

Lemma retried_observed {A} (attempt : nat) (failures : list js_error) :
  invocations (retried (A := A) attempt failures) = length failures
  ∧ total_delay (retried (A := A) attempt failures)
    = 60 * Z.of_nat (length failures)
      * (2 * Z.of_nat attempt + Z.of_nat (length failures) - 1).
Proof.
  revert attempt. induction failures as [|e failures IH]; intros attempt; [done|].
  destruct (IH (S attempt)) as [Hn Hd]. split.
  - unfold invocations in *. simpl. by rewrite Hn.
  - unfold total_delay in *. cbn [retried fold_right length]. rewrite Hd.
    unfold SQLITE_RETRY_BASE_DELAY_MS. nia.
Qed.

(** X19. The wrapper is bounded: it invokes the operation between one and
    five times, and before invocation number n it has waited
    120 + 240 + ... + 120 (n - 1) milliseconds, 1200 at most. *)
Theorem runWithSqliteRetry_bounded {W A : Type} (operation : W → outcome A * W)
    (sleep : Z → W → W) (w : W) :
  let '(_, _, log) := runWithSqliteRetry operation sleep w in
  (1 ≤ invocations log ≤ 5)%nat
  ∧ total_delay log = 60 * Z.of_nat (invocations log) * (Z.of_nat (invocations log) - 1)
  ∧ 0 ≤ total_delay log ≤ 1200.
Proof.
  unfold runWithSqliteRetry.
  pose proof (retry_loop_spec operation sleep SQLITE_RETRY_MAX_ATTEMPTS 1 w) as H.
  destruct (retry_loop operation sleep SQLITE_RETRY_MAX_ATTEMPTS 1 w) as [[final w'] log].
  destruct H as (failures & last & Hlen & _ & -> & _); [unfold SQLITE_RETRY_MAX_ATTEMPTS; lia..|].
  unfold SQLITE_RETRY_MAX_ATTEMPTS in Hlen.
  rewrite invocations_app, total_delay_app.
  destruct (retried_observed (A := A) 1 failures) as [-> ->].
  change (invocations [Invoked (1 + length failures) last]) with 1%nat.
  change (total_delay [Invoked (1 + length failures) last]) with 0.
  split; [lia|]. split; nia.
Qed.

(** ** Login and the session cookie *)

Lemma unreserved_plain (c : N) :
  uri_unreserved c = true →
  is_js_whitespace c = false ∧ c ≠ 59%N ∧ c ≠ 61%N ∧ c ≠ 37%N.
Proof.
  unfold uri_unreserved. rewrite !orb_true_iff, !andb_true_iff, !N.leb_le, bool_decide_eq_true.
  intros H.
  assert ((65 ≤ c ≤ 90)%N ∨ (97 ≤ c ≤ 122)%N ∨ (48 ≤ c ≤ 57)%N
          ∨ c ∈ [45; 95; 46; 33; 126; 42; 39; 40; 41]%N) as Hc by tauto.
  clear H. rewrite !elem_of_cons, elem_of_nil in Hc.
  unfold is_js_whitespace. repeat split; try lia.
  repeat match goal with
         | |- context [(?a <=? ?b)%N] => destruct (N.leb_spec a b); try lia
         | |- context [(?a =? ?b)%N] => destruct (N.eqb_spec a b); try lia
         end; try done.
Qed.

Lemma encodeURIComponent_unreserved (s : jsstring) :
  Forall (fun c => uri_unreserved c = true) s → encodeURIComponent s = Some s.
Proof.
  induction 1 as [|c s Hc _ IH]; [done|]. simpl. by rewrite Hc, IH.
Qed.

Lemma trimStart_plain (s : jsstring) :
  Forall (fun c => is_js_whitespace c = false) s → trimStart s = s.
Proof. destruct 1 as [|c s Hc _]; [done|]. simpl. by rewrite Hc. Qed.

Lemma trim_plain (s : jsstring) :
  Forall (fun c => is_js_whitespace c = false) s → trim s = s.
Proof.
  intros H. unfold trim, trimEnd. rewrite (trimStart_plain s) by done.
  rewrite trimStart_plain by (by apply Forall_rev). apply rev_involutive.
Qed.

Lemma base64url_unreserved (bytes : list N) :
  Forall (fun c => uri_unreserved c = true) (base64url bytes).
Proof.
  assert (Forall (fun c => uri_unreserved c = true) BASE64URL_ALPHABET) as Halphabet.
  { apply (bool_decide_unpack _). by vm_compute. }
  rewrite Forall_forall in Halphabet.
  assert (∀ n bytes, (length bytes ≤ n)%nat →
            Forall (fun c => uri_unreserved c = true) (base64url bytes)) as H.
  { clear bytes. induction n as [|n IH]; intros bytes Hlen.
    - destruct bytes; [constructor | simpl in Hlen; lia].
    - destruct bytes as [|a [|b [|c rest]]]; simpl;
        repeat (constructor; [apply Halphabet, base64url_digit_alphabet|]); try constructor.
      apply IH. simpl in Hlen. lia. }
  by apply (H (length bytes)).
Qed.

Lemma session_pair_authenticates
    (hmac : jsstring → jsstring → list N) (decode : jsstring → option jsval)
    (decodeURI : jsstring → option jsstring) (username secret : jsstring)
    (later e : Z) (p : jsstring) (payload : jsval) :
  p ≠ [] →
  Forall (fun c => uri_unreserved c = true ∧ c ≠ DOT) p →
  hmac secret p ≠ [] →
  decode p = Some payload →
  get_prop payload "username" = Some (JStr username) →
  get_prop payload "exp" = Some (JNum e) →
  (∀ s, 37%N ∉ s → decodeURI s = Some s) →
  let token := p ++ [DOT] ++ signSessionPayload hmac secret p in
  Forall (fun c => uri_unreserved c = true) token
  ∧ isAdminAuthenticated hmac decode decodeURI username secret later
      (Some (ADMIN_SESSION_COOKIE ++ js "=" ++ token))
    = Some (bool_decide (later / 1000 ≤ e)).
Proof.
  intros Hne Hp Hmac Hdecode Huser Hexp Huri. cbv zeta.
  set (token := p ++ [DOT] ++ signSessionPayload hmac secret p).
  assert (Forall (fun c => uri_unreserved c = true) token) as Htoken.
  { unfold token. apply Forall_app. split; [by eapply Forall_impl; [exact Hp|]; intros c [? _]|].
    apply Forall_app. split; [by repeat constructor | apply base64url_unreserved]. }
  split; [done|].
  assert (Forall (fun c => is_js_whitespace c = false ∧ c ≠ 59%N ∧ c ≠ 61%N ∧ c ≠ 37%N) token)
    as Hplain.
  { eapply Forall_impl; [exact Htoken|]. apply unreserved_plain. }
  assert (token ≠ []) as Htne by (unfold token; by destruct p).
  assert (DOT ∉ p) as Hdot.
  { intros Hin. rewrite Forall_forall in Hp. by destruct (Hp _ Hin). }
  unfold isAdminAuthenticated, parseCookies.
  change (ADMIN_SESSION_COOKIE ++ js "=" ++ token)
    with (97%N :: js "dmin_session" ++ [61%N] ++ token).
  cbv iota beta.
  change (97%N :: js "dmin_session" ++ [61%N] ++ token)
    with (js "admin_session" ++ [61%N] ++ token).
  rewrite split_on_no_sep.
  2:{ rewrite !not_elem_of_app. split; [apply (bool_decide_unpack _); by vm_compute|].
      split; [apply (bool_decide_unpack _); by vm_compute|].
      intros Hin. rewrite Forall_forall in Hplain. destruct (Hplain _ Hin) as (_ & H & _).
      done. }
  cbn [fold_left mbind option_bind]. unfold parse_cookie_part.
  rewrite trim_plain.
  2:{ apply Forall_app. split; [apply (bool_decide_unpack _); by vm_compute|].
      apply Forall_app. split; [by repeat constructor|].
      eapply Forall_impl; [exact Hplain|]. by intros c [? _]. }
  rewrite split_on_cut by (apply (bool_decide_unpack _); by vm_compute).
  rewrite split_on_no_sep.
  2:{ intros Hin. rewrite Forall_forall in Hplain. destruct (Hplain _ Hin) as (_ & _ & H & _).
      done. }
  rewrite bool_decide_eq_false_2 by done.
  change (join_with (js "=") [token]) with token.
  assert (str_or token [] = token) as -> by (by destruct token).
  rewrite Huri.
  2:{ intros Hin. rewrite Forall_forall in Hplain. destruct (Hplain _ Hin) as (_ & _ & _ & H).
      done. }
  cbn [mbind option_bind].
  rewrite bool_decide_eq_false_2 by done.
  unfold ADMIN_SESSION_COOKIE. rewrite lookup_insert_eq. f_equal.
  by apply signed_payload_verdict with (payload := payload).
Qed.

(** X20. Login and session, end to end.  With credentials configured in
    ASCII and primitives that decode what they encode, the login answers
    200 exactly when it sets the cookie, and that exactly when [String]
    converts the two credentials of the body and gives the configured
    password and, once trimmed, the configured user name.  The cookie is the pair [admin_session=token] followed by the
    attributes, and a request that sends the pair back is authenticated
    exactly until the token expires, twelve hours after the login. *)
Theorem login_grants_session
    (hmac : jsstring → jsstring → list N) (encode : jsstring → Z → jsstring)
    (decode : jsstring → option jsval) (decodeURI : jsstring → option jsstring)
    (username password secret : jsstring) (production : bool) (now : Z)
    (payload : jsval) (body : option jsval) :
  let exp := now / 1000 + ADMIN_SESSION_TTL_SECONDS in
  Forall is_ascii username →
  Forall is_ascii password →
  encode username exp ≠ [] →
  Forall (fun c => uri_unreserved c = true ∧ c ≠ DOT) (encode username exp) →
  hmac secret (encode username exp) ≠ [] →
  decode (encode username exp) = Some payload →
  get_prop payload "username" = Some (JStr username) →
  get_prop payload "exp" = Some (JNum exp) →
  (∀ s, 37%N ∉ s → decodeURI s = Some s) →
  let answer := login hmac encode username password secret production now body in
  (answer.1 = 200 ↔ is_Some answer.2)
  ∧ (answer.1 = 200
     ↔ ∃ b u p,
         body = Some b
         ∧ get_prop b "username" = Some u ∧ get_prop b "password" = Some p
         ∧ trim <$> String_of (js_or u (JStr [])) = Some username
         ∧ String_of (js_or p (JStr [])) = Some password)
  ∧ ∀ cookie,
      answer.2 = Some cookie →
      ∃ pair,
        cookie = pair ++ js "; Path=/; HttpOnly; SameSite=Lax; Max-Age=43200"
                      ++ (if production then js "; Secure" else [])
        ∧ ∀ later,
            isAdminAuthenticated hmac decode decodeURI username secret later (Some pair)
            = Some (bool_decide (later / 1000 ≤ exp)).
Proof.
  cbv zeta. intros Huser Hpass Hne Hp Hmac Hdecode Hname Hexp Huri.
  set (exp := now / 1000 + ADMIN_SESSION_TTL_SECONDS) in *.
  set (token := encode username exp ++ [DOT] ++ signSessionPayload hmac secret (encode username exp)).
  assert (Forall (fun c => uri_unreserved c = true) token) as Htoken.
  { by apply (session_pair_authenticates hmac decode decodeURI username secret 0 exp
                (encode username exp) payload). }
  assert (setAdminSessionCookie production token ADMIN_SESSION_TTL_SECONDS
          = Some ((ADMIN_SESSION_COOKIE ++ js "=" ++ token)
                  ++ js "; Path=/; HttpOnly; SameSite=Lax; Max-Age=43200"
                  ++ (if production then js "; Secure" else []))) as Hcookie.
  { unfold setAdminSessionCookie. rewrite encodeURIComponent_unreserved by done.
    cbn [mbind option_bind]. f_equal.
    generalize (ADMIN_SESSION_COOKIE ++ js "=" ++ token) as pair. intros pair.
    by destruct production. }
  unfold login. destruct body as [b|].
  2:{ cbn [fst snd]. split; [by split; [|intros [? ?]]|]. split; [|done].
      split; [done|]. by intros (b' & u' & p' & Hb & _). }
  destruct (get_prop b "username") as [u|] eqn:Eu.
  2:{ cbn [mbind option_bind fst snd]. split; [by split; [|intros [? ?]]|]. split; [|done].
      split; [done|]. intros (b' & u' & p' & [= <-] & Hu & _). congruence. }
  destruct (get_prop b "password") as [p|] eqn:Ep.
  2:{ cbn [mbind option_bind]. destruct (String_of (js_or u (JStr [])));
        cbn [fst snd]; (split; [by split; [|intros [? ?]]|]); (split; [|done]);
        (split; [done|]); intros (b' & u' & p' & [= <-] & _ & Hp' & _); congruence. }
  cbn [mbind option_bind].
  destruct (String_of (js_or u (JStr []))) as [name|] eqn:Sn.
  2:{ cbn [fst snd]. split; [by split; [|intros [? ?]]|]. split; [|done].
      split; [done|]. intros (b' & u' & p' & [= <-] & Hu & _ & Heq & _).
      rewrite Eu in Hu. injection Hu as <-. by rewrite Sn in Heq. }
  destruct (String_of (js_or p (JStr []))) as [pass|] eqn:Sp.
  2:{ cbn [fst snd]. split; [by split; [|intros [? ?]]|]. split; [|done].
      split; [done|]. intros (b' & u' & p' & [= <-] & _ & Hp' & _ & Heq).
      rewrite Ep in Hp'. injection Hp' as <-. by rewrite Sp in Heq. }
  cbv zeta.
  destruct (safeEqualStrings (trim name) username) eqn:E1.
  - destruct (safeEqualStrings pass password) eqn:E2.
    + apply safeEqualStrings_ascii in E1, E2; [|done..].
      cbn [negb orb]. unfold buildAdminSessionToken. cbv zeta.
      fold exp. fold token. rewrite Hcookie. cbn [fst snd].
      split; [by split; eauto|]. split.
      * split; [|done]. intros _. exists b, u, p. rewrite Sn, Sp. simpl.
        by rewrite E1, E2.
      * intros cookie [= <-]. exists (ADMIN_SESSION_COOKIE ++ js "=" ++ token).
        split; [reflexivity|]. intros later.
        by apply (session_pair_authenticates hmac decode decodeURI username secret later exp
                    (encode username exp) payload).
    + cbn [negb orb fst snd]. split; [by split; [|intros [? ?]]|]. split; [|done].
      split; [done|]. intros (b' & u' & p' & [= <-] & Hu & Hp' & _ & Heq).
      rewrite Ep in Hp'. injection Hp' as <-. rewrite Sp in Heq. injection Heq as Heq.
      apply (safeEqualStrings_ascii _ _ Hpass) in Heq. congruence.
  - cbn [negb orb fst snd]. split; [by split; [|intros [? ?]]|]. split; [|done].
    split; [done|]. intros (b' & u' & p' & [= <-] & Hu & Hp' & Heq & _).
    rewrite Eu in Hu. injection Hu as <-. rewrite Sn in Heq. injection Heq as Heq.
    apply (safeEqualStrings_ascii _ _ Huser) in Heq. congruence.
Qed.

(** X20 with the stand-in primitives, on a login whose user name comes
    with white space around it. *)
Lemma login_grants_session_witness :
  let exp := 1700000000000 / 1000 + ADMIN_SESSION_TTL_SECONDS in
  let answer :=
    login toy_hmac toy_encode (js "admin") (js "demo-admin-123") (js "secret") true
      1700000000000 (Some login_body) in
  (answer.1 = 200 ↔ is_Some answer.2)
  ∧ (answer.1 = 200
     ↔ ∃ b u p,
         Some login_body = Some b
         ∧ get_prop b "username" = Some u ∧ get_prop b "password" = Some p
         ∧ trim <$> String_of (js_or u (JStr [])) = Some (js "admin")
         ∧ String_of (js_or p (JStr [])) = Some (js "demo-admin-123"))
  ∧ ∀ cookie,
      answer.2 = Some cookie →
      ∃ pair,
        cookie = pair ++ js "; Path=/; HttpOnly; SameSite=Lax; Max-Age=43200"
                      ++ (if true then js "; Secure" else [])
        ∧ ∀ later,
            isAdminAuthenticated toy_hmac toy_decode toy_decodeURIComponent (js "admin")
              (js "secret") later (Some pair)
            = Some (bool_decide (later / 1000 ≤ exp)).
Proof.
  apply (login_grants_session toy_hmac toy_encode toy_decode toy_decodeURIComponent
           (js "admin") (js "demo-admin-123") (js "secret") true 1700000000000
           (JObj [ (js "username", JStr (js "admin")); (js "exp", JNum 1700043200) ])
           (Some login_body)).
  - change (Forall (fun c => (c < 128)%N) (js "admin")).
    apply (bool_decide_unpack _). by vm_compute.
  - change (Forall (fun c => (c < 128)%N) (js "demo-admin-123")).
    apply (bool_decide_unpack _). by vm_compute.
  - by vm_compute.
  - apply (bool_decide_unpack _). by vm_compute.
  - by vm_compute.
  - by vm_compute.
  - by vm_compute.
  - by vm_compute.
  - intros s Hs. unfold toy_decodeURIComponent. by rewrite bool_decide_eq_false_2.
Defined.

(** ** Starting the server again *)

Lemma ensureRegistrationColumns_runs (db : table) :
  (∀ c, c ∈ ADDED_COLUMNS.*1 ++ ["wants_exam"; "target_grade"; "current_grade"] →
        c ∈ columns db) →
  ensureRegistrationColumns db
  = (sql_update backfill_grade_where backfill_grade_set
       (sql_update backfill_exam_where backfill_exam_set db), None).
Proof.
  intros Hall. unfold ensureRegistrationColumns. cbv zeta.
  rewrite fold_add_columns_present
    by (intros c Hin; apply Hall, elem_of_app; by left).
  rewrite exec_update_runs.
  2:{ intros c Hin. apply Hall. revert c Hin. apply Forall_forall.
      apply (bool_decide_unpack _). by vm_compute. }
  rewrite exec_update_runs; [done|].
  intros c Hin. cbn [sql_update columns]. apply Hall. revert c Hin. apply Forall_forall.
  apply (bool_decide_unpack _). by vm_compute.
Qed.

Lemma exec_update_columns used (where_ : gmap string sqlval → bool)
    (set : gmap string sqlval → gmap string sqlval) (db db' : table) :
  exec_update used where_ set db = Returned db' →
  columns db' = columns db ∧ ∀ c, c ∈ used → c ∈ columns db.
Proof.
  unfold exec_update. destruct (forallb _ used) eqn:E; [|done]. intros [= <-].
  split; [done|]. intros c Hc. rewrite forallb_forall in E.
  apply list_elem_of_In in Hc. specialize (E c Hc). by apply bool_decide_eq_true in E.
Qed.

Lemma ensureRegistrationColumns_columns (db db' : table) :
  ensureRegistrationColumns db = (db', None) →
  ∀ c, c ∈ ADDED_COLUMNS.*1 ++ ["wants_exam"; "target_grade"; "current_grade"] →
       c ∈ columns db'.
Proof.
  unfold ensureRegistrationColumns. cbv zeta.
  set (db1 := fold_left (add_column_if_missing (columns db)) ADDED_COLUMNS db).
  destruct (exec_update _ backfill_exam_where _ db1) as [db2|e] eqn:E2; [|done].
  destruct (exec_update _ backfill_grade_where _ db2) as [db3|e] eqn:E3; [|done].
  intros [= <-].
  apply exec_update_columns in E2 as [C2 U2], E3 as [C3 U3].
  intros c Hc. rewrite C3, C2. apply elem_of_app in Hc as [Hc|Hc].
  - destruct (fold_add_columns_adds (columns db) ADDED_COLUMNS db c Hc) as [H|H]; [|done].
    by apply fold_add_columns_keeps.
  - apply elem_of_cons in Hc as [->|Hc];
      [apply U2, (bool_decide_unpack _); by vm_compute|].
    apply elem_of_cons in Hc as [->|Hc];
      [apply U2, (bool_decide_unpack _); by vm_compute|].
    apply elem_of_cons in Hc as [->|Hc];
      [rewrite <- C2; apply U3, (bool_decide_unpack _); by vm_compute|].
    by apply elem_of_nil in Hc.
Qed.

Lemma migrate_skips (gen : nat → import_env) (file : legacy_file) (db : table) :
  rows db ≠ [] → migrateLegacyJsonIfNeeded gen file db = (db, None).
Proof.
  intros Hrows. unfold migrateLegacyJsonIfNeeded.
  assert ((0 <? length (rows db))%nat = true) as Hlen.
  { apply Nat.ltb_lt. destruct (rows db); [done | simpl; lia]. }
  destruct file; cbv zeta; by rewrite ?Hlen.
Qed.

Lemma migrate_returned (gen : nat → import_env) (file : legacy_file) (db db1 : table) :
  migrateLegacyJsonIfNeeded gen file db = (db1, None) →
  columns db1 = columns db
  ∧ (rows db1 = [] →
     ∀ gen' X, rows X = [] → migrateLegacyJsonIfNeeded gen' file X = (X, None)).
Proof.
  unfold migrateLegacyJsonIfNeeded. destruct file as [| | |items]; cbv zeta.
  - intros [= <-]. split; [done|]. intros _ gen' X _. done.
  - destruct (0 <? length (rows db))%nat; intros [= <-]; (split; [done|]);
      intros _ gen' X ->; done.
  - destruct (0 <? length (rows db))%nat; intros [= <-]; (split; [done|]);
      intros _ gen' X ->; done.
  - destruct (0 <? length (rows db))%nat eqn:Hlen.
    + intros [= <-]. split; [done|]. intros Hnil. rewrite Hnil in Hlen. done.
    + destruct (length items =? 0)%nat eqn:Hitems.
      * intros [= <-]. split; [done|]. intros _ gen' X ->. done.
      * destruct (negb _); [done|].
        destruct (import_items gen 0 items db) as [db'|e] eqn:E; [|done].
        intros [= <-]. apply import_items_returned in E as (Hc & _ & new & Hr & Hl & _).
        split; [done|]. intros Hnil. rewrite Hnil in Hr.
        symmetry in Hr. apply app_eq_nil in Hr as [_ ->]. simpl in Hl.
        apply Nat.eqb_neq in Hitems. lia.
Qed.

(** X21. A server that started without error starts again without error,
    with the same columns, and every registration reads after the second
    start as it read after the first; the legacy file is not imported a
    second time. *)
Theorem restart_keeps_views (JSON_parse : jsstring → option jsval)
    (gen1 gen2 : nat → import_env) (legacy : legacy_file) (stored : option table)
    (db1 : table) :
  initDatabase gen1 legacy stored = (db1, None) →
  ∃ db2,
    initDatabase gen2 legacy (Some db1) = (db2, None)
    ∧ columns db2 = columns db1
    ∧ length (rows db2) = length (rows db1)
    ∧ mapped_rows JSON_parse db2 = mapped_rows JSON_parse db1.
Proof.
  unfold initDatabase. cbv zeta.
  destruct (ensureRegistrationColumns _) as [dbe [e|]] eqn:Ee; [done|].
  intros Hm. pose proof (ensureRegistrationColumns_columns _ _ Ee) as Hcols.
  apply migrate_returned in Hm as [Hc Hempty].
  rewrite ensureRegistrationColumns_runs by (intros c Hin; rewrite Hc; by apply Hcols).
  set (db2 := sql_update backfill_grade_where backfill_grade_set
                (sql_update backfill_exam_where backfill_exam_set db1)).
  assert (length (rows db2) = length (rows db1)) as Hlen.
  { unfold db2, sql_update. cbn [rows]. by rewrite !length_fmap. }
  assert (mapped_rows JSON_parse db2 = mapped_rows JSON_parse db1) as Hviews.
  { unfold db2. etrans.
    - apply mapped_rows_fmap. intros r _. apply view_backfill_grade.
    - apply mapped_rows_fmap. intros r _. apply view_backfill_exam. }
  exists db2. split; [|done].
  destruct (rows db1) as [|r rs] eqn:Hrows.
  - apply Hempty; [done|]. destruct (rows db2); [done | simpl in Hlen; lia].
  - apply migrate_skips. destruct (rows db2); [simpl in Hlen; lia | done].
Qed.

(** X21 on a first start that creates the table and imports two legacy
    entries. *)
Lemma restart_keeps_views_witness :
  ∃ db2,
    initDatabase sample_gen legacy_sample (Some (initDatabase sample_gen legacy_sample None).1)
    = (db2, None)
    ∧ columns db2 = columns (initDatabase sample_gen legacy_sample None).1
    ∧ length (rows db2) = length (rows (initDatabase sample_gen legacy_sample None).1)
    ∧ mapped_rows (fun _ => None) db2
      = mapped_rows (fun _ => None) (initDatabase sample_gen legacy_sample None).1.
Proof.
  apply (restart_keeps_views (fun _ => None) sample_gen sample_gen legacy_sample None
           (initDatabase sample_gen legacy_sample None).1).
  by vm_compute.
Defined.
